(** * ObjectsRepositoryServer: the Mongo service

    A shallow embedding of the service [Mongo] ([services/mongo.ts]): the
    normalizer ([addAndGetId], [concatFix]) of the submission pipeline,
    the resolver ([resolve]) and the ownership and access layer
    ([insertCurrentUserData], [isUserOwnerOfObject],
    [getObjectFromCollection], [getAllObjectsFromCollection],
    [removeObjectFromCollection], [searchObjectWithFilter]).

    Documents are JavaScript values.  The MongoDB driver's [ObjectId] and
    the repository's type guards and resolving strategies are interfaces
    (type classes); the development is parametric in them and supplies one
    instance of each to run the functions on concrete requests. *)

From Stdlib Require Import String Ascii List ZArith Bool Lia DecimalString.
Import ListNotations.
Local Open Scope string_scope.
Local Open Scope list_scope.

(* ================================================================== *)
(** * JavaScript values *)
(* ================================================================== *)

(** A value as the handlers see it: what [body-parser] delivers, what the
    driver reads from a collection, and the driver's [ObjectId] instances
    ([VId h], [h] being the instance's hexadecimal string).  An object is
    the list of its own enumerable properties in enumeration order.
    Numbers are the integers. *)
#[local] Unset Elimination Schemes.
Inductive value : Type :=
| VUndef
| VNull
| VBool (b : bool)
| VNum (n : Z)
| VStr (s : string)
| VId (h : string)
| VArr (l : list value)
| VObj (o : list (string * value)).
#[local] Set Elimination Schemes.

Definition fields := list (string * value).

(** The double quote and the backslash. *)
Definition dquote : ascii := ascii_of_nat 34.
Definition backslash : ascii := ascii_of_nat 92.

(** [if (v)]: JavaScript truthiness. *)
Definition truthy (v : value) : bool :=
  match v with
  | VUndef | VNull => false
  | VBool b => b
  | VNum n => negb (Z.eqb n 0)
  | VStr s => negb (String.eqb s EmptyString)
  | VId _ | VArr _ | VObj _ => true
  end.

Definition is_undefined (v : value) : bool :=
  match v with VUndef => true | _ => false end.

Definition nullish (v : value) : bool :=
  match v with VUndef | VNull => true | _ => false end.

Definition is_array (v : value) : bool :=
  match v with VArr _ => true | _ => false end.

(** ** Objects *)

Fixpoint lookup (k : string) (o : fields) : option value :=
  match o with
  | [] => None
  | (k', v) :: t => if String.eqb k k' then Some v else lookup k t
  end.

(** [o[k]] on an object. *)
Definition field (o : fields) (k : string) : value :=
  match lookup k o with Some v => v | None => VUndef end.

(** [o[k] = v]: an own property keeps its place, a new one goes last. *)
Fixpoint assign (k : string) (v : value) (o : fields) : fields :=
  match o with
  | [] => [(k, v)]
  | (k', v') :: t =>
      if String.eqb k k' then (k, v) :: t else (k', v') :: assign k v t
  end.

(** [delete o[k]]. *)
Fixpoint remove_key (k : string) (o : fields) : fields :=
  match o with
  | [] => []
  | (k', v') :: t =>
      if String.eqb k k' then remove_key k t else (k', v') :: remove_key k t
  end.

(** [{ ...a, ...b }]: the properties of [b] win. *)
Definition spread (a b : fields) : fields :=
  fold_left (fun acc kv => assign (fst kv) (snd kv) acc) b a.

(** The own properties a spread [...v] copies out of a document. *)
Definition own_fields (v : value) : fields :=
  match v with VObj o => o | _ => [] end.

(** [v[k]] for a property name [k] the program reads by name ([_id],
    [roles], [value], ...): [None] is the TypeError of reading a property
    of [undefined] or [null]; a primitive, an array or an [ObjectId] has
    no such property. *)
Definition prop (v : value) (k : string) : option value :=
  match v with
  | VUndef | VNull => None
  | VObj o => Some (field o k)
  | _ => Some VUndef
  end.

(** [v.length]. *)
Definition js_length (v : value) : value :=
  match v with
  | VStr s => VNum (Z.of_nat (String.length s))
  | VArr l => VNum (Z.of_nat (List.length l))
  | VObj o => field o "length"
  | _ => VUndef
  end.

(** ** Equality *)

(** [a === b].  Objects, arrays and [ObjectId] instances are equal only
    to themselves; the embedding has no references and takes every
    occurrence of one for a reference of its own. *)
Definition strict_eq (a b : value) : bool :=
  match a, b with
  | VUndef, VUndef => true
  | VNull, VNull => true
  | VBool x, VBool y => Bool.eqb x y
  | VNum x, VNum y => Z.eqb x y
  | VStr x, VStr y => String.eqb x y
  | _, _ => false
  end.

(** ** Strings *)

Definition Z_to_string (n : Z) : string := NilZero.string_of_int (Z.to_int n).
Definition nat_to_string (n : nat) : string := NilZero.string_of_uint (Nat.to_uint n).

Fixpoint join (sep : string) (l : list string) : string :=
  match l with
  | [] => EmptyString
  | [s] => s
  | s :: t => s ++ sep ++ join sep t
  end.

(** [String(v)], which is [v.toString()] where [v] is not nullish. *)
Fixpoint toString (v : value) : string :=
  match v with
  | VUndef => "undefined"
  | VNull => "null"
  | VBool true => "true"
  | VBool false => "false"
  | VNum n => Z_to_string n
  | VStr s => s
  | VId h => h
  | VArr l =>
      join "," ((fix each (l : list value) : list string :=
                   match l with
                   | [] => []
                   | x :: t => (if nullish x then EmptyString else toString x) :: each t
                   end) l)
  | VObj _ => "[object Object]"
  end.

(** [s.indexOf(t)] and [s.indexOf(t) !== -1]. *)
Definition indexOf (hay needle : string) : option nat := String.index 0 needle hay.

Definition includes (hay needle : string) : bool :=
  match indexOf hay needle with Some _ => true | None => false end.

(** [toLowerCase], on the ASCII letters. *)
Definition lower_ascii (c : ascii) : ascii :=
  let n := nat_of_ascii c in
  if (65 <=? n)%nat && (n <=? 90)%nat then ascii_of_nat (n + 32) else c.

Fixpoint toLowerCase (s : string) : string :=
  match s with
  | EmptyString => EmptyString
  | String c t => String (lower_ascii c) (toLowerCase t)
  end.

(** ** [JSON.stringify] *)

Definition hex_digit (n : nat) : ascii :=
  if (n <? 10)%nat then ascii_of_nat (48 + n) else ascii_of_nat (87 + n).

Definition json_escape (c : ascii) : string :=
  let n := nat_of_ascii c in
  if Ascii.eqb c dquote then String backslash (String dquote EmptyString)
  else if Ascii.eqb c backslash then String backslash (String backslash EmptyString)
  else if (n =? 8)%nat then String backslash "b"
  else if (n =? 9)%nat then String backslash "t"
  else if (n =? 10)%nat then String backslash "n"
  else if (n =? 12)%nat then String backslash "f"
  else if (n =? 13)%nat then String backslash "r"
  else if (n <? 32)%nat then
    String backslash
      ("u00" ++ String (hex_digit (n / 16)) (String (hex_digit (n mod 16)) EmptyString))
  else String c EmptyString.

Fixpoint json_escape_string (s : string) : string :=
  match s with
  | EmptyString => EmptyString
  | String c t => json_escape c ++ json_escape_string t
  end.

Definition json_quote (s : string) : string :=
  String dquote (json_escape_string s ++ String dquote EmptyString).

(** The text of a value that is not [undefined]; an [ObjectId] serializes
    through its [toJSON] as its hexadecimal string; inside an array
    [undefined] is written [null], inside an object the property is
    left out. *)
Fixpoint json_text (v : value) : string :=
  match v with
  | VUndef | VNull => "null"
  | VBool true => "true"
  | VBool false => "false"
  | VNum n => Z_to_string n
  | VStr s => json_quote s
  | VId h => json_quote h
  | VArr l =>
      ("[" ++ join "," ((fix each (l : list value) : list string :=
                          match l with
                          | [] => []
                          | x :: t => json_text x :: each t
                          end) l) ++ "]")%string
  | VObj o =>
      ("{" ++ join "," ((fix each (o : fields) : list string :=
                          match o with
                          | [] => []
                          | (k, x) :: t =>
                              if is_undefined x then each t
                              else (json_quote k ++ ":" ++ json_text x)%string :: each t
                          end) o) ++ "}")%string
  end.

(** [JSON.stringify(v)]: [None] is the result [undefined]. *)
Definition JSON_stringify (v : value) : option string :=
  if is_undefined v then None else Some (json_text v).

(** ** Arrays *)

(** [acc.concat(v)]: an array is spread, anything else is appended. *)
Definition js_concat (acc : list value) (v : value) : list value :=
  match v with
  | VArr l => acc ++ l
  | _ => acc ++ [v]
  end.

(** [flatten(list)] of the [flatten] package: nested arrays are spliced
    in at every depth. *)
Fixpoint flatten (v : value) : list value :=
  match v with
  | VArr l =>
      (fix each (l : list value) : list value :=
         match l with
         | [] => []
         | x :: t => flatten x ++ each t
         end) l
  | _ => [v]
  end.

(** SameValueZero, the equality of [Set]: on strings, the role tags,
    equality of the text; see [strict_eq] for objects. *)
Definition same_value_zero (a b : value) : bool := strict_eq a b.

(** [Array.from(new Set(l))]: the first occurrence of every element. *)
Fixpoint Set_from (seen l : list value) : list value :=
  match l with
  | [] => []
  | x :: t =>
      if existsb (same_value_zero x) seen then Set_from seen t
      else x :: Set_from (x :: seen) t
  end.

Definition Set_dedup (l : list value) : list value := Set_from [] l.

(* ================================================================== *)
(** * The driver's ObjectId *)
(* ================================================================== *)

(** What the program uses of the MongoDB driver's [ObjectId]:
    [ObjectId.isValid(v)]; the hexadecimal string of [new ObjectId(v)]
    for a valid [v] that is no number; the hexadecimal string of the
    [n]-th [new ObjectId()] of the process; the strings a walk over the
    own enumerable properties of an instance meets (see
    [getNestedValues]); and the hexadecimal string of [new ObjectId(t)]
    for a number [t], which the driver reads as a time and for which it
    generates an identifier of its own at every call: [ObjectId_generate
    t n] where the call is the [n]-th generation of the process. *)
Class ObjectIdDriver : Type := {
  ObjectId_isValid : value -> bool;
  ObjectId_hex : value -> string;
  ObjectId_fresh : nat -> string;
  ObjectId_strings : string -> list string;
  ObjectId_generate : Z -> nat -> string
}.

(** [new ObjectId(v)]. *)
Definition ObjectId_new `{ObjectIdDriver} (v : value) : value :=
  VId (ObjectId_hex v).

(** An instance: identifiers in their canonical string form, 24
    hexadecimal digits, and [ObjectId] instances themselves. *)
Definition is_hex_digit (c : ascii) : bool :=
  let n := nat_of_ascii c in
  ((48 <=? n)%nat && (n <=? 57)%nat)
  || ((65 <=? n)%nat && (n <=? 70)%nat)
  || ((97 <=? n)%nat && (n <=? 102)%nat).

Fixpoint all_hex (s : string) : bool :=
  match s with
  | EmptyString => true
  | String c t => is_hex_digit c && all_hex t
  end.

Definition hex24 (s : string) : bool :=
  (String.length s =? 24)%nat && all_hex s.

Definition canonical_isValid (v : value) : bool :=
  match v with
  | VId _ => true
  | VStr s => hex24 s
  | _ => false
  end.

Definition canonical_hex (v : value) : string :=
  match v with
  | VId h => h
  | VStr s => toLowerCase s
  | _ => EmptyString
  end.

Fixpoint zeros (n : nat) : string :=
  match n with
  | O => EmptyString
  | S n' => String "0" (zeros n')
  end.

(** Generated identifiers: an [f] and the counter in 23 digits. *)
Definition canonical_fresh (n : nat) : string :=
  let digits := nat_to_string n in
  String "f" (zeros (23 - String.length digits) ++ digits).

(** Identifiers generated for a time: the seconds in 8 digits and the
    counter in 16. *)
Definition pad (width : nat) (digits : string) : string :=
  zeros (width - String.length digits) ++ digits.

Definition canonical_generate (t : Z) (n : nat) : string :=
  pad 8 (nat_to_string (Z.to_nat t)) ++ pad 16 (nat_to_string n).

#[export] Instance canonical_driver : ObjectIdDriver := {
  ObjectId_isValid := canonical_isValid;
  ObjectId_hex := canonical_hex;
  ObjectId_fresh := canonical_fresh;
  ObjectId_strings := fun _ => ["ObjectID"];
  ObjectId_generate := canonical_generate
}.

(** The same driver where, as the MongoDB driver does, it takes a number
    for a valid identifier. *)
Definition number_driver : ObjectIdDriver := {|
  ObjectId_isValid := fun v => match v with VNum _ => true | _ => canonical_isValid v end;
  ObjectId_hex := canonical_hex;
  ObjectId_fresh := canonical_fresh;
  ObjectId_strings := fun _ => ["ObjectID"];
  ObjectId_generate := canonical_generate
|}.

(* ================================================================== *)
(** * The entity store *)
(* ================================================================== *)

(** The objects repository: the documents of every collection, in the
    collection's natural order.  Every operation of the store is taken
    to succeed ([result.ok === 1]); [removeObjectFromCollection] and
    [registerUser] take what the store reports as an argument. *)
Definition store := list (string * list value).

Fixpoint docs (st : store) (c : string) : list value :=
  match st with
  | [] => []
  | (c', l) :: t => if String.eqb c c' then l else docs t c
  end.

Fixpoint set_docs (c : string) (l : list value) (st : store) : store :=
  match st with
  | [] => [(c, l)]
  | (c', l') :: t =>
      if String.eqb c c' then (c, l) :: t else (c', l') :: set_docs c l t
  end.

(** The query [{ _id: q }]: the document's [_id] has the type and the
    value of [q]. *)
Definition bson_id_eq (a q : value) : bool :=
  match a, q with
  | VId x, VId y => String.eqb x y
  | VStr x, VStr y => String.eqb x y
  | _, _ => false
  end.

Definition doc_id (d : value) : value := field (own_fields d) "_id".

Definition matches_id (q : value) (d : value) : bool := bson_id_eq (doc_id d) q.

(** [findOne({ _id })] *)
Definition findOne (q : value) (l : list value) : option value :=
  find (matches_id q) l.

(** [deleteOne({ _id })] *)
Fixpoint deleteOne (q : value) (l : list value) : list value :=
  match l with
  | [] => []
  | d :: t => if matches_id q d then t else d :: deleteOne q t
  end.

(** What the driver writes for a value: [undefined] is stored as [null]. *)
Fixpoint bson (v : value) : value :=
  match v with
  | VUndef => VNull
  | VArr l =>
      VArr ((fix each (l : list value) : list value :=
               match l with [] => [] | x :: t => bson x :: each t end) l)
  | VObj o =>
      VObj ((fix each (o : fields) : fields :=
               match o with [] => [] | (k, x) :: t => (k, bson x) :: each t end) o)
  | _ => v
  end.

(** [$set]: every property of [upd] is written into the document. *)
Definition apply_set (upd : fields) (d : value) : value :=
  VObj (fold_left (fun acc kv => assign (fst kv) (bson (snd kv)) acc) upd (own_fields d)).

Fixpoint update_first (p : value -> bool) (f : value -> value) (l : list value)
  : list value :=
  match l with
  | [] => []
  | d :: t => if p d then f d :: t else d :: update_first p f t
  end.

(** [updateOne({ _id }, { $set: upd, $setOnInsert: { _id } }, { upsert: true })] *)
Definition upsert (q : value) (upd : fields) (l : list value) : list value :=
  if existsb (matches_id q) l
  then update_first (matches_id q) (apply_set upd) l
  else l ++ [apply_set upd (VObj [("_id", q)])].

(** The objects repository together with the driver's identifier
    counter. *)
Record db : Type := mkDb { objects : store; next_id : nat }.

(** The accounts repository: the [ldap] collection. *)
Record account : Type := mkAccount {
  acc_sessionID : string;
  acc_username : value;
  acc_role : value;
  acc_data : value
}.

Definition getCurrentUserBySession (accs : list account) (sessionID : string)
  : option account :=
  find (fun a => String.eqb (acc_sessionID a) sessionID) accs.

(** [ldap().updateOne({ sessionID }, { $set: { data } })] *)
Fixpoint set_account_data (sessionID : string) (data : value) (accs : list account)
  : list account :=
  match accs with
  | [] => []
  | a :: t =>
      if String.eqb (acc_sessionID a) sessionID
      then mkAccount (acc_sessionID a) (acc_username a) (acc_role a) (bson data) :: t
      else a :: set_account_data sessionID data t
  end.

(* ================================================================== *)
(** * The resolver *)
(* ================================================================== *)

(** The type guards of [typeguards.ts] and the strategies of
    [resolving-strategies.ts]; a strategy receives [Mongo.resolve]
    (reference, collection, depth) to call back. *)
Definition resolver := value -> string -> value -> option value.

Class Resolving : Type := {
  isDigitalObject : value -> bool;
  isModel : value -> bool;
  isCompilation : value -> bool;
  resolveDigitalObject : resolver -> value -> option value;
  resolveModel : resolver -> value -> option value;
  resolveCompilation : resolver -> value -> option value
}.

(** [findOne({ $or: [ { _id }, { _id: _id.toString() } ] })]; [null]
    when no document matches. *)
Definition findOne_or (h : string) (l : list value) : value :=
  match find (fun d => matches_id (VId h) d || matches_id (VStr h) d) l with
  | Some d => d
  | None => VNull
  end.

(** [Mongo.resolve(obj, collection_name, depth)]; [depth] is [VUndef]
    when the argument is omitted.  The result [undefined] is
    [Some VUndef]; [None] only when the recursion through the strategies
    outruns [fuel]. *)
Fixpoint resolve `{ObjectIdDriver} `{Resolving}
  (fuel : nat) (st : store) (obj : value) (collection_name : string) (depth : value)
  : option value :=
  match fuel with
  | O => None
  | S fuel' =>
      if negb (truthy obj) then Some VUndef else
      let parsedId :=
        if truthy (field (own_fields obj) "_id")
        then field (own_fields obj) "_id" else obj in
      if negb (ObjectId_isValid parsedId) then Some VUndef else
      let _id := ObjectId_hex parsedId in
      let resolve_result := findOne_or _id (docs st collection_name) in
      if truthy depth && strict_eq depth (VNum 0) then Some resolve_result else
      let again : resolver := fun o c d => resolve fuel' st o c d in
      if isDigitalObject resolve_result then resolveDigitalObject again resolve_result
      else if isModel resolve_result then resolveModel again resolve_result
      else if isCompilation resolve_result then resolveCompilation again resolve_result
      else Some resolve_result
  end.

Fixpoint mapM {A B : Type} (f : A -> option B) (l : list A) : option (list B) :=
  match l with
  | [] => Some []
  | x :: t =>
      match f x with
      | None => None
      | Some y => match mapM f t with None => None | Some ys => Some (y :: ys) end
      end
  end.

Definition has_field (k : string) (v : value) : bool :=
  negb (is_undefined (field (own_fields v) k)).

(** Modelled from the spec: the type guards of [typeguards.ts], which is
    not among the sources.  A kind is recognised by the presence of a
    required field, not by a type tag: [digobj_title] for a
    DigitalObject, [relatedDigitalObject] for a Model, [models] for a
    Compilation. *)
Definition spec_isDigitalObject (v : value) : bool := has_field "digobj_title" v.
Definition spec_isModel (v : value) : bool := has_field "relatedDigitalObject" v.
Definition spec_isCompilation (v : value) : bool := has_field "models" v.

(** Modelled from the spec: the strategies of [resolving-strategies.ts],
    which is not among the sources.  A DigitalObject is returned as it
    is; a Model has its [relatedDigitalObject] reference expanded through
    the resolver at the default depth; a Compilation has every entry of
    [models] expanded through the resolver, in array order. *)
Definition spec_resolveDigitalObject (_ : resolver) (d : value) : option value :=
  Some d.

Definition spec_resolveModel (again : resolver) (m : value) : option value :=
  match again (field (own_fields m) "relatedDigitalObject") "digitalobject" VUndef with
  | Some d => Some (VObj (assign "relatedDigitalObject" d (own_fields m)))
  | None => None
  end.

Definition spec_resolveCompilation (again : resolver) (c : value) : option value :=
  match field (own_fields c) "models" with
  | VArr ms =>
      match mapM (fun m => again m "model" VUndef) ms with
      | Some ms' => Some (VObj (assign "models" (VArr ms') (own_fields c)))
      | None => None
      end
  | _ => Some c
  end.

#[export] Instance spec_resolving : Resolving := {
  isDigitalObject := spec_isDigitalObject;
  isModel := spec_isModel;
  isCompilation := spec_isCompilation;
  resolveDigitalObject := spec_resolveDigitalObject;
  resolveModel := spec_resolveModel;
  resolveCompilation := spec_resolveCompilation
}.

(* ================================================================== *)
(** * The normalizer *)
(* ================================================================== *)

Definition bind {A B : Type} (m : option A) (f : A -> option B) : option B :=
  match m with Some a => f a | None => None end.

Notation "x <- m ;; k" := (bind m (fun x => k))
  (at level 61, m at next level, right associativity).

Section Normalizer.
Context `{ObjectIdDriver}.

(** The owner under which roles are filed:
    [((currentPhyObjId !== '') ? currentPhyObjId : resultObject._id).toString()]. *)
Variable _digId : string.

(** One round of the loop over [['institution_role', 'person_role']]. *)
Definition add_roles (doRolesExist : bool) (new_roles : value)
  (field_ : fields) (prop_ : string) : option fields :=
  if negb (truthy (field field_ prop_)) then Some field_ else
  let given := if truthy new_roles then new_roles else field field_ prop_ in
  match field field_ "roles" with
  | VObj roles =>
      let merged :=
        if doRolesExist
        then flatten (VArr [field roles _digId; given])
        else flatten (VArr [given]) in
      let roles' := assign _digId (VArr (Set_dedup merged)) roles in
      Some (assign prop_ (VArr []) (assign "roles" (VObj roles') (assign prop_ given field_)))
  | _ => None
  end.

(** The block under [if (isPersonOrInstitution)].  [None]: [roles] is
    [null] or a primitive, whose property cannot be read or written
    (a TypeError), or an array or [ObjectId], which the embedding
    cannot give a named property. *)
Definition merge_roles (new_roles : value) (field_ : fields) : option fields :=
  let doRolesExist := negb (is_undefined (field field_ "roles")) in
  match (if doRolesExist then field field_ "roles" else VObj []) with
  | VObj roles =>
      let entry := if truthy (field roles _digId) then field roles _digId else VArr [] in
      let field1 := assign "roles" (VObj (assign _digId entry roles)) field_ in
      f1 <- add_roles doRolesExist new_roles field1 "institution_role" ;;
      add_roles doRolesExist new_roles f1 "person_role"
  | _ => None
  end.

(** "Make sure there are no null roles".  [None]: the entry is truthy
    and not an array, so it has no [filter]. *)
Definition drop_null_roles (field_ : fields) : option fields :=
  match field field_ "roles" with
  | VObj roles =>
      if truthy (field roles _digId) then
        match field roles _digId with
        | VArr l =>
            Some (assign "roles" (VObj (assign _digId (VArr (filter truthy l)) roles)) field_)
        | _ => None
        end
      else Some field_
  | _ => Some field_
  end.

(** [addAndGetId] after its call of [addNestedInstitution].  A payload
    that is not an object ends in a TypeError or in the store's refusal
    of the update: [None]. *)
Definition addAndGetId_entity (add_to_coll : string) (new_roles : value)
  (in_field : value) (d : db) : option (value * db) :=
  match in_field with
  | VObj field0 =>
      let isPersonOrInstitution :=
        existsb (String.eqb add_to_coll) ["person"; "institution"] in
      let isIdValid := ObjectId_isValid (field field0 "_id") in
      let _id :=
        if isIdValid then ObjectId_new (field field0 "_id")
        else VId (ObjectId_fresh (next_id d)) in
      let next := if isIdValid then next_id d else S (next_id d) in
      let coll := docs (objects d) add_to_coll in
      let field1 :=
        if isIdValid then
          match findOne _id coll with
          | Some findResult => spread (own_fields findResult) field0
          | None => field0
          end
        else field0 in
      field2 <- (if isPersonOrInstitution then merge_roles new_roles field1
                 else Some field1) ;;
      field3 <- drop_null_roles field2 ;;
      let field4 := remove_key "_id" field3 in
      Some (VObj [("_id", _id)],
            mkDb (set_docs add_to_coll (upsert _id field4 coll) (objects d)) next)
  | _ => None
  end.

(** [arr[i]] and [arr[i] = v] on [person_institution_data]. *)
Definition index_get (arr : value) (i : nat) : option value :=
  match arr with
  | VUndef | VNull => None
  | VArr l => Some (nth i l VUndef)
  | VObj o => Some (field o (nat_to_string i))
  | _ => Some VUndef
  end.

Fixpoint list_set (i : nat) (v : value) (l : list value) : list value :=
  match i, l with
  | O, _ :: t => v :: t
  | O, [] => [v]
  | S i', x :: t => x :: list_set i' v t
  | S i', [] => VUndef :: list_set i' v []
  end.

Definition index_set (arr : value) (i : nat) (v : value) : value :=
  match arr with
  | VArr l => VArr (list_set i v l)
  | VObj o => VObj (assign (nat_to_string i) v o)
  | _ => arr
  end.

(** The loop of [addNestedInstitution] from index [i] on, over the
    entries [insts] of [person_institution] still to visit. *)
Fixpoint nested_loop (insts : list value) (i : nat) (person : fields) (d : db)
  : option (fields * db) :=
  match insts with
  | [] => Some (person, d)
  | inst :: rest =>
      v <- prop inst "value" ;;
      if negb (strict_eq v (VStr "add_new_institution"))
      then nested_loop rest (S i) person d
      else
        institution <- index_get (field person "person_institution_data") i ;;
        r <- addAndGetId_entity "institution" VUndef institution d ;;
        let person' :=
          assign "person_institution_data"
            (index_set (field person "person_institution_data") i (fst r)) person in
        nested_loop rest (S i) person' (snd r)
  end.

Definition addNestedInstitution (person : value) (d : db) : option (value * db) :=
  match person with
  | VUndef | VNull => None
  | VObj p =>
      match field p "person_institution" with
      | VArr insts =>
          r <- nested_loop insts 0 p d ;;
          Some (VObj (fst r), snd r)
      | _ => Some (person, d)
      end
  | _ => Some (person, d)
  end.

(** [addAndGetId(in_field, add_to_coll, new_roles)]: the reference of
    the persisted entity and the store after the upsert. *)
Definition addAndGetId (in_field : value) (add_to_coll : string) (new_roles : value)
  (d : db) : option (value * db) :=
  if String.eqb add_to_coll "person" then
    r <- addNestedInstitution in_field d ;;
    addAndGetId_entity add_to_coll new_roles (fst r) (snd r)
  else addAndGetId_entity add_to_coll new_roles in_field d.

(** [filterObjectsWithoutID] *)
Definition filterObjectsWithoutID (obj : value) : option bool :=
  i <- prop obj "_id" ;; Some (ObjectId_isValid i).

Fixpoint filterM (p : value -> option bool) (l : list value) : option (list value) :=
  match l with
  | [] => Some []
  | x :: t =>
      b <- p x ;;
      r <- filterM p t ;;
      Some (if b then x :: r else r)
  end.

(** [new ObjectId(v)] where the identifiers built are compared with one
    another: the hexadecimal string of the identifier, and the number of
    identifiers the process has generated after the call.  From a number
    the driver generates a new identifier at every call. *)
Definition ObjectId_construct (v : value) (generated : nat) : string * nat :=
  match v with
  | VNum t => (ObjectId_generate t generated, S generated)
  | _ => (ObjectId_hex v, generated)
  end.

(** The loop of [concatFix] that builds [final]. *)
Fixpoint concatFix_loop (final result : list value) (generated : nat)
  : list value * nat :=
  match result with
  | [] => (final, generated)
  | res :: rest =>
      let (h, generated') := ObjectId_construct (doc_id res) generated in
      let obj := VObj [("_id", VId h)] in
      let filtered :=
        filter (fun _obj => String.eqb (toString (doc_id _obj)) (toString (doc_id obj)))
               final in
      concatFix_loop (if (List.length filtered =? 0)%nat then final ++ [obj] else final)
                     rest generated'
  end.

(** [concatFix(...arr)], with the number of identifiers the process has
    generated before and after the call; [None] is the TypeError of
    reading [_id] off an [undefined] or [null] entry. *)
Definition concatFix (arr : list value) (generated : nat)
  : option (list value * nat) :=
  let result := fold_left js_concat (tl arr) (js_concat [] (nth 0 arr VUndef)) in
  result' <- filterM filterObjectsWithoutID result ;;
  Some (concatFix_loop [] result' generated).

End Normalizer.

(* ================================================================== *)
(** * Ownership and access *)
(* ================================================================== *)

(** What the handlers read of an Express request. *)
Record request : Type := mkRequest {
  sessionID : string;
  params_collection : string;
  params_identifier : string;
  params_password : option string;
  body_username : value;
  body_filter : value
}.

(** A handler either sends a response or is left by an exception. *)
Inductive outcome : Type :=
| Sent (response : value)
| Threw.

Definition status_ok : fields := [("status", VStr "ok")].

Definition status_error : fields := [("status", VStr "error")].

Definition error_message (m : string) : value :=
  VObj [("status", VStr "error"); ("message", VStr m)].

Definition password_protected_marker : value :=
  VObj [("status", VStr "ok"); ("message", VStr "Password protected compilation")].

Fixpoint chars (s : string) : list string :=
  match s with
  | EmptyString => []
  | String c t => String c EmptyString :: chars t
  end.

Fixpoint concat_mapM {A : Type} (f : A -> option (list string)) (l : list A)
  : option (list string) :=
  match l with
  | [] => Some []
  | x :: t =>
      match f x with
      | None => None
      | Some a =>
          match concat_mapM f t with
          | None => None
          | Some b => Some (a ++ b)
          end
      end
  end.

Section Access.
Context `{ObjectIdDriver} `{Resolving}.

(** [(valid) ? new ObjectId(identifier) : identifier] *)
Definition parse_identifier (identifier : value) : value :=
  if ObjectId_isValid identifier then ObjectId_new identifier else identifier.

(** [insertCurrentUserData(request, identifier, collection)]: the
    returned flag and the accounts afterwards.  [None]: the account's
    [data] is not an object, or [data[collection]] is truthy and not
    an array. *)
Definition insertCurrentUserData (accs : list account) (sid : string)
  (identifier : value) (collection : string) : option (bool * list account) :=
  let userData := getCurrentUserBySession accs sid in
  if negb (ObjectId_isValid identifier) then Some (false, accs) else
  match userData with
  | None => Some (false, accs)
  | Some userData =>
      match acc_data userData with
      | VObj data =>
          let current :=
            if truthy (field data collection) then field data collection else VArr [] in
          match current with
          | VArr l =>
              let doesExist :=
                existsb (fun obj => String.eqb (toString obj) (toString identifier))
                        (filter truthy l) in
              if doesExist then Some (true, accs)
              else
                let data' := assign collection (VArr (l ++ [ObjectId_new identifier])) data in
                Some (true, set_account_data sid (VObj data') accs)
          | _ => None
          end
      | _ => None
      end
  end.

(** [isUserOwnerOfObject(request, identifier)]; [None] is the
    TypeError of [indexOf] on the [undefined] that [JSON.stringify]
    returns for an account without [data]. *)
Definition isUserOwnerOfObject (accs : list account) (sid : string) (identifier : value)
  : option bool :=
  let _id := parse_identifier identifier in
  let userData := getCurrentUserBySession accs sid in
  text <- JSON_stringify (match userData with
                          | Some u => acc_data u
                          | None => VStr EmptyString
                          end) ;;
  Some (includes text (toString _id)).

(** [_pw && _pw.length > 0]; a [length] that is a string is not
    converted to a number. *)
Definition isPasswordProtected (_pw : value) : bool :=
  truthy _pw && match js_length _pw with
                | VNum n => (0 <? n)%Z
                | VBool b => b
                | _ => false
                end.

(** [_pw && _pw === password] *)
Definition isPasswordCorrect (_pw : value) (password : string) : bool :=
  truthy _pw && strict_eq _pw (VStr password).

(** [getObjectFromCollection(request, response)]: the response sent. *)
Definition getObjectFromCollection (fuel : nat) (st : store) (accs : list account)
  (req : request) : option value :=
  let RequestCollection := toLowerCase (params_collection req) in
  let _id := parse_identifier (VStr (params_identifier req)) in
  let password :=
    match params_password req with Some p => p | None => EmptyString end in
  object <- resolve fuel st _id RequestCollection VUndef ;;
  if negb (truthy object) then
    Some (error_message ("No " ++ RequestCollection ++ " found with given identifier"))
  else if isCompilation object then
    let compilation := object in
    let _pw := field (own_fields compilation) "password" in
    isUserOwner <- isUserOwnerOfObject accs (sessionID req) _id ;;
    if negb (isPasswordProtected _pw) || isUserOwner || isPasswordCorrect _pw password
    then Some (VObj (spread status_ok (own_fields compilation)))
    else Some password_protected_marker
  else Some (VObj (spread status_ok (own_fields object))).

(** The filter of [getAllObjectsFromCollection], which the source
    names [isPasswordProtected]: it keeps a compilation when
    [!password || (password && password.length === 0)]. *)
Definition keeps_compilation (compilation : value) : bool :=
  let password := field (own_fields compilation) "password" in
  negb (truthy password)
  || (truthy password && strict_eq (js_length password) (VNum 0)).

(** [getAllObjectsFromCollection(request, response)]: the list sent. *)
Definition getAllObjectsFromCollection (fuel : nat) (st : store) (req : request)
  : option (list value) :=
  let RequestCollection := toLowerCase (params_collection req) in
  resolved <- mapM (fun d => resolve fuel st d RequestCollection VUndef)
                   (docs st RequestCollection) ;;
  let results := filter truthy resolved in
  if negb (List.length results =? 0)%nat && isCompilation (hd VUndef results)
  then Some (filter keeps_compilation results)
  else Some results.

(** [Object.values(data)] *)
Definition Object_values (v : value) : option (list value) :=
  match v with
  | VUndef | VNull => None
  | VObj o => Some (map snd o)
  | VArr l => Some l
  | VStr s => Some (map VStr (chars s))
  | _ => Some []
  end.

(** [removeObjectFromCollection(request, response)]: the objects
    repository and the accounts afterwards, and how the handler ends.
    [delete_ok] and [update_ok] are what the store reports of the
    [deleteOne] and of the [updateOne], whether [result.ok === 1]; an
    operation it does not so report is taken to have written nothing. *)
Definition removeObjectFromCollection (st : store) (accs : list account) (req : request)
  (delete_ok update_ok : bool) : store * list account * outcome :=
  let RequestCollection := toLowerCase (params_collection req) in
  let identifier := parse_identifier (VStr (params_identifier req)) in
  let mismatch :=
    Sent (error_message "Input username does not match username with current sessionID") in
  match getCurrentUserBySession accs (sessionID req) with
  | None => (st, accs, mismatch)
  | Some find_result =>
      if negb (truthy (acc_username find_result))
         || negb (truthy (body_username req))
         || negb (strict_eq (body_username req) (acc_username find_result))
      then (st, accs, mismatch)
      else
        match Object_values (acc_data find_result) with
        | None => (st, accs, Threw)
        | Some values =>
            let flat := fold_left js_concat values [] in
            if existsb nullish flat then (st, accs, Threw) else
            let UserRelatedObjects := map toString flat in
            let found :=
              find (fun obj => String.eqb obj (toString identifier)) UserRelatedObjects in
            if negb (match found with Some s => truthy (VStr s) | None => false end) then
              (st, accs,
               Sent (error_message
                 "Object with identifier does not belong to account with this sessionID"))
            else if negb delete_ok then (st, accs, Sent (VObj status_error))
            else
              let st' :=
                set_docs RequestCollection
                  (deleteOne identifier (docs st RequestCollection)) st in
              match field (own_fields (acc_data find_result)) RequestCollection with
              | VArr ids =>
                  let kept :=
                    filter (fun id => negb (strict_eq id (VStr (toString identifier)))) ids in
                  let data' :=
                    VObj (assign RequestCollection (VArr kept)
                            (own_fields (acc_data find_result))) in
                  if update_ok
                  then (st', set_account_data (sessionID req) data' accs,
                        Sent (VObj status_ok))
                  else (st', accs, Sent (VObj status_error))
              | _ => (st', accs, Threw)
              end
        end
  end.

(** One property value met by [getNestedValues]. *)
Definition nested_prop (walk : value -> option (list string)) (prop_ : value)
  : option (list string) :=
  if truthy prop_ then
    match prop_ with
    | VObj _ | VId _ => walk prop_
    | VArr ps => concat_mapM walk ps
    | VStr s => Some [s]
    | _ => Some []
    end
  else Some [].

(** [getNestedValues(obj)].  [Object.keys] gives a string its indices,
    a number or boolean nothing, and throws on [undefined] and [null]
    ([None]). *)
Fixpoint getNestedValues (obj : value) : option (list string) :=
  match obj with
  | VUndef | VNull => None
  | VBool _ | VNum _ => Some []
  | VStr s => Some (chars s)
  | VId h => Some (ObjectId_strings h)
  | VArr l => concat_mapM (nested_prop getNestedValues) l
  | VObj o => concat_mapM (fun kv => nested_prop getNestedValues (snd kv)) o
  end.

(** The inner loop of [filterResults]: [true] when [obj._id] is pushed. *)
Fixpoint matches_filter (asText : string) (filter_ : list string) : bool :=
  match filter_ with
  | [] => false
  | f :: rest =>
      if negb (includes asText f) then false
      else match rest with
           | [] => true
           | _ => matches_filter asText rest
           end
  end.

Fixpoint filterResults (filter_ : list string) (objs : list value)
  : option (list value) :=
  match objs with
  | [] => Some []
  | obj :: rest =>
      strings <- getNestedValues obj ;;
      let asText := toLowerCase (join EmptyString strings) in
      result <- filterResults filter_ rest ;;
      Some (if matches_filter asText filter_ then doc_id obj :: result else result)
  end.

(** [request.body.filter ? request.body.filter.map(_ => _.toLowerCase()) : ['']] *)
Definition read_filter (f : value) : option (list string) :=
  if truthy f then
    match f with
    | VArr l => mapM (fun v => match v with
                               | VStr s => Some (toLowerCase s)
                               | _ => None
                               end) l
    | _ => None
    end
  else Some [EmptyString].

(** The [model] case of the switch: which models are searched, and
    what is done to each.  [None] from [expand_model]: the resolver ran
    out of fuel, or [settings] is no object to write [preview] on. *)
Definition searchable_model (model : value) : bool :=
  truthy model
  && truthy (field (own_fields model) "finished")
  && truthy (field (own_fields model) "online")
  && truthy (field (own_fields model) "relatedDigitalObject")
  && truthy (field (own_fields (field (own_fields model) "relatedDigitalObject")) "_id").

Definition expand_model (fuel : nat) (st : store) (obj : value) : option value :=
  let related := field (own_fields obj) "relatedDigitalObject" in
  if truthy (field (own_fields related) "_id") then
    tempDigObj <- resolve fuel st related "digitalobject" VUndef ;;
    digObj <- resolve fuel st tempDigObj "digitalobject" VUndef ;;
    match field (own_fields obj) "settings" with
    | VObj settings =>
        Some (VObj (assign "settings" (VObj (assign "preview" (VStr EmptyString) settings))
                      (assign "relatedDigitalObject" digObj (own_fields obj))))
    | _ => None
    end
  else Some obj.

(** [searchObjectWithFilter(request, response)]: the array sent. *)
Definition searchObjectWithFilter (fuel : nat) (st : store) (req : request)
  : option (list value) :=
  let RequestCollection := toLowerCase (params_collection req) in
  filter_ <- read_filter (body_filter req) ;;
  let allObjects := docs st RequestCollection in
  if String.eqb RequestCollection "digitalobject" then
    _ <- mapM (fun digObj => resolve fuel st digObj "digitalobject" VUndef) allObjects ;;
    filterResults filter_ allObjects
  else if String.eqb RequestCollection "model" then
    models <- mapM (expand_model fuel st) (filter searchable_model allObjects) ;;
    filterResults filter_ models
  else filterResults filter_ allObjects.

End Access.

(* ================================================================== *)
(** * Vocabulary of the statements *)
(* ================================================================== *)

(** An object has every property once. *)
Definition wf_object (v : value) : Prop := NoDup (map fst (own_fields v)).

Definition wf_store (st : store) : Prop :=
  forall c d, In d (docs st c) -> wf_object d.

(** No two entries are the same value for a [Set]. *)
Fixpoint dup_free (l : list value) : bool :=
  match l with
  | [] => true
  | x :: t => negb (existsb (same_value_zero x) t) && dup_free t
  end.

Definition is_primitive (v : value) : bool :=
  match v with
  | VId _ | VArr _ | VObj _ => false
  | _ => true
  end.

(** A bare reference [{ _id }]. *)
Definition reference (h : string) : value := VObj [("_id", VId h)].

(** Numbers, from which the driver generates identifiers of its own. *)
Definition numbered (v : value) : bool :=
  match v with
  | VNum _ => true
  | _ => false
  end.

(** The first occurrence of every string, in order. *)
Fixpoint first_occurrences (seen l : list string) : list string :=
  match l with
  | [] => []
  | x :: t =>
      if existsb (String.eqb x) seen then first_occurrences seen t
      else x :: first_occurrences (x :: seen) t
  end.

(** The reconciliation in the words of the specification: the
    concatenation of the arrays, entries without a valid identifier
    dropped, deduplicated by identifier, first occurrences in order. *)
Definition reconciled `{ObjectIdDriver} (arrays : list (list value)) : list value :=
  map reference
    (first_occurrences []
       (map (fun e => ObjectId_hex (doc_id e))
            (filter (fun e => ObjectId_isValid (doc_id e)) (concat arrays)))).

(** The keys the normalizer itself writes on a payload. *)
Definition normalizer_keys : list string :=
  ["_id"; "roles"; "institution_role"; "person_role"; "person_institution_data"].

(** Shallow merge with the incoming fields winning, property by
    property: what the merged payload has under [k], if anything. *)
Definition merged (stored incoming : fields) (k : string) : option value :=
  match lookup k incoming with
  | Some v => Some v
  | None => lookup k stored
  end.

(** What reading a stored document gives for a property written from
    [o]: nothing was written for [None]. *)
Definition written (o : option value) : value :=
  match o with
  | Some v => bson v
  | None => VUndef
  end.

(** The payload [addAndGetId] works on after its [findOne]: merged over
    the stored entity when the payload's identifier is valid and an
    entity is stored under it. *)
Definition merged_payload `{ObjectIdDriver} (d : db) (add_to_coll : string)
  (payload : fields) : fields :=
  if ObjectId_isValid (field payload "_id") then
    match findOne (ObjectId_new (field payload "_id")) (docs (objects d) add_to_coll) with
    | Some findResult => spread (own_fields findResult) payload
    | None => payload
    end
  else payload.

(** A role map the normalizer can extend for the owner [_digId]: absent,
    or an object whose entry for the owner is absent or an array. *)
Definition roles_ok (_digId : string) (v : value) : Prop :=
  v = VUndef
  \/ exists roles, v = VObj roles
                   /\ (field roles _digId = VUndef
                       \/ exists l, field roles _digId = VArr l).

(** The owner's entry of the payload's role map is an array. *)
Definition entry_array (_digId : string) (f : fields) : Prop :=
  exists roles l, field f "roles" = VObj roles /\ field roles _digId = VArr l.

(** The owner's entry of the payload's role map is truthy; is an array
    without duplicates. *)
Definition entry_truthy (_digId : string) (f : fields) : Prop :=
  exists roles, lookup "roles" f = Some (VObj roles)
                /\ truthy (field roles _digId) = true.

Definition entry_deduped (_digId : string) (f : fields) : Prop :=
  exists roles l, lookup "roles" f = Some (VObj roles)
                  /\ field roles _digId = VArr l
                  /\ dup_free l = true.

(** The normalization appends roles when the merged payload carries a
    truthy role field. *)
Definition appends_roles (merged_ : fields) : bool :=
  truthy (field merged_ "institution_role") || truthy (field merged_ "person_role").

(** The owner's entry after roles are submitted for a stored entity:
    the roles stored for the owner, if the entity has a role map, and
    the roles given, flattened, every role once at its first occurrence,
    without falsy entries. *)
Definition accumulated (owner : string) (stored : option fields) (given : value)
  : list value :=
  filter truthy
    (Set_dedup
       (match stored with
        | Some roles =>
            flatten (VArr [if truthy (field roles owner) then field roles owner
                           else VArr [];
                           given])
        | None => flatten (VArr [given])
        end)).

(** The response that carries a document: [{ status: 'ok', ...doc }]. *)
Definition full_body (doc : value) : value := VObj (spread status_ok (own_fields doc)).


(** Structural membership of an identifier in an account's [data] map. *)
Definition listed_in (data : fields) (h : string) : Prop :=
  exists c l, In (c, VArr l) data /\ In (VId h) l.

(** What [isUserOwnerOfObject] searches and what it searches for. *)
Definition searched_text (u : option account) : option string :=
  JSON_stringify (match u with Some a => acc_data a | None => VStr EmptyString end).

Definition searched_for `{ObjectIdDriver} (identifier : value) : string :=
  toString (parse_identifier identifier).








(* ================================================================== *)
(** * Concrete repositories for the examples *)
(* ================================================================== *)

Module Example.

Definition idA : string := "5c9b5b1f8f1c4a2e3d6f7a01".
Definition idB : string := "5c9b5b1f8f1c4a2e3d6f7a02".

Definition owner1 : string := "5c9b5b1f8f1c4a2e3d6f7b01".
Definition owner2 : string := "5c9b5b1f8f1c4a2e3d6f7b02".

(** A Model that references a DigitalObject, as [submitService]
    stores the pair. *)
Definition digobj : value :=
  VObj [("_id", VId idB); ("digobj_type", VStr "model");
        ("digobj_title", VStr "Amphora");
        ("digobj_description", VStr "Attic red-figure vessel");
        ("digobj_licence", VStr "BY"); ("digobj_tags", VArr []);
        ("digobj_person", VArr []); ("phyObjs", VArr [])].

Definition model_fields (name : string) (finished : bool) : fields :=
  [("annotationList", VArr []);
   ("relatedDigitalObject", VObj [("_id", VId idB)]);
   ("name", VStr name); ("ranking", VNum 0); ("files", VArr []);
   ("finished", VBool finished); ("online", VBool true);
   ("mediaType", VStr "model");
   ("dataSource", VObj [("isExternal", VBool true); ("service", VStr "europeana")]);
   ("settings", VObj [("preview", VStr "/previews/noimage.png")])].

Definition model : value :=
  VObj (("_id", VId idA) :: model_fields "Amphora scan" true).

Definition repository : store :=
  [("model", [model]); ("digitalobject", [digobj])].

Definition empty_db : db := mkDb [] 0.

Definition alice : account :=
  mkAccount "session-1" (VStr "alice") (VStr "S") (VObj []).

Definition request_for (sid coll ident : string) (pw : option string)
  (user filt : value) : request :=
  mkRequest sid coll ident pw user filt.

(** The compilation collection: a document that lacks the fields of a
    Compilation, then a Compilation protected by a password. *)
Definition draft : value :=
  VObj [("_id", VId idA); ("name", VStr "draft")].

Definition protected : value :=
  VObj [("_id", VId idB); ("name", VStr "Vases");
        ("description", VStr "Greek vases"); ("models", VArr []);
        ("annotationList", VArr []);
        ("relatedOwner", VObj [("username", VStr "bob"); ("fullname", VStr "Bob")]);
        ("password", VStr "secret")].

Definition compilations : store := [("compilation", [draft; protected])].

Definition protected_only : store := [("compilation", [protected])].



(** A tag collection with one stored tag, and a payload that refers to
    it by its identifier. *)
Definition tag_db : db :=
  mkDb [("tag", [VObj [("_id", VId idA); ("label", VStr "vase"); ("lang", VStr "en")]])] 0.

Definition tag_payload : fields := [("_id", VStr idA); ("label", VStr "Vase")].

Definition tag_db_after : db :=
  mkDb [("tag", [VObj [("_id", VId idA); ("label", VStr "Vase"); ("lang", VStr "en")]])] 0.

(** Ada is submitted without an identifier with role A for owner 1,
    then by reference with role B for owner 2. *)
Definition ada : string := canonical_fresh 0.

Definition ada_new : fields :=
  [("name", VStr "Ada"); ("person_role", VArr [VStr "A"])].

Definition ada_with_role (role : string) : fields :=
  [("_id", VId ada); ("person_role", VArr [VStr role])].

Definition ada_after_first : db :=
  mkDb [("person",
         [VObj [("_id", VId ada); ("name", VStr "Ada"); ("person_role", VArr []);
                ("roles", VObj [(owner1, VArr [VStr "A"])])]])] 1.

Definition ada_after_second : db :=
  mkDb [("person",
         [VObj [("_id", VId ada); ("name", VStr "Ada"); ("person_role", VArr []);
                ("roles", VObj [(owner1, VArr [VStr "A"]); (owner2, VArr [VStr "B"])])]])] 1.

(** Ada stored without roles. *)
Definition ada_plain : value := VObj [("_id", VId ada); ("name", VStr "Ada")].

Definition ada_stored : db := mkDb [("person", [ada_plain])] 1.

(** A payload that brings its own role map, with a role written twice. *)
Definition ada_with_roles : fields :=
  [("name", VStr "Ada"); ("roles", VObj [(owner1, VArr [VStr "A"; VStr "A"])])].

Definition ada_with_roles_stored : db :=
  mkDb [("person",
         [VObj [("_id", VId ada); ("name", VStr "Ada");
                ("roles", VObj [(owner1, VArr [VStr "A"; VStr "A"])])]])] 1.

Definition read_protected (pw : option string) : request :=
  request_for "session-1" "Compilation" idB pw VUndef VUndef.

(** Alice after [insertCurrentUserData] attached the Model to her
    session, and her request to delete it. *)
Definition alice_owning : account :=
  mkAccount "session-1" (VStr "alice") (VStr "S") (VObj [("model", VArr [VId idA])]).

Definition delete_model : request :=
  request_for "session-1" "model" idA None (VStr "alice") VUndef.

Definition repository_after_delete : store :=
  [("model", []); ("digitalobject", [digobj])].



End Example.

(* ================================================================== *)
(** * Submission helpers *)
(* ================================================================== *)

(** [mapTypes] of [submitService]. *)
Definition mapTypes (resType : string) : string :=
  let type := toLowerCase resType in
  if String.eqb type "sound" then "audio"
  else if String.eqb type "picture" then "image"
  else if String.eqb type "3d" then "model"
  else type.

(** The [fixObjectId] middleware: the body it hands on. *)
Definition fixObjectId `{ObjectIdDriver} (body : value) : value :=
  match body with
  | VObj o =>
      if truthy (field o "_id") && ObjectId_isValid (field o "_id")
      then VObj (assign "_id" (ObjectId_new (field o "_id")) o)
      else body
  | _ => body
  end.

Section Pipeline.
Context `{ObjectIdDriver}.
Variable _digId : string.



End Pipeline.

(* ================================================================== *)
(** * Sessions and accounts *)
(* ================================================================== *)

(** The query [{ k: s }] for a string [s], on the value a document has
    under [k]: the string itself, or an array that holds it. *)
Definition mongo_eq_string (v : value) (s : string) : bool :=
  match v with
  | VStr x => String.eqb x s
  | VArr l => existsb (strict_eq (VStr s)) l
  | _ => false
  end.

Definition getUserByUsername (accs : list account) (username : string) : option account :=
  find (fun a => mongo_eq_string (acc_username a) username) accs.

(** The [role] that [updateSessionId] and [addToAccounts] write, from the
    role stored and the directory's person status. *)
Definition login_role (stored status : value) : value :=
  if truthy stored
  then (if strict_eq stored (VStr EmptyString) then status else stored)
  else status.

(** [ldap().updateOne({ username }, { $set: { sessionID, ..., role } })];
    [updateSessionId] sets [username] too. *)
Fixpoint update_login (username sid : string) (set_username : bool) (status : value)
  (accs : list account) : list account :=
  match accs with
  | [] => []
  | a :: t =>
      if mongo_eq_string (acc_username a) username
      then mkAccount sid (if set_username then VStr username else acc_username a)
             (bson (login_role (acc_role a) status)) (acc_data a) :: t
      else a :: update_login username sid set_username status t
  end.

(** [updateSessionId]: the accounts afterwards; the profile fields copied
    from the directory entry lie outside the record [account]. *)
Definition updateSessionId (accs : list account) (sid : string) (body_username_ : string)
  (status : value) : list account :=
  update_login (toLowerCase body_username_) sid true status accs.

(** [addToAccounts]: the accounts afterwards. *)
Definition addToAccounts (accs : list account) (sid : string) (body_username_ : string)
  (status : value) : list account :=
  let username := toLowerCase body_username_ in
  match getUserByUsername accs username with
  | None => accs ++ [mkAccount sid (VStr username) (bson status) (VObj [])]
  | Some _ => update_login username sid false status accs
  end.

(** [invalidateSession]: [updateMany({ sessionID }, { $set: { sessionID: '' } })]. *)
Definition invalidateSession (accs : list account) (sid : string) : list account :=
  map (fun a =>
         if String.eqb (acc_sessionID a) sid
         then mkAccount EmptyString (acc_username a) (acc_role a) (acc_data a)
         else a) accs.

(** [isUserAdmin(request)] *)
Definition isUserAdmin (accs : list account) (sid : string) : bool :=
  match getCurrentUserBySession accs sid with
  | Some userData => strict_eq (acc_role userData) (VStr "A")
  | None => false
  end.

(** [validateLoginSession]: the session id it puts on the request, and
    whether it calls [next()]. *)
Definition validateLoginSession (accs : list account) (cookie : option string)
  (sid : string) : string * bool :=
  let sessionID :=
    match cookie with
    | Some c => if truthy (VStr c) then String.substring 2 36 c else sid
    | None => sid
    end in
  (sessionID,
   match getCurrentUserBySession accs sessionID with Some _ => true | None => false end).

(** The part of an Account document that the record [account] holds. *)
Definition account_doc (a : account) : fields :=
  [("username", acc_username a); ("sessionID", VStr (acc_sessionID a));
   ("role", acc_role a); ("data", acc_data a)].

Section OwnedData.
Context `{ObjectIdDriver} `{Resolving}.

(** [Utility.findAllModelOwners], from a file that is not among the
    sources. *)
Variable findAllModelOwners : value -> value.

(** One round of the loop of [getCurrentUserData] over the properties of
    [data]: the references are resolved, what does not resolve is
    dropped.  [None]: the property is no array, or the resolver ran out
    of fuel. *)
Definition resolve_owned (fuel : nat) (st : store) (property : string) (v : value)
  : option value :=
  match v with
  | VArr l =>
      resolved <- mapM (fun obj => resolve fuel st obj property VUndef) l ;;
      Some (VArr (filter truthy resolved))
  | _ => None
  end.

Fixpoint resolve_all_owned (fuel : nat) (st : store) (data : fields) : option fields :=
  match data with
  | [] => Some []
  | (property, v) :: t =>
      v' <- resolve_owned fuel st property v ;;
      t' <- resolve_all_owned fuel st t ;;
      Some ((property, v') :: t')
  end.

(** [model['relatedModelOwners'] = await Utility.findAllModelOwners(model['_id'])];
    [None]: the resolved model is no object to write the property on. *)
Definition add_model_owners (model : value) : option value :=
  if negb (truthy model) then Some model else
  match model with
  | VObj o => Some (VObj (assign "relatedModelOwners" (findAllModelOwners (field o "_id")) o))
  | _ => None
  end.

Definition user_not_found : value :=
  error_message "User not found by sessionID. Try relogging".

(** [getCurrentUserData(request, response)].  [None]: [data] is truthy
    and no object, or one of the steps above gave [None]. *)
Definition getCurrentUserData (fuel : nat) (st : store) (accs : list account)
  (sid : string) : option value :=
  match getCurrentUserBySession accs sid with
  | None => Some user_not_found
  | Some userData =>
      if negb (truthy (acc_data userData)) then Some user_not_found else
      match acc_data userData with
      | VObj data =>
          data1 <- resolve_all_owned fuel st data ;;
          data2 <- (if truthy (field data1 "model")
                       && match js_length (field data1 "model") with
                          | VNum n => (0 <? n)%Z
                          | _ => false
                          end
                    then match field data1 "model" with
                         | VArr models =>
                             models' <- mapM add_model_owners models ;;
                             Some (assign "model" (VArr models') data1)
                         | _ => None
                         end
                    else Some data1) ;;
          Some (VObj (spread status_ok
                        (account_doc (mkAccount (acc_sessionID userData)
                                        (acc_username userData) (acc_role userData)
                                        (VObj data2)))))
      | _ => None
      end
  end.

End OwnedData.

Section ModelSettings.
Context `{ObjectIdDriver}.

(** [saveBase64toImage(base64input, subfolder, identifier)]: it writes
    the image file; only the address it returns matters here, the empty
    string when an exception was caught on the way. *)
Variable saveBase64toImage : value -> string -> string -> string.

(** [updateModelSettings(request, response)] on a body that is an
    object: the store afterwards and the response. *)
Definition updateModelSettings (st : store) (identifier_ : string) (body : fields)
  : store * value :=
  let preview := field body "preview" in
  let identifier := parse_identifier (VStr identifier_) in
  let finalImagePath := saveBase64toImage preview "model" (toString identifier) in
  if String.eqb finalImagePath EmptyString then
    (st, error_message "Failed saving preview image")
  else
    let settings := VObj (assign "preview" (VStr finalImagePath) body) in
    (set_docs "model"
       (update_first (matches_id identifier) (apply_set [("settings", settings)])
          (docs st "model")) st,
     VObj [("status", VStr "ok"); ("settings", settings)]).

End ModelSettings.

(* ================================================================== *)
(** * The mailer *)
(* ================================================================== *)

(** What [sendMail] reads of a request's body, the [target] being a
    string. *)
Record mail : Type := mkMail {
  mail_target : string;
  mail_subject : value;
  mail_mailbody : value
}.

(** [v.toString()]: a TypeError on [undefined] and [null]. *)
Definition call_toString (v : value) : option string :=
  if nullish v then None else Some (toString v).

(** The mailer reads the [_id] of an account, so the accounts repository
    is taken here as the store of its documents: the collection [ldap]
    and one collection for every target.  [ldap.findOne({ sessionID })],
    [null] when no account matches. *)
Definition ldap_findOne (AccDb : store) (sid : string) : value :=
  match find (fun d => mongo_eq_string (field (own_fields d) "sessionID") sid)
             (docs AccDb "ldap") with
  | Some d => d
  | None => VNull
  end.

(** [entry.user._id.toString() === user._id.toString()] *)
Definition same_user (user entry : value) : option bool :=
  entry_user <- prop entry "user" ;;
  entry_id <- prop entry_user "_id" ;;
  a <- call_toString entry_id ;;
  user_id <- prop user "_id" ;;
  b <- call_toString user_id ;;
  Some (String.eqb a b).

(** [countUserMails(request, destination)]; [None] is the TypeError of
    the comparison. *)
Definition countUserMails (AccDb : store) (sid : string) (destination : string)
  : option nat :=
  let user := ldap_findOne AccDb sid in
  entries <- filterM (same_user user) (docs AccDb destination) ;;
  Some (List.length entries).

Section Mailer.
Context `{ObjectIdDriver}.

(** [Configuration.Mailer.Target]: the address of every target.  The
    names an object inherits ([constructor], [toString], ...) are not
    in it. *)
Variable Target : fields.

(** [addUserToDatabase(request, mailSent)], with the time [now] of the
    call as [new Date().toISOString()] gives it. *)
Definition addUserToDatabase (AccDb : db) (sid : string) (m : mail) (mailSent : bool)
  (now : string) : db :=
  let target := mail_target m in
  if negb (existsb (String.eqb target) (map fst Target)) then AccDb else
  let user := ldap_findOne (objects AccDb) sid in
  let document :=
    VObj [("target", VStr target);
          ("content", VObj [("mailbody", mail_mailbody m); ("subject", mail_subject m)]);
          ("timestamp", VStr now);
          ("user", user);
          ("answered", VBool false);
          ("mailSent", VBool mailSent);
          ("_id", VId (ObjectId_fresh (next_id AccDb)))] in
  mkDb (set_docs target (docs (objects AccDb) target ++ [bson document]) (objects AccDb))
       (S (next_id AccDb)).

(** [sendMail(request, response)]: the accounts repository once the
    handler's work is done, and how the handler ends.  [body] is [None]
    for a request without body; [delivered] tells whether the
    transporter's [sendMail] resolves. *)
Definition sendMail (AccDb : db) (sid : string) (body : option mail) (delivered : bool)
  (now : string) : db * outcome :=
  match body with
  | None => (AccDb, Sent (VObj [("status", VStr "error")]))
  | Some m =>
      if negb (truthy (field Target (mail_target m))) then
        (AccDb, Sent (VObj [("status", VStr "error")]))
      else
        match countUserMails (objects AccDb) sid (mail_target m) with
        | None => (AccDb, Threw)
        | Some MailCount =>
            if negb (String.eqb (mail_target m) "bugreport") && negb (MailCount <? 3)%nat
            then (AccDb, Sent (error_message "Limit for this category reached"))
            else if delivered then
              (addUserToDatabase AccDb sid m true now,
               Sent (VObj [("status", VStr "ok"); ("message", VStr "Mail has been sent")]))
            else
              (addUserToDatabase AccDb sid m false now,
               Sent (error_message "Failed sending mail"))
        end
  end.

End Mailer.

(* ================================================================== *)
(** * Local registration *)
(* ================================================================== *)

(** The query [{ username: q }] for a string [q], and for the
    [undefined] or [null] that matches a document without [username];
    [None]: another kind of query. *)
Definition username_query (q : value) : option (value -> bool) :=
  match q with
  | VStr s => Some (fun d => mongo_eq_string (field (own_fields d) "username") s)
  | VUndef | VNull =>
      Some (fun d => match field (own_fields d) "username" with
                     | VUndef | VNull => true
                     | VArr l => existsb nullish l
                     | _ => false
                     end)
  | _ => None
  end.

(** Equality of stored values, as the store compares the [_id] of
    documents. *)
Fixpoint bson_eq (a b : value) : bool :=
  match a, b with
  | VUndef, VUndef | VNull, VNull => true
  | VBool x, VBool y => Bool.eqb x y
  | VNum x, VNum y => Z.eqb x y
  | VStr x, VStr y => String.eqb x y
  | VId x, VId y => String.eqb x y
  | VArr l, VArr m =>
      (fix each (l m : list value) : bool :=
         match l, m with
         | [], [] => true
         | x :: t, y :: u => bson_eq x y && each t u
         | _, _ => false
         end) l m
  | VObj o, VObj p =>
      (fix each (o p : fields) : bool :=
         match o, p with
         | [], [] => true
         | (k, x) :: t, (k', y) :: u => String.eqb k k' && bson_eq x y && each t u
         | _, _ => false
         end) o p
  | _, _ => false
  end.

(** [isUser(obj)] of [registerUser]. *)
Definition isUser (obj : fields) : bool :=
  forallb (fun k => negb (is_undefined (field obj k)))
          ["fullname"; "prename"; "surname"; "mail"; "username"; "password"].

Section Registration.
Context `{ObjectIdDriver}.

(** [EUserRank.admin] and [EUserRank.user], from a file that is not among
    the sources. *)
Variable EUserRank_admin EUserRank_user : value.

(** [createHmac('sha512', salt).update(password).digest('hex')] *)
Variable hmac_sha512 : string -> string -> string.

(** [sha512(password, salt)] *)
Definition sha512 (password salt : string) : value :=
  VObj [("salt", VStr salt); ("passwordHash", VStr (hmac_sha512 salt password))].

(** What [insertOne(doc)] stores: the driver gives a document whose
    [_id] is [undefined] or [null] a new identifier; the second
    component is the number of identifiers generated afterwards. *)
Definition with_id (doc : fields) (generated : nat) : fields * nat :=
  if nullish (field doc "_id")
  then (assign "_id" (VId (ObjectId_fresh generated)) doc, S generated)
  else (doc, generated).

(** The store refuses a document whose [_id] is an array, or is the
    [_id] of a document of the collection. *)
Definition refused_key (doc : fields) (l : list value) : bool :=
  match field doc "_id" with
  | VArr _ => true
  | i => existsb (fun d => bson_eq (doc_id d) (bson i)) l
  end.

(** [registerUser(request, response)] on a body that is an object, with
    the salt that [generateSalt] draws: the accounts repository
    afterwards and the response.  Identifiers of new documents come from
    the repository's counter.  [insert_ok] is whether the store, for its
    part, carries out the [insertOne]; it also rejects it for the key
    ([refused_key]), and a rejected [insertOne] is answered after the
    password entry has been written.  [None]: the query for the username
    is of another kind, or a complete body has a [username] or
    [password] that is no string. *)
Definition registerUser (AccDb : db) (body : fields) (salt : string) (insert_ok : bool)
  : option (db * value) :=
  let coll := docs (objects AccDb) "users" in
  let passwords := docs (objects AccDb) "passwords" in
  let isFirstUser := match coll with [] => true | _ => false end in
  let role := if isFirstUser then EUserRank_admin else EUserRank_user in
  let adjustedUser := assign "data" (VObj []) (assign "role" role body) in
  q <- username_query (field body "username") ;;
  if existsb q coll then Some (AccDb, error_message "User already exists") else
  if isUser adjustedUser then
    match field body "username", field body "password" with
    | VStr username, VStr password =>
        let adjusted := remove_key "password" adjustedUser in
        let by_name := fun d => mongo_eq_string (field (own_fields d) "username") username in
        let upd := [("username", VStr username); ("password", sha512 password salt)] in
        let known := existsb by_name passwords in
        let passwords' :=
          if known then update_first by_name (apply_set upd) passwords
          else passwords ++
               [apply_set upd (VObj [("_id", VId (ObjectId_fresh (next_id AccDb)));
                                     ("username", VStr username)])] in
        let next := if known then next_id AccDb else S (next_id AccDb) in
        let st1 := set_docs "passwords" passwords' (objects AccDb) in
        let inserted := with_id adjusted next in
        if insert_ok && negb (refused_key (fst inserted) (docs st1 "users")) then
          Some (mkDb (set_docs "users" (docs st1 "users" ++ [bson (VObj (fst inserted))]) st1)
                     (snd inserted),
                VObj [("status", VStr "ok"); ("message", VStr "Registered")])
        else
          Some (mkDb st1 (snd inserted), error_message "Failed inserting user")
    | _, _ => None
    end
  else Some (AccDb, error_message "Incomplete user data").

(** [verifyUser(username, password)]; [None] is a TypeError: the
    password entry has no [password], or its [salt] is no string. *)
Definition verifyUser (AccDb : store) (username password : string) : option bool :=
  let by_name := fun d => mongo_eq_string (field (own_fields d) "username") username in
  match find by_name (docs AccDb "users") with
  | None => Some false
  | Some _ =>
      match find by_name (docs AccDb "passwords") with
      | None => Some false
      | Some pwOfUser =>
          pw <- prop pwOfUser "password" ;;
          salt <- prop pw "salt" ;;
          hash <- prop pw "passwordHash" ;;
          match salt with
          | VStr salt => Some (strict_eq (field (own_fields (sha512 password salt)) "passwordHash") hash)
          | _ => None
          end
      end
  end.

End Registration.

(* ================================================================== *)
(** * Vocabulary of the further statements *)
(* ================================================================== *)

(** An account's [data] as the program writes it: under every collection
    name an array of [ObjectId]s, given by their hexadecimal strings. *)
Definition ownership (l : list (string * list string)) : fields :=
  map (fun kv => (fst kv, VArr (map VId (snd kv)))) l.

(** The documents [searchObjectWithFilter] hands to [filterResults] for
    a collection, and the test [filterResults] makes on each with the
    lower-cased filter. *)
Definition searched_objects `{ObjectIdDriver} `{Resolving} (fuel : nat) (st : store)
  (c : string) : option (list value) :=
  if String.eqb c "digitalobject" then
    _ <- mapM (fun digObj => resolve fuel st digObj "digitalobject" VUndef) (docs st c) ;;
    Some (docs st c)
  else if String.eqb c "model" then
    mapM (expand_model fuel st) (filter searchable_model (docs st c))
  else Some (docs st c).

Definition matched `{ObjectIdDriver} (filter_ : list string) (doc : value) : bool :=
  match getNestedValues doc with
  | Some strings => matches_filter (toLowerCase (join EmptyString strings)) filter_
  | None => false
  end.

(** What a step of the normalizer keeps of a role map: the entries of
    the other owners as they are, and every string in the owner's
    entry. *)
Definition keeps_roles (_digId : string) (roles roles_g : fields) : Prop :=
  (forall o, o <> _digId -> lookup o roles_g = lookup o roles)
  /\ (forall l, field roles _digId = VArr l ->
        exists l', field roles_g _digId = VArr l'
                   /\ forall s, In (VStr s) l -> In (VStr s) l').

(* ================================================================== *)
(** * Further concrete data for the examples *)
(* ================================================================== *)

Module Sample.

(** Alice owning two models. *)
Definition alice_owning_two : account :=
  mkAccount "session-1" (VStr "alice") (VStr "S")
    (VObj [("model", VArr [VId Example.idA; VId Example.idB])]).

(** Requests that differ in the search terms only. *)
Definition search_for (coll : string) (filt : value) : request :=
  Example.request_for "session-1" coll EmptyString None VUndef filt.





(** What [getCurrentUserData] answers Alice, nobody else owning her
    model. *)
Definition alice_data_response : value :=
  Eval vm_compute in
    match getCurrentUserData (fun _ => VArr []) 3 Example.repository
            [Example.alice_owning] "session-1" with
    | Some r => r
    | None => VUndef
    end.

(** A session cookie as [express-session] signs it: [s:], the session
    identifier, a dot and the signature. *)
Definition session36 : string := "0b8e7c56-3f0a-4d2e-9c1b-7a6f5e4d3c2b".

(** The body of a settings update, and a store of previews that does
    not fail. *)
Definition settings_body : fields :=
  [("preview", VStr "data:image/png;base64,AAAA"); ("cameraPositionInitial", VNum 0)].

Definition save_preview (_ : value) (subfolder identifier : string) : string :=
  "https://localhost:8080/previews/" ++ subfolder ++ "/" ++ identifier ++ ".png".

(** The accounts repository as the mailer sees it, with Alice logged in,
    and after two of her mails to the contact address. *)
Definition Target : fields :=
  [("contact", VStr "contact@example.org"); ("bugreport", VStr "bugs@example.org")].

Definition alice_doc : value :=
  VObj [("_id", VId Example.owner1); ("username", VStr "alice");
        ("sessionID", VStr "session-1"); ("data", VObj [])].

Definition mail_from_alice (n : nat) : value :=
  VObj [("target", VStr "contact");
        ("content", VObj [("mailbody", VStr "Hello"); ("subject", VStr "Question")]);
        ("timestamp", VStr "2019-04-01T10:00:00.000Z");
        ("user", alice_doc); ("answered", VBool false); ("mailSent", VBool true);
        ("_id", VId (canonical_fresh n))].

Definition accounts_db (mails : list value) (next : nat) : db :=
  mkDb [("ldap", [alice_doc]); ("contact", mails)] next.

Definition question : mail := mkMail "contact" (VStr "Question") (VStr "Hello").

(** A registration. *)
Definition rank_admin : value := VStr "A".
Definition rank_user : value := VStr "U".

Definition toy_hmac (salt password : string) : string := salt ++ ":" ++ password.

Definition bob_body : fields :=
  [("fullname", VStr "Bob Builder"); ("prename", VStr "Bob"); ("surname", VStr "Builder");
   ("mail", VStr "bob@example.org"); ("username", VStr "bob");
   ("password", VStr "secret"); ("role", VStr "A")].

Definition users_db : db :=
  mkDb [("users", [VObj [("_id", VId Example.owner1); ("username", VStr "alice");
                         ("role", VStr "A"); ("data", VObj [])]])] 0.

Definition users_db_after : db :=
  mkDb [("users",
         [VObj [("_id", VId Example.owner1); ("username", VStr "alice");
                ("role", VStr "A"); ("data", VObj [])];
          VObj [("fullname", VStr "Bob Builder"); ("prename", VStr "Bob");
                ("surname", VStr "Builder"); ("mail", VStr "bob@example.org");
                ("username", VStr "bob"); ("role", VStr "U"); ("data", VObj []);
                ("_id", VId (canonical_fresh 1))]]);
        ("passwords",
         [VObj [("_id", VId (canonical_fresh 0)); ("username", VStr "bob");
                ("password", VObj [("salt", VStr "0123456789abcdef");
                                   ("passwordHash", VStr "0123456789abcdef:secret")])]])]
       2.

Definition registered_response : value :=
  VObj [("status", VStr "ok"); ("message", VStr "Registered")].

(** A registration under a new username that brings the [_id] of
    Alice's document, and the repository after it. *)
Definition carol_body : fields :=
  [("_id", VId Example.owner1);
   ("fullname", VStr "Carol Carpenter"); ("prename", VStr "Carol");
   ("surname", VStr "Carpenter"); ("mail", VStr "carol@example.org");
   ("username", VStr "carol"); ("password", VStr "hidden")].

Definition users_db_failed : db :=
  mkDb [("users", [VObj [("_id", VId Example.owner1); ("username", VStr "alice");
                         ("role", VStr "A"); ("data", VObj [])]]);
        ("passwords",
         [VObj [("_id", VId (canonical_fresh 0)); ("username", VStr "carol");
                ("password", VObj [("salt", VStr "0123456789abcdef");
                                   ("passwordHash", VStr "0123456789abcdef:hidden")])]])]
       1.

End Sample.

(* ================================================================== *)
(** * Objects, lists and strings *)
(* ================================================================== *)

Lemma strict_eq_sym (a b : value) : strict_eq a b = strict_eq b a.
Proof.
  destruct a, b; simpl; auto using Z.eqb_sym, String.eqb_sym.
  destruct b, b0; reflexivity.
Qed.

Lemma strict_eq_primitive (a b : value) :
  is_primitive a = true -> strict_eq a b = true -> a = b.
Proof.
  destruct a, b; simpl; try discriminate; intros _ E; auto.
  - apply Bool.eqb_prop in E. now subst.
  - apply Z.eqb_eq in E. now subst.
  - apply String.eqb_eq in E. now subst.
Qed.

Lemma field_singleton (k : string) (v : value) : field [(k, v)] k = v.
Proof. unfold field. simpl. now rewrite String.eqb_refl. Qed.

Lemma field_assign_eq (k : string) (v : value) (o : fields) :
  field (assign k v o) k = v.
Proof.
  unfold field. induction o as [|[k' v'] t IH]; simpl.
  - now rewrite String.eqb_refl.
  - destruct (String.eqb k k') eqn:E; simpl.
    + now rewrite String.eqb_refl.
    + now rewrite E.
Qed.

Lemma field_assign_neq (k k' : string) (v : value) (o : fields) :
  k' <> k -> field (assign k v o) k' = field o k'.
Proof.
  intros N. unfold field. induction o as [|[k0 v0] t IH]; simpl.
  - apply String.eqb_neq in N. now rewrite N.
  - destruct (String.eqb k k0) eqn:E; simpl.
    + apply String.eqb_eq in E. subst k0.
      apply String.eqb_neq in N. now rewrite N.
    + destruct (String.eqb k' k0); auto.
Qed.

Lemma keys_assign (k : string) (v : value) (o : fields) (k' : string) :
  In k' (map fst (assign k v o)) <-> k' = k \/ In k' (map fst o).
Proof.
  induction o as [|[k0 v0] t IH]; simpl.
  - intuition.
  - destruct (String.eqb k k0) eqn:E; simpl.
    + apply String.eqb_eq in E. subst. intuition.
    + rewrite IH. intuition.
Qed.

Lemma NoDup_assign (k : string) (v : value) (o : fields) :
  NoDup (map fst o) -> NoDup (map fst (assign k v o)).
Proof.
  induction o as [|[k0 v0] t IH]; simpl; intros N.
  - constructor; [intros [] | constructor].
  - inversion N as [|? ? Hn Ht]; subst.
    destruct (String.eqb k k0) eqn:E; simpl.
    + apply String.eqb_eq in E. subst. now constructor.
    + constructor; [|auto].
      rewrite keys_assign. intros [->|?]; [|contradiction].
      now rewrite String.eqb_refl in E.
Qed.

Lemma keys_remove_key (k : string) (o : fields) (k' : string) :
  In k' (map fst (remove_key k o)) <-> k' <> k /\ In k' (map fst o).
Proof.
  induction o as [|[k0 v0] t IH]; simpl.
  - intuition.
  - destruct (String.eqb k k0) eqn:E; simpl.
    + apply String.eqb_eq in E. subst. rewrite IH. intuition congruence.
    + apply String.eqb_neq in E. rewrite IH. intuition congruence.
Qed.

Lemma NoDup_remove_key (k : string) (o : fields) :
  NoDup (map fst o) -> NoDup (map fst (remove_key k o)).
Proof.
  induction o as [|[k0 v0] t IH]; simpl; intros N; [constructor|].
  inversion N; subst.
  destruct (String.eqb k k0); simpl; auto.
  constructor; auto. rewrite keys_remove_key. tauto.
Qed.

Lemma field_remove_key_neq (k k' : string) (o : fields) :
  k' <> k -> field (remove_key k o) k' = field o k'.
Proof.
  intros N. unfold field. induction o as [|[k0 v0] t IH]; simpl; auto.
  destruct (String.eqb k k0) eqn:E; simpl.
  - apply String.eqb_eq in E. subst k0.
    apply String.eqb_neq in N. now rewrite N.
  - destruct (String.eqb k' k0); auto.
Qed.

Lemma lookup_None (k : string) (o : fields) :
  lookup k o = None <-> ~ In k (map fst o).
Proof.
  induction o as [|[k0 v0] t IH]; simpl; [tauto|].
  destruct (String.eqb k k0) eqn:E.
  - apply String.eqb_eq in E. subst. split; [discriminate | tauto].
  - apply String.eqb_neq in E. rewrite IH. intuition congruence.
Qed.

(** Writing the properties of [upd] one after the other, each through
    [g]: a property that [upd] has (once) ends as [upd] gives it, any
    other is left alone. *)
Lemma field_fold_assign (g : value -> value) (upd : fields) :
  NoDup (map fst upd) ->
  forall (o : fields) (k : string),
    field (fold_left (fun acc kv => assign (fst kv) (g (snd kv)) acc) upd o) k
    = match lookup k upd with Some v => g v | None => field o k end.
Proof.
  induction upd as [|[k0 v0] t IH]; simpl; intros N o k; [reflexivity|].
  inversion N as [|? ? Hn Ht]; subst.
  rewrite IH by assumption.
  destruct (String.eqb k k0) eqn:E.
  - apply String.eqb_eq in E. subst k0.
    apply lookup_None in Hn. rewrite Hn. apply field_assign_eq.
  - apply String.eqb_neq in E.
    destruct (lookup k t); [reflexivity|]. now apply field_assign_neq.
Qed.

Lemma NoDup_fold_assign (g : value -> value) (upd o : fields) :
  NoDup (map fst o) ->
  NoDup (map fst (fold_left (fun acc kv => assign (fst kv) (g (snd kv)) acc) upd o)).
Proof.
  revert o. induction upd as [|[k0 v0] t IH]; simpl; intros o N; auto.
  apply IH. now apply NoDup_assign.
Qed.

Lemma lookup_assign_neq (k k' : string) (v : value) (o : fields) :
  k' <> k -> lookup k' (assign k v o) = lookup k' o.
Proof.
  intros N. induction o as [|[k0 v0] t IH]; simpl.
  - apply String.eqb_neq in N. now rewrite N.
  - destruct (String.eqb k k0) eqn:E; simpl.
    + apply String.eqb_eq in E. subst k0.
      apply String.eqb_neq in N. now rewrite N.
    + destruct (String.eqb k' k0); auto.
Qed.

Lemma lookup_assign_eq (k : string) (v : value) (o : fields) :
  lookup k (assign k v o) = Some v.
Proof.
  induction o as [|[k' v'] t IH]; simpl.
  - now rewrite String.eqb_refl.
  - destruct (String.eqb k k') eqn:E; simpl.
    + now rewrite String.eqb_refl.
    + now rewrite E.
Qed.

Lemma lookup_remove_key_neq (k k' : string) (o : fields) :
  k' <> k -> lookup k' (remove_key k o) = lookup k' o.
Proof.
  intros N. induction o as [|[k0 v0] t IH]; simpl; auto.
  destruct (String.eqb k k0) eqn:E; simpl.
  - apply String.eqb_eq in E. subst k0.
    apply String.eqb_neq in N. now rewrite N.
  - destruct (String.eqb k' k0); auto.
Qed.

Lemma lookup_field (k : string) (o : fields) (v : value) :
  lookup k o = Some v -> field o k = v.
Proof. unfold field. now intros ->. Qed.

Lemma lookup_fold_assign (g : value -> value) (upd : fields) :
  NoDup (map fst upd) ->
  forall (o : fields) (k : string),
    lookup k (fold_left (fun acc kv => assign (fst kv) (g (snd kv)) acc) upd o)
    = match lookup k upd with Some v => Some (g v) | None => lookup k o end.
Proof.
  induction upd as [|[k0 v0] t IH]; simpl; intros N o k; [reflexivity|].
  inversion N as [|? ? Hn Ht]; subst.
  rewrite IH by assumption.
  destruct (String.eqb k k0) eqn:E.
  - apply String.eqb_eq in E. subst k0.
    apply lookup_None in Hn. rewrite Hn. apply lookup_assign_eq.
  - apply String.eqb_neq in E.
    destruct (lookup k t); [reflexivity|]. now apply lookup_assign_neq.
Qed.

Lemma lookup_fold_assign_absent (g : value -> value) (upd : fields) (k : string) :
  ~ In k (map fst upd) ->
  forall o, lookup k (fold_left (fun acc kv => assign (fst kv) (g (snd kv)) acc) upd o)
            = lookup k o.
Proof.
  induction upd as [|[k0 v0] t IH]; simpl; intros N o; [reflexivity|].
  rewrite IH by tauto. apply lookup_assign_neq. intros ->. tauto.
Qed.

Lemma lookup_spread (a b : fields) (k : string) :
  NoDup (map fst b) -> lookup k (spread a b) = merged a b k.
Proof.
  intros N. unfold spread, merged.
  now rewrite (lookup_fold_assign (fun v => v)).
Qed.

Lemma NoDup_spread (a b : fields) :
  NoDup (map fst a) -> NoDup (map fst (spread a b)).
Proof. apply (NoDup_fold_assign (fun v => v)). Qed.

Lemma docs_set_docs_eq (c : string) (l : list value) (st : store) :
  docs (set_docs c l st) c = l.
Proof.
  induction st as [|[c' l'] t IH]; simpl.
  - now rewrite String.eqb_refl.
  - destruct (String.eqb c c') eqn:E; simpl.
    + now rewrite String.eqb_refl.
    + now rewrite E.
Qed.

Lemma docs_set_docs_neq (c c' : string) (l : list value) (st : store) :
  c' <> c -> docs (set_docs c l st) c' = docs st c'.
Proof.
  intros N. induction st as [|[c0 l0] t IH]; simpl.
  - apply String.eqb_neq in N. now rewrite N.
  - destruct (String.eqb c c0) eqn:E; simpl.
    + apply String.eqb_eq in E. subst c0.
      apply String.eqb_neq in N. now rewrite N.
    + destruct (String.eqb c' c0); auto.
Qed.

Lemma length_filter_zero {A : Type} (p : A -> bool) (l : list A) :
  (List.length (filter p l) =? 0)%nat = negb (existsb p l).
Proof.
  induction l as [|x t IH]; simpl; [reflexivity|].
  destruct (p x); simpl; auto.
Qed.

Lemma existsb_map_comp {A B : Type} (p : B -> bool) (f : A -> B) (l : list A) :
  existsb p (map f l) = existsb (fun x => p (f x)) l.
Proof. induction l as [|x t IH]; simpl; [reflexivity | now rewrite IH]. Qed.



Lemma existsb_ext_eq {A : Type} (p q : A -> bool) (l : list A) :
  (forall x, p x = q x) -> existsb p l = existsb q l.
Proof. intros E. induction l as [|x t IH]; simpl; [reflexivity | now rewrite E, IH]. Qed.

(* ================================================================== *)
(** * The resolver's depth *)
(* ================================================================== *)

Lemma depth_guard_never (depth : value) :
  truthy depth && strict_eq depth (VNum 0) = false.
Proof.
  destruct depth; simpl; rewrite ?andb_false_r; try reflexivity.
  destruct (Z.eqb n 0); reflexivity.
Qed.

Lemma resolve_ignores_depth `{ObjectIdDriver} `{Resolving}
  (fuel : nat) (st : store) (obj : value) (c : string) (depth : value) :
  resolve fuel st obj c depth = resolve fuel st obj c VUndef.
Proof.
  destruct fuel as [|fuel]; simpl; [reflexivity|].
  now rewrite depth_guard_never.
Qed.

(** C1. The claim: [resolve] with depth 0 returns the stored Model
    unexpanded, with depth omitted it returns it with
    [relatedDigitalObject] expanded.  The code: the guard
    [depth && depth === 0] never holds, 0 being falsy, so whatever the
    driver, the type guards and the strategies are, a call with depth 0
    is the call with the depth omitted; on the stored Model of the
    example both return the Model with its DigitalObject expanded, and
    not the stored document. *)
Theorem resolve_depth_zero_expands :
  (forall (D : ObjectIdDriver) (R : Resolving) fuel st obj c,
      resolve fuel st obj c (VNum 0) = resolve fuel st obj c VUndef)
  /\ resolve 2 Example.repository (VId Example.idA) "model" (VNum 0)
     = Some (VObj (assign "relatedDigitalObject" Example.digobj
                     (own_fields Example.model)))
  /\ resolve 2 Example.repository (VId Example.idA) "model" VUndef
     = Some (VObj (assign "relatedDigitalObject" Example.digobj
                     (own_fields Example.model)))
  /\ findOne (VId Example.idA) (docs Example.repository "model") = Some Example.model
  /\ resolve 2 Example.repository (VId Example.idA) "model" (VNum 0)
     <> Some Example.model.
Proof.
  split; [intros; apply resolve_ignores_depth|].
  repeat split; try reflexivity.
  vm_compute. discriminate.
Qed.

(* ================================================================== *)
(** * The reconciliation merge *)
(* ================================================================== *)

Section Reconciliation.
Context `{ObjectIdDriver}.

Lemma fold_js_concat (arrays : list (list value)) (acc : list value) :
  fold_left js_concat (map VArr arrays) acc = acc ++ concat arrays.
Proof.
  revert acc. induction arrays as [|a t IH]; simpl; intros acc.
  - now rewrite app_nil_r.
  - now rewrite IH, app_assoc.
Qed.

Lemma filterM_entries (l : list value) :
  Forall (fun e => nullish e = false) l ->
  filterM filterObjectsWithoutID l
  = Some (filter (fun e => ObjectId_isValid (doc_id e)) l).
Proof.
  induction 1 as [|e t He Ht IH]; simpl; [reflexivity|].
  rewrite IH. unfold filterObjectsWithoutID, doc_id.
  destruct e; simpl in *; try discriminate; reflexivity.
Qed.

Lemma ObjectId_construct_pure (v : value) (generated : nat) :
  numbered v = false ->
  ObjectId_construct v generated = (ObjectId_hex v, generated).
Proof. destruct v; simpl; intros E; try discriminate; reflexivity. Qed.

Lemma concatFix_loop_step (kept : list string) (res : value) (rest : list value)
  (generated : nat) :
  concatFix_loop (map reference kept) (res :: rest) generated
  = let (h, generated') := ObjectId_construct (doc_id res) generated in
    concatFix_loop (map reference (if existsb (String.eqb h) kept then kept
                                   else kept ++ [h]))
                   rest generated'.
Proof.
  simpl. destruct (ObjectId_construct (doc_id res) generated) as [h generated'].
  rewrite length_filter_zero, existsb_map_comp.
  rewrite (existsb_ext_eq _ (String.eqb h)).
  - destruct (existsb (String.eqb h) kept); simpl; [reflexivity|].
    now rewrite map_app.
  - intros x. unfold reference, doc_id. cbn [own_fields]. rewrite field_singleton.
    apply String.eqb_sym.
Qed.

Lemma concatFix_loop_first_occurrences (result : list value) :
  Forall (fun e => numbered (doc_id e) = false) result ->
  forall (kept seen : list string) (generated : nat),
    (forall h, existsb (String.eqb h) seen = existsb (String.eqb h) kept) ->
    concatFix_loop (map reference kept) result generated
    = (map reference
         (kept ++ first_occurrences seen (map (fun e => ObjectId_hex (doc_id e)) result)),
       generated).
Proof.
  induction 1 as [|res rest Hres Hrest IH]; intros kept seen generated Hs.
  - simpl. now rewrite app_nil_r.
  - rewrite concatFix_loop_step, ObjectId_construct_pure by assumption.
    simpl. rewrite Hs.
    destruct (existsb (String.eqb (ObjectId_hex (doc_id res))) kept) eqn:E.
    + now apply IH.
    + rewrite (IH _ (ObjectId_hex (doc_id res) :: seen)).
      * now rewrite <- app_assoc.
      * intros h. rewrite existsb_app. simpl. rewrite Hs.
        now rewrite orb_false_r, orb_comm.
Qed.

Lemma concatFix_loop_references (result : list value) :
  forall (kept : list string) (generated : nat),
    NoDup kept ->
    exists (hs : list string) (generated' : nat),
      concatFix_loop (map reference kept) result generated
      = (map reference hs, generated')
      /\ NoDup hs.
Proof.
  induction result as [|res rest IH]; intros kept generated Hk.
  - exists kept, generated. now split.
  - rewrite concatFix_loop_step.
    destruct (ObjectId_construct (doc_id res) generated) as [h generated'].
    destruct (existsb (String.eqb h) kept) eqn:E.
    + now apply IH.
    + apply IH. apply NoDup_app; [assumption|repeat constructor; simpl; tauto|].
      intros x Hx [->|[]].
      assert (existsb (String.eqb x) kept = true) as C
        by (apply existsb_exists; exists x; split; auto using String.eqb_refl).
      congruence.
Qed.



Lemma reference_injective (a b : string) : reference a = reference b -> a = b.
Proof. unfold reference. congruence. Qed.

Lemma concatFix_arrays (first : list value) (others : list (list value))
  (generated : nat) :
  Forall (fun e => nullish e = false) (concat (first :: others)) ->
  Forall (fun e => numbered (doc_id e) = false) (concat (first :: others)) ->
  concatFix (map VArr (first :: others)) generated
  = Some (reconciled (first :: others), generated).
Proof.
  intros Hn Hp. unfold concatFix. simpl nth. simpl tl. simpl js_concat.
  rewrite fold_js_concat. simpl in Hn. rewrite filterM_entries by assumption.
  simpl. unfold reconciled. simpl concat.
  rewrite (concatFix_loop_first_occurrences _ (incl_Forall (incl_filter _ _) Hp) [] []);
    auto.
Qed.

Lemma concatFix_references (first : list value) (others : list (list value))
  (generated : nat) :
  Forall (fun e => nullish e = false) (concat (first :: others)) ->
  exists (hs : list string) (generated' : nat),
    concatFix (map VArr (first :: others)) generated
    = Some (map reference hs, generated')
    /\ NoDup hs.
Proof.
  intros Hn. unfold concatFix. simpl nth. simpl tl. simpl js_concat.
  rewrite fold_js_concat. simpl in Hn. rewrite filterM_entries by assumption.
  simpl.
  destruct (concatFix_loop_references
              (filter (fun e => ObjectId_isValid (doc_id e)) (first ++ concat others))
              [] generated (NoDup_nil _)) as (hs & generated' & E & Hd).
  exists hs, generated'. simpl in E. now rewrite E.
Qed.


Lemma concatFix_no_arrays (generated : nat) : concatFix [] generated = None.
Proof. reflexivity. Qed.

End Reconciliation.



(* ================================================================== *)
(** * Reading compilations *)
(* ================================================================== *)

Lemma nonempty_length_positive (s : string) :
  s <> EmptyString -> (0 <? Z.of_nat (String.length s))%Z = true.
Proof.
  destruct s; [congruence|]. intros _. simpl String.length.
  apply Z.ltb_lt. lia.
Qed.

Lemma nonempty_truthy (s : string) : s <> EmptyString -> truthy (VStr s) = true.
Proof. intros N. simpl. apply String.eqb_neq in N. now rewrite N. Qed.

Section Reading.
Context `{ObjectIdDriver} `{Resolving}.

(** C5. A single-object read that resolves to a Compilation with a
    non-empty string password sends only the "password protected"
    marker to a requester who fails the ownership test and supplies
    another password (or none), and the full body to one who passes the
    ownership test or supplies the password; with the password absent
    or empty every requester is sent the full body. *)
Theorem compilation_read_gating (fuel : nat) (st : store) (accs : list account)
  (req : request) (c : value) (owner : bool) :
  resolve fuel st (parse_identifier (VStr (params_identifier req)))
          (toLowerCase (params_collection req)) VUndef = Some c ->
  truthy c = true ->
  isCompilation c = true ->
  isUserOwnerOfObject accs (sessionID req)
    (parse_identifier (VStr (params_identifier req))) = Some owner ->
  let supplied := match params_password req with Some p => p | None => EmptyString end in
  (forall pw, field (own_fields c) "password" = VStr pw -> pw <> EmptyString ->
     (owner = false -> supplied <> pw ->
        getObjectFromCollection fuel st accs req = Some password_protected_marker)
     /\ (owner = true \/ supplied = pw ->
           getObjectFromCollection fuel st accs req = Some (full_body c)))
  /\ (field (own_fields c) "password" = VUndef
      \/ field (own_fields c) "password" = VStr EmptyString ->
      getObjectFromCollection fuel st accs req = Some (full_body c)).
Proof.
  intros Hres Ht Hc Hown supplied.
  unfold getObjectFromCollection. rewrite Hres. simpl bind.
  rewrite Ht, Hc. simpl negb. cbv iota. rewrite Hown. simpl bind.
  fold supplied. split.
  - intros pw Hpw Hne. rewrite Hpw.
    unfold isPasswordProtected, isPasswordCorrect. simpl js_length.
    rewrite nonempty_truthy, nonempty_length_positive by assumption. simpl.
    split.
    + intros -> Hs. apply not_eq_sym in Hs. apply String.eqb_neq in Hs.
      now rewrite Hs.
    + intros [->| ->]; [reflexivity|].
      rewrite String.eqb_refl, orb_true_r. reflexivity.
  - intros [E|E]; rewrite E; reflexivity.
Qed.

(** C10, as the code has it.  The fetch-all read drops the compilations
    that [keeps_compilation] rejects only when the first resolved
    document is a Compilation; then no returned document has a non-empty
    string password and every returned document is a resolved document
    of the collection (no marker stands in for a dropped one).
    Otherwise the resolved documents are returned unfiltered. *)
Theorem fetch_all_gated_on_first (fuel : nat) (st : store) (req : request)
  (resolved : list value) :
  mapM (fun d => resolve fuel st d (toLowerCase (params_collection req)) VUndef)
       (docs st (toLowerCase (params_collection req))) = Some resolved ->
  let results := filter truthy resolved in
  (isCompilation (hd VUndef results) = true ->
     getAllObjectsFromCollection fuel st req = Some (filter keeps_compilation results)
     /\ forall r, In r (filter keeps_compilation results) ->
          In r resolved
          /\ forall pw, field (own_fields r) "password" = VStr pw -> pw = EmptyString)
  /\ (isCompilation (hd VUndef results) = false ->
      getAllObjectsFromCollection fuel st req = Some results).
Proof.
  intros Hres results. unfold getAllObjectsFromCollection.
  rewrite Hres. simpl bind. fold results. split.
  - intros Hc. rewrite Hc, andb_true_r. split.
    + destruct results; reflexivity.
    + intros r Hr. apply filter_In in Hr. destruct Hr as [Hr Hk].
      split; [apply filter_In in Hr; tauto|].
      intros pw Hpw. unfold keeps_compilation in Hk. rewrite Hpw in Hk.
      destruct pw; [reflexivity|]. discriminate.
  - intros Hc. now rewrite Hc, andb_false_r.
Qed.

End Reading.

Lemma compilation_read_gating_witness :
  getObjectFromCollection 2 Example.protected_only [Example.alice] (Example.read_protected None)
  = Some password_protected_marker
  /\ getObjectFromCollection 2 Example.protected_only [Example.alice]
       (Example.read_protected (Some "secret"))
     = Some (full_body Example.protected).
Proof.
  split.
  - refine (proj1 (proj1 (@compilation_read_gating canonical_driver spec_resolving 2
                       Example.protected_only [Example.alice] (Example.read_protected None)
                       Example.protected false _ _ _ _) "secret" _ _) _ _);
      try reflexivity; discriminate.
  - refine (proj2 (proj1 (@compilation_read_gating canonical_driver spec_resolving 2
                       Example.protected_only [Example.alice]
                       (Example.read_protected (Some "secret"))
                       Example.protected false _ _ _ _) "secret" _ _) _);
      try reflexivity; try discriminate. now right.
Defined.

(** C10, where the code departs from the claim: the first document of
    the compilation collection lacks the fields of a Compilation, and
    the fetch-all read returns the password-protected Compilation behind
    it, password included. *)
Lemma fetch_all_returns_protected :
  getAllObjectsFromCollection 2 Example.compilations
    (Example.request_for "session-1" "compilation" EmptyString None VUndef VUndef)
  = Some [Example.draft; Example.protected]
  /\ field (own_fields Example.protected) "password" = VStr "secret".
Proof. split; reflexivity. Qed.

Lemma fetch_all_gated_on_first_witness :
  getAllObjectsFromCollection 2 Example.protected_only
    (Example.request_for "session-1" "compilation" EmptyString None VUndef VUndef)
  = Some [].
Proof.
  refine (proj1 (proj1 (@fetch_all_gated_on_first canonical_driver spec_resolving 2
                     Example.protected_only
                     (Example.request_for "session-1" "compilation" EmptyString None
                        VUndef VUndef)
                     [Example.protected] _) _));
    reflexivity.
Defined.

(* ================================================================== *)
(** * Deleting *)
(* ================================================================== *)

Lemma prune_keeps_ObjectIds (idstr : string) (ids : list value) :
  Forall (fun id => exists h, id = VId h) ids ->
  filter (fun id => negb (strict_eq id (VStr idstr))) ids = ids.
Proof.
  induction 1 as [|id t [h ->] Ht IH]; simpl; [reflexivity | now rewrite IH].
Qed.

Section Deleting.
Context `{ObjectIdDriver}.

Lemma remove_refused_for_other_user (st : store) (accs : list account) (req : request)
  (u : account) (delete_ok update_ok : bool) :
  getCurrentUserBySession accs (sessionID req) = Some u ->
  strict_eq (body_username req) (acc_username u) = false ->
  removeObjectFromCollection st accs req delete_ok update_ok
  = (st, accs,
     Sent (error_message "Input username does not match username with current sessionID")).
Proof.
  intros Hu Hn. unfold removeObjectFromCollection. rewrite Hu, Hn. simpl negb.
  now rewrite !orb_true_r.
Qed.

Lemma remove_refused_without_account (st : store) (accs : list account) (req : request)
  (delete_ok update_ok : bool) :
  getCurrentUserBySession accs (sessionID req) = None ->
  removeObjectFromCollection st accs req delete_ok update_ok
  = (st, accs,
     Sent (error_message "Input username does not match username with current sessionID")).
Proof. intros Hu. unfold removeObjectFromCollection. now rewrite Hu. Qed.

End Deleting.

(** C6. The claim: a successful delete removes the entity from storage
    and prunes its reference from the owning Account's [data].  The
    code: the prune keeps the entries with [id !== identifier.toString()],
    and the entries are [ObjectId] instances, as [insertCurrentUserData]
    pushes them, never equal to a string; so every [ObjectId] entry is
    kept ([prune_keeps_ObjectIds]).  Alice attaches the Model and deletes it: the delete is
    answered [ok], the Model is gone from the model collection, and her
    [data] still lists it. *)
Theorem delete_keeps_reference :
  insertCurrentUserData [Example.alice] "session-1" (VId Example.idA) "model"
  = Some (true, [Example.alice_owning])
  /\ removeObjectFromCollection Example.repository [Example.alice_owning]
       Example.delete_model true true
     = (Example.repository_after_delete, [Example.alice_owning], Sent (VObj status_ok))
  /\ findOne (VId Example.idA) (docs Example.repository "model") = Some Example.model
  /\ findOne (VId Example.idA) (docs Example.repository_after_delete "model") = None
  /\ acc_data Example.alice_owning = VObj [("model", VArr [VId Example.idA])].
Proof. repeat split; reflexivity. Qed.

(* ================================================================== *)
(** * The ownership test *)
(* ================================================================== *)

Lemma append_assoc (a b c : string) : ((a ++ b) ++ c = a ++ (b ++ c))%string.
Proof. induction a as [|x a IH]; simpl; [reflexivity | now rewrite IH]. Qed.

Lemma append_nil_r (s : string) : (s ++ EmptyString)%string = s.
Proof. induction s as [|x s IH]; simpl; [reflexivity | now rewrite IH]. Qed.

Lemma prefix_spec (s1 s2 : string) :
  String.prefix s1 s2 = true <-> exists post, s2 = (s1 ++ post)%string.
Proof.
  revert s2. induction s1 as [|a s1 IH]; intros s2.
  - split; [intros _; now exists s2 | intros _; destruct s2; reflexivity].
  - destruct s2 as [|b s2]; simpl.
    + split; [discriminate | intros [post E]; discriminate].
    + destruct (Ascii.ascii_dec a b) as [->|N].
      * rewrite IH. split; intros [post E]; exists post; congruence.
      * split; [discriminate | intros [post E]; congruence].
Qed.

Lemma includes_spec (hay needle : string) :
  includes hay needle = true
  <-> exists pre post, hay = (pre ++ needle ++ post)%string.
Proof.
  unfold includes, indexOf. induction hay as [|b hay IH].
  - simpl. destruct needle as [|a needle].
    + split; [intros _; now exists EmptyString, EmptyString | reflexivity].
    + split; [discriminate|]. intros (pre & post & E).
      destruct pre; discriminate.
  - cbn [String.index].
    destruct (String.prefix needle (String b hay)) eqn:P.
    + split; [intros _ | reflexivity].
      apply prefix_spec in P. destruct P as [post E].
      now exists EmptyString, post.
    + destruct (String.index 0 needle hay) as [n|].
      * split; [intros _ | reflexivity].
        destruct (proj1 IH eq_refl) as (pre & post & E).
        exists (String b pre), post. simpl. now rewrite E.
      * split; [discriminate|]. intros (pre & post & E).
        destruct pre as [|c pre].
        -- simpl in E. assert (String.prefix needle (String b hay) = true) as C
             by (apply prefix_spec; now exists post).
           congruence.
        -- simpl in E. injection E as _ E.
           assert (None = Some 0 -> False) as _ by discriminate.
           destruct IH as [_ IH]. discriminate IH. now exists pre, post.
Qed.

Lemma includes_in_context (pre post hay needle : string) :
  includes hay needle = true -> includes (pre ++ hay ++ post) needle = true.
Proof.
  rewrite !includes_spec. intros (a & b & ->).
  exists (pre ++ a)%string, (b ++ post)%string.
  now rewrite !append_assoc.
Qed.

Lemma includes_refl (s : string) : includes s s = true.
Proof.
  apply includes_spec. exists EmptyString, EmptyString. simpl.
  now rewrite append_nil_r.
Qed.

Lemma includes_join (sep x : string) (l : list string) :
  In x l -> includes (join sep l) x = true.
Proof.
  induction l as [|y t IH]; simpl; [tauto|].
  intros [->|Hx].
  - destruct t.
    + apply includes_refl.
    + apply (includes_in_context EmptyString). apply includes_refl.
  - destruct t as [|z t']; [contradiction|].
    change (join sep (y :: z :: t')) with (y ++ sep ++ join sep (z :: t'))%string.
    rewrite <- (append_nil_r (join sep (z :: t'))), <- append_assoc.
    apply includes_in_context. auto.
Qed.

Lemma includes_join_tail (sep x n : string) (l : list string) :
  includes (join sep l) n = true -> includes (join sep (x :: l)) n = true.
Proof.
  intros Hl. destruct l as [|z t].
  - simpl in *. rewrite <- (append_nil_r x).
    now apply (includes_in_context x EmptyString EmptyString).
  - change (join sep (x :: z :: t)) with (x ++ sep ++ join sep (z :: t))%string.
    rewrite <- (append_nil_r (join sep (z :: t))), <- append_assoc.
    now apply includes_in_context.
Qed.

Lemma json_text_array (l : list value) :
  json_text (VArr l) = ("[" ++ join "," (map json_text l) ++ "]")%string.
Proof. reflexivity. Qed.

(** A reference listed in the [data] map is found by the containment
    test, when its hexadecimal string needs no escaping. *)
Lemma listed_is_contained (data : fields) (h : string) :
  listed_in data h -> json_escape_string h = h ->
  includes (json_text (VObj data)) h = true.
Proof.
  intros (c & l & Hc & Hl) Hesc.
  cbn [json_text]. apply (includes_in_context "{" "}").
  induction data as [|[k x] t IH]; [contradiction|].
  destruct Hc as [E|Hc].
  - injection E as -> ->. cbn [is_undefined].
    match goal with |- includes (join _ (?e :: ?r)) _ = _ => set (rest := r) end.
    assert (includes (json_text (VArr l)) h = true) as Hin.
    { rewrite json_text_array. apply (includes_in_context "[" "]").
      assert (includes (json_text (VId h)) h = true) as Hq.
      { cbn [json_text]. unfold json_quote. rewrite Hesc.
        apply (includes_in_context (String dquote EmptyString) (String dquote EmptyString)).
        apply includes_refl. }
      apply includes_spec in Hq. destruct Hq as (a & b & Hq).
      assert (includes (join "," (map json_text l)) (json_text (VId h)) = true) as Hj
        by (apply includes_join, in_map_iff; eauto).
      apply includes_spec in Hj. destruct Hj as (a' & b' & Hj).
      apply includes_spec. exists (a' ++ a)%string, (b ++ b')%string.
      rewrite Hj, Hq. now rewrite !append_assoc. }
    assert (includes (json_quote c ++ ":" ++ json_text (VArr l)) h = true) as Hel.
    { rewrite <- (append_nil_r (json_text (VArr l))), <- append_assoc.
      now apply includes_in_context. }
    apply includes_spec in Hel. destruct Hel as (a & b & Hel).
    assert (includes (join "," ((json_quote c ++ ":" ++ json_text (VArr l))%string :: rest))
                     (json_quote c ++ ":" ++ json_text (VArr l)) = true) as Hj
      by (apply includes_join; now left).
    apply includes_spec in Hj. destruct Hj as (a' & b' & Hj).
    apply includes_spec. exists (a' ++ a)%string, (b ++ b')%string.
    rewrite Hj, Hel. now rewrite !append_assoc.
  - specialize (IH Hc).
    destruct (is_undefined x); [exact IH|].
    now apply includes_join_tail.
Qed.

Lemma append_length (a b : string) :
  String.length (a ++ b) = String.length a + String.length b.
Proof. induction a as [|x a IH]; simpl; [reflexivity | now rewrite IH]. Qed.

Lemma includes_length (hay needle : string) :
  includes hay needle = true -> String.length needle <= String.length hay.
Proof.
  rewrite includes_spec. intros (pre & post & ->).
  rewrite !append_length. lia.
Qed.

Section Ownership.
Context `{ObjectIdDriver}.

Lemma isUserOwnerOfObject_text (accs : list account) (sid : string) (identifier : value)
  (text : string) :
  searched_text (getCurrentUserBySession accs sid) = Some text ->
  isUserOwnerOfObject accs sid identifier
  = Some (includes text (searched_for identifier)).
Proof.
  unfold searched_text, isUserOwnerOfObject, searched_for. now intros ->.
Qed.

(** C7.  For a session with an Account the test is true exactly when
    the identifier's string form occurs somewhere in the JSON text of
    the Account's [data]: a listed reference is found that way, and so
    is any other occurrence of the string, as the name of a collection
    that is a key of [data] and no reference in it.  For a session
    without an Account the test is false for every valid identifier,
    whose hexadecimal string has 24 digits. *)
Theorem ownership_is_text_containment :
  (forall accs sid identifier u,
      getCurrentUserBySession accs sid = Some u ->
      acc_data u <> VUndef ->
      exists b, isUserOwnerOfObject accs sid identifier = Some b
                /\ (b = true <->
                    exists pre post,
                      json_text (acc_data u)
                      = (pre ++ searched_for identifier ++ post)%string))
  /\ (forall accs sid identifier u data h,
        getCurrentUserBySession accs sid = Some u ->
        acc_data u = VObj data ->
        listed_in data h ->
        searched_for identifier = h ->
        json_escape_string h = h ->
        isUserOwnerOfObject accs sid identifier = Some true)
  /\ (forall accs sid identifier,
        getCurrentUserBySession accs sid = None ->
        ObjectId_isValid identifier = true ->
        String.length (ObjectId_hex identifier) = 24 ->
        isUserOwnerOfObject accs sid identifier = Some false)
  /\ (@isUserOwnerOfObject canonical_driver [Example.alice_owning] "session-1"
        (VStr "model") = Some true
      /\ ~ listed_in (own_fields (acc_data Example.alice_owning)) "model").
Proof.
  split; [|split; [|split]].
  - intros accs sid identifier u Hu Hd.
    exists (includes (json_text (acc_data u)) (searched_for identifier)). split.
    + apply isUserOwnerOfObject_text. rewrite Hu. unfold searched_text, JSON_stringify.
      destruct (acc_data u); try reflexivity. congruence.
    + apply includes_spec.
  - intros accs sid identifier u data h Hu Hd Hl Hs He.
    rewrite (isUserOwnerOfObject_text _ _ _ (json_text (VObj data))).
    + rewrite Hs. f_equal. now apply listed_is_contained.
    + rewrite Hu. unfold searched_text. now rewrite Hd.
  - intros accs sid identifier Hu Hv Hlen.
    rewrite (isUserOwnerOfObject_text _ _ _ (String dquote (String dquote EmptyString)))
      by now rewrite Hu.
    f_equal.
    destruct (includes _ (searched_for identifier)) eqn:E; [|reflexivity].
    apply includes_length in E. unfold searched_for, parse_identifier in E.
    rewrite Hv in E. unfold ObjectId_new in E. cbn [toString] in E.
    rewrite Hlen in E. simpl in E. lia.
  - split; [reflexivity|].
    intros (c & l & Hc & Hl). simpl in Hc. destruct Hc as [E|[]].
    injection E as _ <-. simpl in Hl. destruct Hl as [E|[]]. discriminate.
Qed.

End Ownership.

Lemma ownership_is_text_containment_witness :
  isUserOwnerOfObject [] "nobody" (VStr Example.idA) = Some false
  /\ isUserOwnerOfObject [Example.alice_owning] "session-1" (VStr Example.idA) = Some true.
Proof.
  split.
  - refine (proj1 (proj2 (proj2 (@ownership_is_text_containment canonical_driver)))
              [] "nobody" (VStr Example.idA) eq_refl eq_refl eq_refl).
  - refine (proj1 (proj2 (@ownership_is_text_containment canonical_driver))
              [Example.alice_owning] "session-1" (VStr Example.idA) Example.alice_owning
              _ Example.idA eq_refl eq_refl _ eq_refl eq_refl).
    exists "model", [VId Example.idA]. split; now left.
Defined.

(* ================================================================== *)
(** * What the driver writes *)
(* ================================================================== *)

Lemma value_induction (P : value -> Prop) :
  P VUndef -> P VNull -> (forall b, P (VBool b)) -> (forall n, P (VNum n)) ->
  (forall s, P (VStr s)) -> (forall h, P (VId h)) ->
  (forall l, Forall P l -> P (VArr l)) ->
  (forall o, Forall (fun kv => P (snd kv)) o -> P (VObj o)) ->
  forall v, P v.
Proof.
  intros Hu Hn Hb Hz Hs Hi Ha Ho.
  exact (fix go (v : value) : P v :=
           match v with
           | VUndef => Hu
           | VNull => Hn
           | VBool b => Hb b
           | VNum n => Hz n
           | VStr s => Hs s
           | VId h => Hi h
           | VArr l =>
               Ha l ((fix all (l : list value) : Forall P l :=
                        match l with
                        | [] => Forall_nil P
                        | x :: t => Forall_cons x (go x) (all t)
                        end) l)
           | VObj o =>
               Ho o ((fix all (o : fields) : Forall (fun kv => P (snd kv)) o :=
                        match o with
                        | [] => Forall_nil _
                        | kv :: t => Forall_cons kv (go (snd kv)) (all t)
                        end) o)
           end).
Qed.

Lemma bson_array (l : list value) : bson (VArr l) = VArr (map bson l).
Proof. reflexivity. Qed.

Lemma bson_object (o : fields) :
  bson (VObj o) = VObj (map (fun kv => (fst kv, bson (snd kv))) o).
Proof.
  simpl. f_equal. induction o as [|[k x] t IH]; simpl; [reflexivity | now rewrite IH].
Qed.

Lemma truthy_bson (v : value) : truthy (bson v) = truthy v.
Proof. destruct v; reflexivity. Qed.

Lemma nullish_bson (v : value) : nullish (bson v) = nullish v.
Proof. destruct v; reflexivity. Qed.

Lemma toString_bson (v : value) : v <> VUndef -> toString (bson v) = toString v.
Proof.
  induction v as [| |b|n|s|h|l IH|o IH] using value_induction; intros N;
    try reflexivity; try congruence.
  rewrite bson_array. cbn [toString]. f_equal.
  induction IH as [|x t Hx Ht IHt]; simpl; [reflexivity|].
  rewrite nullish_bson, IHt by discriminate. f_equal.
  destruct (nullish x) eqn:E; [reflexivity|].
  apply Hx. intros ->. discriminate.
Qed.

Lemma field_bson_fields (o : fields) (k : string) :
  field (map (fun kv => (fst kv, bson (snd kv))) o) k
  = match lookup k o with Some v => bson v | None => VUndef end.
Proof.
  unfold field. induction o as [|[k0 x] t IH]; simpl; [reflexivity|].
  destruct (String.eqb k k0); auto.
Qed.

Lemma strict_eq_bson (a b : value) :
  truthy a = true -> truthy b = true ->
  strict_eq (bson a) (bson b) = strict_eq a b.
Proof. destruct a, b; simpl; try discriminate; reflexivity. Qed.

(* ================================================================== *)
(** * Attaching a reference *)
(* ================================================================== *)

Lemma account_after_set (sid : string) (data : value) (accs : list account) (u : account) :
  getCurrentUserBySession accs sid = Some u ->
  getCurrentUserBySession (set_account_data sid data accs) sid
  = Some (mkAccount (acc_sessionID u) (acc_username u) (acc_role u) (bson data)).
Proof.
  unfold getCurrentUserBySession.
  induction accs as [|a t IH]; simpl; [discriminate|].
  destruct (String.eqb (acc_sessionID a) sid) eqn:E; simpl.
  - intros [= <-]. now rewrite E.
  - rewrite E. exact IH.
Qed.




Section Attaching.
Context `{ObjectIdDriver}.



End Attaching.



(* ================================================================== *)
(** * The filtered search *)
(* ================================================================== *)


Lemma read_filter_terms (terms : list string) :
  read_filter (VArr (map VStr terms)) = Some (map toLowerCase terms).
Proof.
  unfold read_filter. simpl truthy. cbv iota.
  induction terms as [|t ts IH]; simpl; [reflexivity | now rewrite IH].
Qed.

Lemma read_filter_absent : read_filter VUndef = Some [EmptyString].
Proof. reflexivity. Qed.

Lemma matches_filter_all (asText : string) (filter_ : list string) :
  filter_ <> [] ->
  matches_filter asText filter_ = forallb (includes asText) filter_.
Proof.
  induction filter_ as [|f rest IH]; [congruence|]. intros _.
  cbn [matches_filter forallb].
  destruct (includes asText f); [|reflexivity]. simpl.
  destruct rest as [|g rest']; [reflexivity|]. apply IH. discriminate.
Qed.

Lemma matches_filter_none (asText : string) : matches_filter asText [] = false.
Proof. reflexivity. Qed.

Section Searching.
Context `{ObjectIdDriver} `{Resolving}.














End Searching.



(* ================================================================== *)
(** * The normalizer: what it leaves alone *)
(* ================================================================== *)

Lemma dup_free_Set_from (l seen : list value) :
  dup_free (Set_from seen l) = true
  /\ forall y s, In y (Set_from seen l) -> In s seen -> same_value_zero y s = false.
Proof.
  revert seen. induction l as [|x t IH]; intros seen; simpl.
  - split; [reflexivity | contradiction].
  - destruct (existsb (same_value_zero x) seen) eqn:E.
    + apply IH.
    + destruct (IH (x :: seen)) as [Hd Hs]. split.
      * simpl. rewrite Hd, andb_true_r. apply negb_true_iff.
        destruct (existsb (same_value_zero x) (Set_from (x :: seen) t)) eqn:Ex;
          [|reflexivity].
        apply existsb_exists in Ex. destruct Ex as (y & Hy & Hxy).
        unfold same_value_zero in *. rewrite strict_eq_sym in Hxy.
        rewrite (Hs y x Hy) in Hxy by now left. discriminate.
      * intros y s [<-|Hy] Hin.
        -- destruct (same_value_zero x s) eqn:Exs; [|reflexivity].
           assert (existsb (same_value_zero x) seen = true) as C
             by (apply existsb_exists; eauto).
           congruence.
        -- apply Hs; [assumption | now right].
Qed.

Lemma dup_free_Set_dedup (l : list value) : dup_free (Set_dedup l) = true.
Proof. apply dup_free_Set_from. Qed.

Lemma existsb_filter_false {A : Type} (p q : A -> bool) (l : list A) :
  existsb p l = false -> existsb p (filter q l) = false.
Proof.
  induction l as [|x t IH]; simpl; [reflexivity|].
  intros E. apply orb_false_iff in E. destruct E as [E1 E2].
  destruct (q x); simpl; [rewrite E1|]; auto.
Qed.

Lemma dup_free_filter (q : value -> bool) (l : list value) :
  dup_free l = true -> dup_free (filter q l) = true.
Proof.
  induction l as [|x t IH]; simpl; [reflexivity|].
  intros E. apply andb_true_iff in E. destruct E as [E1 E2].
  destruct (q x); simpl; auto.
  rewrite IH by assumption. rewrite andb_true_r.
  apply negb_true_iff in E1. apply negb_true_iff. now apply existsb_filter_false.
Qed.

Lemma dup_free_bson (l : list value) :
  Forall (fun x => truthy x = true) l -> dup_free (map bson l) = dup_free l.
Proof.
  induction 1 as [|x t Hx Ht IH]; simpl; [reflexivity|].
  rewrite IH. f_equal. f_equal. rewrite existsb_map_comp.
  clear IH. induction Ht as [|y t' Hy Ht' IH']; simpl; [reflexivity|].
  unfold same_value_zero in *. now rewrite strict_eq_bson, IH' by assumption.
Qed.

Lemma strict_eq_refl_primitive (a : value) : is_primitive a = true -> strict_eq a a = true.
Proof.
  destruct a; simpl; try discriminate; intros _; auto using Z.eqb_refl, String.eqb_refl.
  destruct b; reflexivity.
Qed.

Lemma dup_free_NoDup (l : list value) :
  dup_free l = true -> Forall (fun x => is_primitive x = true) l -> NoDup l.
Proof.
  induction l as [|x t IH]; simpl; intros E F; [constructor|].
  apply andb_true_iff in E. destruct E as [E1 E2].
  inversion F as [|? ? Hx Ht]; subst.
  constructor; [|auto].
  intros Hin. apply negb_true_iff in E1.
  assert (existsb (same_value_zero x) t = true) as C.
  { apply existsb_exists. exists x. split; [assumption|].
    now apply strict_eq_refl_primitive. }
  congruence.
Qed.

Lemma filter_truthy_all (l : list value) :
  Forall (fun x => truthy x = true) (filter truthy l).
Proof.
  apply Forall_forall. intros x Hx. apply filter_In in Hx. tauto.
Qed.

Section Normalizing.
Context `{ObjectIdDriver}.
Variable _digId : string.

Lemma add_roles_frame (b : bool) (nr : value) (f g : fields) (p : string) :
  add_roles _digId b nr f p = Some g ->
  (forall k, k <> "roles" -> k <> p -> lookup k g = lookup k f)
  /\ (NoDup (map fst f) -> NoDup (map fst g)).
Proof.
  unfold add_roles. destruct (truthy (field f p)); simpl.
  - destruct (field f "roles"); try discriminate. intros [= <-]. split.
    + intros k N1 N2. now rewrite !lookup_assign_neq by auto.
    + auto using NoDup_assign.
  - intros [= <-]. auto.
Qed.

Lemma merge_roles_frame (nr : value) (f g : fields) :
  merge_roles _digId nr f = Some g ->
  (forall k, ~ In k ["roles"; "institution_role"; "person_role"] ->
             lookup k g = lookup k f)
  /\ (NoDup (map fst f) -> NoDup (map fst g)).
Proof.
  unfold merge_roles.
  destruct (if negb (is_undefined (field f "roles")) then field f "roles" else VObj [])
    as [| | | | | | |roles]; try discriminate.
  destruct (add_roles _ _ _ _ "institution_role") as [f1|] eqn:E1; [|discriminate].
  simpl bind. intros E2.
  apply add_roles_frame in E1, E2. destruct E1 as [L1 N1], E2 as [L2 N2]. split.
  - intros k Hk. simpl in Hk.
    rewrite L2, L1 by (intros ->; tauto).
    apply lookup_assign_neq. intros ->. tauto.
  - auto using NoDup_assign.
Qed.

Lemma drop_null_roles_frame (f g : fields) :
  drop_null_roles _digId f = Some g ->
  (forall k, k <> "roles" -> lookup k g = lookup k f)
  /\ (NoDup (map fst f) -> NoDup (map fst g)).
Proof.
  unfold drop_null_roles.
  destruct (field f "roles") as [| | | | | | |roles]; try (intros [= <-]; now auto).
  destruct (truthy (field roles _digId)); [|intros [= <-]; now auto].
  destruct (field roles _digId); try discriminate. intros [= <-]. split.
  - intros k N. now apply lookup_assign_neq.
  - auto using NoDup_assign.
Qed.

(** The steps of [addAndGetId_entity], read off a result. *)
Lemma addAndGetId_entity_steps (add_to_coll : string) (nr : value) (p : fields)
  (d d' : db) (ref : value) :
  addAndGetId_entity _digId add_to_coll nr (VObj p) d = Some (ref, d') ->
  let valid := ObjectId_isValid (field p "_id") in
  let q := if valid then ObjectId_new (field p "_id") else VId (ObjectId_fresh (next_id d)) in
  exists field2 field3,
    (if existsb (String.eqb add_to_coll) ["person"; "institution"]
     then merge_roles _digId nr (merged_payload d add_to_coll p)
     else Some (merged_payload d add_to_coll p)) = Some field2
    /\ drop_null_roles _digId field2 = Some field3
    /\ ref = VObj [("_id", q)]
    /\ d' = mkDb (set_docs add_to_coll
                    (upsert q (remove_key "_id" field3) (docs (objects d) add_to_coll))
                    (objects d))
                 (if valid then next_id d else S (next_id d)).
Proof.
  unfold addAndGetId_entity, merged_payload.
  destruct (ObjectId_isValid (field p "_id")); cbv zeta;
    match goal with
    | |- context [bind ?m _] => destruct m as [field2|] eqn:E2; [|discriminate]
    end;
    simpl bind;
    (destruct (drop_null_roles _digId field2) as [field3|] eqn:E3; [|discriminate]);
    simpl bind; intros [= <- <-]; exists field2, field3; auto.
Qed.

End Normalizing.

(* ================================================================== *)
(** * The normalizer: the upsert *)
(* ================================================================== *)

Lemma doc_id_apply_set (upd : fields) (e : value) :
  ~ In "_id" (map fst upd) -> doc_id (apply_set upd e) = doc_id e.
Proof.
  intros N. unfold doc_id, apply_set, field. cbn [own_fields].
  now rewrite lookup_fold_assign_absent.
Qed.

Lemma lookup_apply_set (upd : fields) (e : value) (k : string) :
  NoDup (map fst upd) ->
  lookup k (own_fields (apply_set upd e))
  = match lookup k upd with Some v => Some (bson v) | None => lookup k (own_fields e) end.
Proof. intros N. unfold apply_set. cbn [own_fields]. now apply lookup_fold_assign. Qed.

Lemma find_existsb {A : Type} (p : A -> bool) (l : list A) :
  existsb p l = match find p l with Some _ => true | None => false end.
Proof. induction l as [|x t IH]; simpl; [reflexivity|]. destruct (p x); auto. Qed.

Lemma find_update_first (p : value -> bool) (f : value -> value) (l : list value)
  (e : value) :
  find p l = Some e -> p (f e) = true ->
  find p (update_first p f l) = Some (f e)
  /\ List.length (update_first p f l) = List.length l.
Proof.
  induction l as [|x t IH]; simpl; [discriminate|].
  destruct (p x) eqn:E.
  - intros [= ->] Hf. simpl. now rewrite Hf.
  - intros Hfind Hf. simpl. rewrite E. destruct (IH Hfind Hf) as [-> ->]. auto.
Qed.

Lemma find_app_new {A : Type} (p : A -> bool) (l : list A) (x : A) :
  find p l = None -> p x = true -> find p (l ++ [x]) = Some x.
Proof.
  induction l as [|y t IH]; simpl; intros Hn Hx.
  - now rewrite Hx.
  - destruct (p y); [discriminate | auto].
Qed.

Lemma upsert_found (q : value) (upd : fields) (l : list value) (e : value) :
  findOne q l = Some e -> ~ In "_id" (map fst upd) ->
  findOne q (upsert q upd l) = Some (apply_set upd e)
  /\ List.length (upsert q upd l) = List.length l.
Proof.
  unfold findOne, upsert. intros Hf N. rewrite find_existsb, Hf.
  apply find_update_first; [assumption|].
  unfold matches_id. rewrite doc_id_apply_set by assumption.
  apply find_some in Hf. tauto.
Qed.

Lemma upsert_new (q : value) (upd : fields) (l : list value) :
  findOne q l = None ->
  upsert q upd l = l ++ [apply_set upd (VObj [("_id", q)])].
Proof. unfold findOne, upsert. intros Hf. now rewrite find_existsb, Hf. Qed.

Lemma upsert_stores (h : string) (upd : fields) (l : list value) :
  ~ In "_id" (map fst upd) ->
  exists base, findOne (VId h) (upsert (VId h) upd l) = Some (apply_set upd base).
Proof.
  intros N. destruct (findOne (VId h) l) as [e|] eqn:E.
  - exists e. now apply upsert_found.
  - exists (VObj [("_id", VId h)]). rewrite upsert_new by assumption.
    apply find_app_new; [exact E|].
    unfold matches_id. rewrite doc_id_apply_set by assumption.
    unfold doc_id. simpl. apply String.eqb_refl.
Qed.

Lemma not_in_remove_key (k : string) (o : fields) : ~ In k (map fst (remove_key k o)).
Proof. rewrite keys_remove_key. tauto. Qed.

Section Persisting.
Context `{ObjectIdDriver}.
Variable _digId : string.

(** What the steps before the upsert leave of the merged payload. *)
Lemma addAndGetId_entity_payload (add_to_coll : string) (nr : value) (p : fields)
  (d : db) (field2 field3 : fields) :
  (if existsb (String.eqb add_to_coll) ["person"; "institution"]
   then merge_roles _digId nr (merged_payload d add_to_coll p)
   else Some (merged_payload d add_to_coll p)) = Some field2 ->
  drop_null_roles _digId field2 = Some field3 ->
  (forall k, ~ In k normalizer_keys ->
     lookup k (remove_key "_id" field3) = lookup k (merged_payload d add_to_coll p))
  /\ (NoDup (map fst (merged_payload d add_to_coll p)) ->
      NoDup (map fst (remove_key "_id" field3))).
Proof.
  intros E2 E3. apply drop_null_roles_frame in E3. destruct E3 as [L3 N3].
  assert ((forall k, ~ In k ["roles"; "institution_role"; "person_role"] ->
             lookup k field2 = lookup k (merged_payload d add_to_coll p))
          /\ (NoDup (map fst (merged_payload d add_to_coll p)) -> NoDup (map fst field2)))
    as [L2 N2].
  { destruct (existsb _ _).
    - now apply merge_roles_frame in E2.
    - injection E2 as <-. auto. }
  split.
  - intros k Hk. unfold normalizer_keys in Hk. simpl in Hk.
    rewrite lookup_remove_key_neq, L3, L2; simpl; intuition.
  - intros N. auto using NoDup_remove_key.
Qed.

Lemma addAndGetId_entity_frame (add_to_coll : string) (nr : value) (v : value)
  (d d' : db) (ref : value) :
  addAndGetId_entity _digId add_to_coll nr v d = Some (ref, d') ->
  (forall c, c <> add_to_coll -> docs (objects d') c = docs (objects d) c)
  /\ next_id d <= next_id d'.
Proof.
  destruct v; try discriminate. intros E.
  apply addAndGetId_entity_steps in E.
  destruct E as (f2 & f3 & _ & _ & _ & ->). simpl. split.
  - intros c N. now apply docs_set_docs_neq.
  - destruct (ObjectId_isValid _); lia.
Qed.

Lemma addAndGetId_entity_update (add_to_coll : string) (nr : value) (p : fields)
  (d d' : db) (ref e : value) :
  NoDup (map fst p) -> wf_object e ->
  ObjectId_isValid (field p "_id") = true ->
  findOne (ObjectId_new (field p "_id")) (docs (objects d) add_to_coll) = Some e ->
  addAndGetId_entity _digId add_to_coll nr (VObj p) d = Some (ref, d') ->
  ref = VObj [("_id", ObjectId_new (field p "_id"))]
  /\ List.length (docs (objects d') add_to_coll) = List.length (docs (objects d) add_to_coll)
  /\ exists e',
       findOne (ObjectId_new (field p "_id")) (docs (objects d') add_to_coll) = Some e'
       /\ forall k, ~ In k normalizer_keys ->
            field (own_fields e') k = written (merged (own_fields e) p k).
Proof.
  intros Np We Hv Hf E. apply addAndGetId_entity_steps in E.
  rewrite Hv in E. cbv zeta in E.
  destruct E as (f2 & f3 & E2 & E3 & -> & ->).
  destruct (addAndGetId_entity_payload _ _ _ _ _ _ E2 E3) as [L N].
  assert (merged_payload d add_to_coll p = spread (own_fields e) p) as Hm
    by (unfold merged_payload; now rewrite Hv, Hf).
  rewrite Hm in L, N. specialize (N (NoDup_spread _ _ We)).
  cbn [objects]. rewrite docs_set_docs_eq.
  destruct (upsert_found _ (remove_key "_id" f3) _ _ Hf (not_in_remove_key _ _))
    as [Hfound Hlen].
  split; [reflexivity|]. split; [exact Hlen|].
  exists (apply_set (remove_key "_id" f3) e). split; [exact Hfound|].
  intros k Hk. unfold field. rewrite lookup_apply_set by assumption.
  rewrite L, lookup_spread by assumption.
  unfold merged, written. destruct (lookup k p); [reflexivity|].
  destruct (lookup k (own_fields e)); reflexivity.
Qed.

Lemma addAndGetId_entity_create (add_to_coll : string) (nr : value) (p : fields)
  (d d' : db) (ref : value) :
  NoDup (map fst p) ->
  ObjectId_isValid (field p "_id") = false ->
  addAndGetId_entity _digId add_to_coll nr (VObj p) d = Some (ref, d') ->
  ref = VObj [("_id", VId (ObjectId_fresh (next_id d)))]
  /\ next_id d' = S (next_id d)
  /\ (findOne (VId (ObjectId_fresh (next_id d))) (docs (objects d) add_to_coll) = None ->
      exists e',
        docs (objects d') add_to_coll = docs (objects d) add_to_coll ++ [e']
        /\ doc_id e' = VId (ObjectId_fresh (next_id d))
        /\ forall k, ~ In k normalizer_keys ->
             field (own_fields e') k = written (lookup k p)).
Proof.
  intros Np Hv E. apply addAndGetId_entity_steps in E.
  rewrite Hv in E. cbv zeta in E.
  destruct E as (f2 & f3 & E2 & E3 & -> & ->).
  destruct (addAndGetId_entity_payload _ _ _ _ _ _ E2 E3) as [L N].
  assert (merged_payload d add_to_coll p = p) as Hm
    by (unfold merged_payload; now rewrite Hv).
  rewrite Hm in L, N. specialize (N Np).
  split; [reflexivity|]. split; [reflexivity|].
  intros Hfresh. cbn [objects]. rewrite docs_set_docs_eq, upsert_new by assumption.
  eexists. split; [reflexivity|]. split.
  - rewrite doc_id_apply_set by apply not_in_remove_key. reflexivity.
  - intros k Hk. unfold field. rewrite lookup_apply_set by assumption.
    rewrite L by assumption. unfold written.
    destruct (lookup k p) eqn:Ek; [reflexivity|].
    cbn [own_fields lookup].
    destruct (String.eqb k "_id") eqn:Eid; [|reflexivity].
    apply String.eqb_eq in Eid. subst k. unfold normalizer_keys in Hk. simpl in Hk. tauto.
Qed.

End Persisting.

(* ================================================================== *)
(** * The normalizer: nested institutions, and when it returns *)
(* ================================================================== *)

Section Nesting.
Context `{ObjectIdDriver}.
Variable _digId : string.

Lemma nested_loop_frame (insts : list value) :
  forall (i : nat) (p p1 : fields) (d d1 : db),
    nested_loop _digId insts i p d = Some (p1, d1) ->
    (forall k, k <> "person_institution_data" -> lookup k p1 = lookup k p)
    /\ (NoDup (map fst p) -> NoDup (map fst p1))
    /\ (forall c, c <> "institution" -> docs (objects d1) c = docs (objects d) c)
    /\ next_id d <= next_id d1.
Proof.
  induction insts as [|inst rest IH]; intros i p p1 d d1; cbn [nested_loop].
  - intros [= <- <-]. auto.
  - destruct (prop inst "value") as [v|]; [|discriminate]. simpl bind.
    destruct (negb (strict_eq v (VStr "add_new_institution"))); [apply IH|].
    destruct (index_get _ i) as [institution|]; [|discriminate]. simpl bind.
    destruct (addAndGetId_entity _ _ _ institution d) as [[ref d0]|] eqn:E;
      [|discriminate].
    simpl bind. cbn [fst snd]. intros E1.
    apply addAndGetId_entity_frame in E. destruct E as [Hdocs Hnext].
    apply IH in E1. destruct E1 as (L & N & D & X).
    split; [|split; [|split]].
    + intros k Hk. rewrite L by assumption. now apply lookup_assign_neq.
    + auto using NoDup_assign.
    + intros c Hc. now rewrite D, Hdocs.
    + lia.
Qed.

(** [addAndGetId] is [addAndGetId_entity] on the payload and the store
    that [addNestedInstitution] leaves. *)
Lemma addAndGetId_after_nesting (p : fields) (add_to_coll : string) (nr : value)
  (d d' : db) (ref : value) :
  addAndGetId _digId (VObj p) add_to_coll nr d = Some (ref, d') ->
  exists p1 d1,
    addAndGetId_entity _digId add_to_coll nr (VObj p1) d1 = Some (ref, d')
    /\ (forall k, k <> "person_institution_data" -> lookup k p1 = lookup k p)
    /\ (NoDup (map fst p) -> NoDup (map fst p1))
    /\ docs (objects d1) add_to_coll = docs (objects d) add_to_coll
    /\ next_id d <= next_id d1.
Proof.
  unfold addAndGetId. destruct (String.eqb add_to_coll "person") eqn:Ec.
  - apply String.eqb_eq in Ec. subst add_to_coll.
    unfold addNestedInstitution.
    destruct (field p "person_institution") as [| | | | | |insts|] eqn:Ei;
      simpl bind; try (intros E; exists p, d; now auto).
    destruct (nested_loop _digId insts 0 p d) as [[p1 d1]|] eqn:En; [|discriminate].
    simpl bind. cbn [fst snd]. intros E.
    apply nested_loop_frame in En. destruct En as (L & N & D & X).
    exists p1, d1. repeat split; auto. apply D. discriminate.
  - intros E. exists p, d. auto.
Qed.

Lemma add_roles_returns (b : bool) (nr : value) (f : fields) (p : string) :
  entry_array _digId f -> p <> "roles" ->
  exists g, add_roles _digId b nr f p = Some g /\ entry_array _digId g.
Proof.
  intros (roles & l & Hr & Hl) Np. unfold add_roles.
  destruct (truthy (field f p)); simpl.
  - rewrite Hr. eexists. split; [reflexivity|].
    eexists _, _. split.
    + rewrite field_assign_neq by congruence. apply field_assign_eq.
    + apply field_assign_eq.
  - exists f. split; [reflexivity|]. now exists roles, l.
Qed.

Lemma merge_roles_returns (nr : value) (f : fields) :
  roles_ok _digId (field f "roles") ->
  exists g, merge_roles _digId nr f = Some g /\ entry_array _digId g.
Proof.
  intros Hok. unfold merge_roles.
  assert (exists roles entry,
             (if negb (is_undefined (field f "roles")) then field f "roles" else VObj [])
             = VObj roles
             /\ (if truthy (field roles _digId) then field roles _digId else VArr [])
                = VArr entry) as (roles & entry & -> & ->).
  { destruct Hok as [->|(roles & -> & [Hu|(l & Hl)])].
    - exists [], []. split; reflexivity.
    - exists roles, []. rewrite Hu. split; reflexivity.
    - exists roles, l. rewrite Hl. split; reflexivity. }
  destruct (add_roles_returns (negb (is_undefined (field f "roles"))) nr
              (assign "roles" (VObj (assign _digId (VArr entry) roles)) f)
              "institution_role") as (f1 & -> & A1); [|discriminate|].
  { eexists _, _. split; apply field_assign_eq. }
  simpl bind. apply add_roles_returns; [assumption | discriminate].
Qed.

Lemma drop_null_roles_returns (f : fields) :
  roles_ok _digId (field f "roles") -> exists g, drop_null_roles _digId f = Some g.
Proof.
  intros Hok. unfold drop_null_roles.
  destruct Hok as [->|(roles & -> & [->|(l & ->)])]; simpl; eauto.
Qed.

Lemma entry_array_ok (f : fields) : entry_array _digId f -> roles_ok _digId (field f "roles").
Proof. intros (roles & l & -> & Hl). right. exists roles. eauto. Qed.

Lemma addAndGetId_entity_returns (add_to_coll : string) (nr : value) (p : fields)
  (d : db) :
  roles_ok _digId (field (merged_payload d add_to_coll p) "roles") ->
  exists r, addAndGetId_entity _digId add_to_coll nr (VObj p) d = Some r.
Proof.
  intros Hok.
  assert (exists f2,
             (if existsb (String.eqb add_to_coll) ["person"; "institution"]
              then merge_roles _digId nr (merged_payload d add_to_coll p)
              else Some (merged_payload d add_to_coll p)) = Some f2
             /\ roles_ok _digId (field f2 "roles")) as (f2 & E2 & Hok2).
  { destruct (existsb _ _).
    - destruct (merge_roles_returns nr _ Hok) as (g & -> & Hg).
      exists g. split; [reflexivity | now apply entry_array_ok].
    - eauto. }
  destruct (drop_null_roles_returns f2 Hok2) as (f3 & E3).
  revert E2. unfold addAndGetId_entity, merged_payload.
  destruct (ObjectId_isValid (field p "_id")); cbv zeta; intros ->;
    simpl bind; rewrite E3; simpl bind; eauto.
Qed.

(** C3. For a payload object, whatever the collection and the roles
    handed in: if the payload's identifier is valid and an entity is
    stored under it, the reference returned carries that identifier, no
    entity is added, and the stored entity afterwards has, under every
    key the normalizer does not itself write, the payload's value where
    the payload has the key and the value stored before where it has
    not.  If the identifier is missing or invalid, the reference carries
    an identifier minted by this call, and when the store has nothing
    under it, the collection gains exactly one entity, which has that
    identifier and the payload's values.  The call returns whenever the
    merged payload's role map is absent or well-formed and the payload
    brings no nested institutions. *)
Theorem normalizer_updates_or_creates (payload : fields) (add_to_coll : string)
  (new_roles : value) (d : db) :
  NoDup (map fst payload) ->
  (forall ref d' e,
      wf_object e ->
      ObjectId_isValid (field payload "_id") = true ->
      findOne (ObjectId_new (field payload "_id")) (docs (objects d) add_to_coll) = Some e ->
      addAndGetId _digId (VObj payload) add_to_coll new_roles d = Some (ref, d') ->
      ref = VObj [("_id", ObjectId_new (field payload "_id"))]
      /\ List.length (docs (objects d') add_to_coll)
         = List.length (docs (objects d) add_to_coll)
      /\ exists e',
           findOne (ObjectId_new (field payload "_id")) (docs (objects d') add_to_coll)
           = Some e'
           /\ forall k, ~ In k normalizer_keys ->
                field (own_fields e') k = written (merged (own_fields e) payload k))
  /\ (forall ref d',
        ObjectId_isValid (field payload "_id") = false ->
        addAndGetId _digId (VObj payload) add_to_coll new_roles d = Some (ref, d') ->
        exists n,
          next_id d <= n < next_id d'
          /\ ref = VObj [("_id", VId (ObjectId_fresh n))]
          /\ (findOne (VId (ObjectId_fresh n)) (docs (objects d) add_to_coll) = None ->
              exists e',
                docs (objects d') add_to_coll = docs (objects d) add_to_coll ++ [e']
                /\ doc_id e' = VId (ObjectId_fresh n)
                /\ forall k, ~ In k normalizer_keys ->
                     field (own_fields e') k = written (lookup k payload)))
  /\ (is_array (field payload "person_institution") = false ->
      roles_ok _digId (field (merged_payload d add_to_coll payload) "roles") ->
      exists r, addAndGetId _digId (VObj payload) add_to_coll new_roles d = Some r).
Proof.
  intros Np. split; [|split].
  - intros ref d' e We Hv Hf E.
    apply addAndGetId_after_nesting in E.
    destruct E as (p1 & d1 & E & L & N & D & X).
    assert (field p1 "_id" = field payload "_id") as Hid
      by (unfold field; now rewrite L by discriminate).
    destruct (addAndGetId_entity_update _digId add_to_coll new_roles p1 d1 d' ref e)
      as (Hr & Hl & e' & He' & Hk); auto; try (rewrite Hid, ?D; assumption).
    rewrite Hid, D in *. split; [assumption|]. split; [assumption|].
    exists e'. split; [assumption|].
    intros k Hn. rewrite Hk by assumption. unfold merged.
    rewrite L; [reflexivity|]. intros ->. apply Hn. unfold normalizer_keys. simpl. tauto.
  - intros ref d' Hv E.
    apply addAndGetId_after_nesting in E.
    destruct E as (p1 & d1 & E & L & N & D & X).
    assert (field p1 "_id" = field payload "_id") as Hid
      by (unfold field; now rewrite L by discriminate).
    destruct (addAndGetId_entity_create _digId add_to_coll new_roles p1 d1 d' ref)
      as (Hr & Hn & Hnew); auto; try (rewrite Hid; assumption).
    exists (next_id d1). split; [lia|]. split; [assumption|].
    rewrite <- D. intros Hfresh. destruct (Hnew Hfresh) as (e' & Hd & Hi & Hk).
    exists e'. split; [assumption|]. split; [assumption|].
    intros k Hnk. rewrite Hk by assumption.
    rewrite L; [reflexivity|]. intros ->. apply Hnk. unfold normalizer_keys. simpl. tauto.
  - intros Ha Hok. unfold addAndGetId.
    assert (addNestedInstitution _digId (VObj payload) d = Some (VObj payload, d)) as En.
    { unfold addNestedInstitution.
      destruct (field payload "person_institution"); try reflexivity. discriminate. }
    destruct (String.eqb add_to_coll "person").
    + rewrite En. simpl bind. cbn [fst snd]. now apply addAndGetId_entity_returns.
    + now apply addAndGetId_entity_returns.
Qed.

End Nesting.

Lemma normalizer_updates_or_creates_witness :
  VObj [("_id", VId Example.idA)] = VObj [("_id", ObjectId_new (field Example.tag_payload "_id"))]
  /\ List.length (docs (objects Example.tag_db_after) "tag")
     = List.length (docs (objects Example.tag_db) "tag")
  /\ exists e',
       findOne (ObjectId_new (field Example.tag_payload "_id"))
               (docs (objects Example.tag_db_after) "tag") = Some e'
       /\ forall k, ~ In k normalizer_keys ->
            field (own_fields e') k
            = written (merged [("_id", VId Example.idA); ("label", VStr "vase");
                               ("lang", VStr "en")]
                              Example.tag_payload k).
Proof.
  refine (proj1 (@normalizer_updates_or_creates canonical_driver Example.owner1
                   Example.tag_payload "tag" VUndef Example.tag_db _)
            (VObj [("_id", VId Example.idA)]) Example.tag_db_after
            (VObj [("_id", VId Example.idA); ("label", VStr "vase"); ("lang", VStr "en")])
            _ eq_refl eq_refl eq_refl).
  - repeat constructor; simpl; intuition discriminate.
  - unfold wf_object. repeat constructor; simpl; intuition discriminate.
Defined.

(* ================================================================== *)
(** * The normalizer: the owner's role entry *)
(* ================================================================== *)

Section Roles.
Context `{ObjectIdDriver}.
Variable _digId : string.

Lemma entry_deduped_truthy (f : fields) :
  entry_deduped _digId f -> entry_truthy _digId f.
Proof. intros (roles & l & Hr & Hl & _). exists roles. now rewrite Hl. Qed.

Lemma add_roles_entry (b : bool) (nr : value) (f g : fields) (p : string) :
  p <> "roles" ->
  add_roles _digId b nr f p = Some g ->
  entry_truthy _digId f ->
  (truthy (field f p) = true -> entry_deduped _digId g)
  /\ (truthy (field f p) = false -> g = f).
Proof.
  intros Np E (roles & Hr & Ht). unfold add_roles in E.
  rewrite (lookup_field _ _ _ Hr) in E.
  destruct (truthy (field f p)); simpl in E; injection E as <-.
  - split; [intros _ | discriminate].
    eexists _, _. split; [|split].
    + rewrite lookup_assign_neq by congruence. apply lookup_assign_eq.
    + apply field_assign_eq.
    + apply dup_free_Set_dedup.
  - split; [discriminate | reflexivity].
Qed.

Lemma merge_roles_entry (nr : value) (f g : fields) :
  merge_roles _digId nr f = Some g ->
  entry_truthy _digId g
  /\ (appends_roles f = true -> entry_deduped _digId g).
Proof.
  unfold merge_roles.
  destruct (if negb (is_undefined (field f "roles")) then field f "roles" else VObj [])
    as [| | | | | | |roles]; try discriminate.
  set (entry := if truthy (field roles _digId) then field roles _digId else VArr []).
  set (f1 := assign "roles" (VObj (assign _digId entry roles)) f).
  assert (entry_truthy _digId f1) as T1.
  { exists (assign _digId entry roles). split; [apply lookup_assign_eq|].
    rewrite field_assign_eq. unfold entry.
    destruct (truthy (field roles _digId)) eqn:E; [exact E | reflexivity]. }
  destruct (add_roles _ _ _ f1 "institution_role") as [g1|] eqn:E1; [|discriminate].
  simpl bind. intros E2.
  assert ("institution_role" <> "roles") as Ni by discriminate.
  assert ("person_role" <> "roles") as Np by discriminate.
  destruct (add_roles_entry _ _ _ _ _ Ni E1 T1) as [A1 B1].
  pose proof (proj1 (add_roles_frame _ _ _ _ _ _ E1)) as L1.
  assert (field f1 "institution_role" = field f "institution_role") as F1
    by (unfold f1; now rewrite field_assign_neq by discriminate).
  assert (field g1 "person_role" = field f "person_role") as F2.
  { unfold field at 1. rewrite L1 by discriminate. fold (field f1 "person_role").
    unfold f1. now rewrite field_assign_neq by discriminate. }
  assert (entry_truthy _digId g1) as T2.
  { destruct (truthy (field f1 "institution_role")) eqn:Ei.
    - now apply entry_deduped_truthy, A1.
    - now rewrite B1. }
  destruct (add_roles_entry _ _ _ _ _ Np E2 T2) as [A2 B2].
  rewrite F2 in A2, B2. rewrite F1 in A1, B1.
  unfold appends_roles.
  destruct (truthy (field f "person_role")).
  - split; [apply entry_deduped_truthy|]; auto.
  - rewrite B2 by reflexivity. split; [assumption|].
    rewrite orb_false_r. exact A1.
Qed.

Lemma drop_null_roles_entry (f g : fields) :
  drop_null_roles _digId f = Some g ->
  entry_truthy _digId f ->
  exists roles l,
    lookup "roles" f = Some (VObj roles)
    /\ field roles _digId = VArr l
    /\ lookup "roles" g = Some (VObj (assign _digId (VArr (filter truthy l)) roles)).
Proof.
  intros E (roles & Hr & Ht). unfold drop_null_roles in E.
  rewrite (lookup_field _ _ _ Hr), Ht in E.
  destruct (field roles _digId) as [| | | | | |l|] eqn:El; try discriminate.
  injection E as <-. exists roles, l. repeat split; auto. apply lookup_assign_eq.
Qed.

Lemma NoDup_merged_payload (d : db) (add_to_coll : string) (p : fields) :
  NoDup (map fst p) -> wf_store (objects d) ->
  NoDup (map fst (merged_payload d add_to_coll p)).
Proof.
  intros Np W. unfold merged_payload.
  destruct (ObjectId_isValid _); [|assumption].
  destruct (findOne _ _) as [e|] eqn:E; [|assumption].
  apply NoDup_spread. apply (W add_to_coll). unfold findOne in E.
  now apply find_some in E.
Qed.

Lemma addAndGetId_entity_roles (add_to_coll : string) (nr : value) (p : fields)
  (d d' : db) (ref : value) :
  add_to_coll = "person" \/ add_to_coll = "institution" ->
  NoDup (map fst (merged_payload d add_to_coll p)) ->
  addAndGetId_entity _digId add_to_coll nr (VObj p) d = Some (ref, d') ->
  exists h e' roles l,
    ref = reference h
    /\ findOne (VId h) (docs (objects d') add_to_coll) = Some e'
    /\ field (own_fields e') "roles" = VObj roles
    /\ field roles _digId = VArr l
    /\ Forall (fun x => truthy x = true) l
    /\ (appends_roles (merged_payload d add_to_coll p) = true -> dup_free l = true).
Proof.
  intros Hc Nm E. apply addAndGetId_entity_steps in E. cbv zeta in E.
  destruct E as (f2 & f3 & E2 & E3 & -> & ->).
  destruct (addAndGetId_entity_payload _ _ _ _ _ _ _ E2 E3) as [_ N].
  specialize (N Nm).
  replace (existsb (String.eqb add_to_coll) ["person"; "institution"]) with true in E2
    by (destruct Hc as [-> | ->]; reflexivity).
  apply merge_roles_entry in E2. destruct E2 as [T2 D2].
  destruct (drop_null_roles_entry _ _ E3 T2) as (roles & l & Hr & Hl & Hr3).
  assert (exists h, (if ObjectId_isValid (field p "_id")
                     then ObjectId_new (field p "_id")
                     else VId (ObjectId_fresh (next_id d))) = VId h) as (h & ->)
    by (destruct (ObjectId_isValid _); unfold ObjectId_new; eauto).
  destruct (upsert_stores h (remove_key "_id" f3) (docs (objects d) add_to_coll)
              (not_in_remove_key _ _)) as (base & Hfind).
  exists h, (apply_set (remove_key "_id" f3) base),
    (map (fun kv => (fst kv, bson (snd kv))) (assign _digId (VArr (filter truthy l)) roles)),
    (map bson (filter truthy l)).
  split; [reflexivity|]. split.
  { cbn [objects]. now rewrite docs_set_docs_eq. }
  split.
  { unfold field. rewrite lookup_apply_set by assumption.
    rewrite lookup_remove_key_neq by discriminate. rewrite Hr3. apply bson_object. }
  split.
  { rewrite field_bson_fields, lookup_assign_eq. apply bson_array. }
  split.
  { apply Forall_forall. intros x Hx. apply in_map_iff in Hx.
    destruct Hx as (y & <- & Hy). rewrite truthy_bson.
    apply filter_In in Hy. tauto. }
  intros Ha. rewrite dup_free_bson by apply filter_truthy_all.
  apply dup_free_filter.
  destruct (D2 Ha) as (roles' & l' & Hr' & Hl' & Hd').
  rewrite Hr in Hr'. injection Hr' as <-. rewrite Hl in Hl'. now injection Hl' as <-.
Qed.

Lemma merged_payload_after_nesting (d d1 : db) (add_to_coll : string) (p p1 : fields)
  (k : string) :
  NoDup (map fst p) -> NoDup (map fst p1) ->
  (forall k, k <> "person_institution_data" -> lookup k p1 = lookup k p) ->
  docs (objects d1) add_to_coll = docs (objects d) add_to_coll ->
  k <> "person_institution_data" ->
  field (merged_payload d1 add_to_coll p1) k = field (merged_payload d add_to_coll p) k.
Proof.
  intros Np Np1 L D Hk. unfold merged_payload.
  assert (field p1 "_id" = field p "_id") as ->
    by (unfold field; now rewrite L by discriminate).
  rewrite D. unfold field.
  destruct (ObjectId_isValid _); [|now rewrite L].
  destruct (findOne _ _); [|now rewrite L].
  rewrite !lookup_spread by assumption. unfold merged. now rewrite L.
Qed.

(** After a person or institution normalization the stored entity's
    entry for the owner is a list without falsy entries; it has no
    duplicates when the normalization appended roles. *)
Lemma roles_entry_after_normalization (payload : fields) (add_to_coll : string)
  (new_roles : value) (d d' : db) (ref : value) :
  add_to_coll = "person" \/ add_to_coll = "institution" ->
  NoDup (map fst payload) ->
  wf_store (objects d) ->
  addAndGetId _digId (VObj payload) add_to_coll new_roles d = Some (ref, d') ->
  exists h e' roles l,
    ref = reference h
    /\ findOne (VId h) (docs (objects d') add_to_coll) = Some e'
    /\ field (own_fields e') "roles" = VObj roles
    /\ field roles _digId = VArr l
    /\ Forall (fun x => truthy x = true) l
    /\ (appends_roles (merged_payload d add_to_coll payload) = true ->
        dup_free l = true
        /\ (Forall (fun x => is_primitive x = true) l -> NoDup l)).
Proof.
  intros Hc Np W E.
  apply addAndGetId_after_nesting in E.
  destruct E as (p1 & d1 & E & L & N & D & X).
  assert (NoDup (map fst (merged_payload d1 add_to_coll p1))) as Nm.
  { unfold merged_payload.
    destruct (ObjectId_isValid _); [|auto].
    destruct (findOne _ _) as [e|] eqn:Ef; [|auto].
    apply NoDup_spread. apply (W add_to_coll). rewrite <- D.
    unfold findOne in Ef. now apply find_some in Ef. }
  destruct (addAndGetId_entity_roles _ _ _ _ _ _ Hc Nm E)
    as (h & e' & roles & l & Hr & He & Hro & Hl & Ht & Hd).
  exists h, e', roles, l. repeat split; auto.
  - apply Hd. unfold appends_roles in *.
    now rewrite !(merged_payload_after_nesting d d1 add_to_coll payload p1)
      by (auto; discriminate).
  - intros Hp. apply dup_free_NoDup; [|assumption].
    apply Hd. unfold appends_roles in *.
    now rewrite !(merged_payload_after_nesting d d1 add_to_coll payload p1)
      by (auto; discriminate).
Qed.

End Roles.

(** C2, the claim as stated fails: a person payload that brings its own
    role map and no role field is stored with the owner's entry as it
    came, duplicates included. *)
Lemma roles_entry_can_keep_duplicates :
  addAndGetId Example.owner1 (VObj Example.ada_with_roles) "person" VUndef Example.empty_db
  = Some (reference Example.ada, Example.ada_with_roles_stored)
  /\ (exists e roles,
        findOne (VId Example.ada) (docs (objects Example.ada_with_roles_stored) "person")
        = Some e
        /\ field (own_fields e) "roles" = VObj roles
        /\ field roles Example.owner1 = VArr [VStr "A"; VStr "A"])
  /\ dup_free [VStr "A"; VStr "A"] = false
  /\ ~ NoDup [VStr "A"; VStr "A"].
Proof.
  split; [reflexivity|]. split; [|split; [reflexivity|]].
  - eexists _, _. repeat split; reflexivity.
  - intros N. inversion N as [|? ? Hn _]. apply Hn. now left.
Qed.

(* ================================================================== *)
(** * Further statements: types of a submitted service *)
(* ================================================================== *)

Lemma lower_ascii_idempotent (c : ascii) : lower_ascii (lower_ascii c) = lower_ascii c.
Proof.
  destruct c as [[] [] [] [] [] [] [] []]; reflexivity.
Qed.

Lemma toLowerCase_idempotent (s : string) : toLowerCase (toLowerCase s) = toLowerCase s.
Proof.
  induction s as [|c s IH]; simpl; [reflexivity|].
  now rewrite lower_ascii_idempotent, IH.
Qed.

(** X1.  [mapTypes] is idempotent, does not depend on the case of the
    letters, gives lower case, and never gives one of the three names
    it replaces. *)
Theorem mapTypes_canonical (resType : string) :
  mapTypes (mapTypes resType) = mapTypes resType
  /\ mapTypes (toLowerCase resType) = mapTypes resType
  /\ toLowerCase (mapTypes resType) = mapTypes resType
  /\ ~ In (mapTypes resType) ["sound"; "picture"; "3d"].
Proof.
  unfold mapTypes. rewrite toLowerCase_idempotent.
  destruct (String.eqb_spec (toLowerCase resType) "sound") as [E1|N1].
  { repeat split; try reflexivity. simpl. intuition discriminate. }
  destruct (String.eqb_spec (toLowerCase resType) "picture") as [E2|N2].
  { repeat split; try reflexivity. simpl. intuition discriminate. }
  destruct (String.eqb_spec (toLowerCase resType) "3d") as [E3|N3].
  { repeat split; try reflexivity. simpl. intuition discriminate. }
  rewrite toLowerCase_idempotent.
  destruct (String.eqb_spec (toLowerCase resType) "sound"); [contradiction|].
  destruct (String.eqb_spec (toLowerCase resType) "picture"); [contradiction|].
  destruct (String.eqb_spec (toLowerCase resType) "3d"); [contradiction|].
  repeat split; try reflexivity.
  simpl. intuition congruence.
Qed.

(* ================================================================== *)
(** * Removal *)
(* ================================================================== *)

Lemma deleteOne_incl (q : value) (l : list value) (d : value) :
  In d (deleteOne q l) -> In d l.
Proof.
  induction l as [|x t IH]; simpl; [tauto|].
  destruct (matches_id q x); simpl; intuition.
Qed.

Lemma deleteOne_keeps (q : value) (l : list value) (d : value) :
  In d l -> In d (deleteOne q l) \/ matches_id q d = true.
Proof.
  induction l as [|x t IH]; simpl; [tauto|].
  intros [<-|Hin].
  - destruct (matches_id q x) eqn:E; simpl; auto.
  - destruct (matches_id q x) eqn:E; simpl; auto.
    destruct (IH Hin); auto.
Qed.

Lemma deleteOne_length (q : value) (l : list value) :
  List.length l <= S (List.length (deleteOne q l)).
Proof.
  induction l as [|x t IH]; simpl; [lia|].
  destruct (matches_id q x); simpl; lia.
Qed.

Lemma set_account_data_sessions (sid : string) (data : value) (accs : list account) :
  map acc_sessionID (set_account_data sid data accs) = map acc_sessionID accs
  /\ map acc_username (set_account_data sid data accs) = map acc_username accs
  /\ map acc_role (set_account_data sid data accs) = map acc_role accs.
Proof.
  induction accs as [|a t IH]; simpl; [auto|].
  destruct (String.eqb (acc_sessionID a) sid); simpl; [auto|].
  destruct IH as (-> & -> & ->). auto.
Qed.

Lemma set_account_data_others (sid : string) (data : value) (accs : list account)
  (a : account) :
  In a accs -> acc_sessionID a <> sid -> In a (set_account_data sid data accs).
Proof.
  induction accs as [|x t IH]; simpl; [tauto|].
  intros [<-|Hin] Hne.
  - destruct (String.eqb_spec (acc_sessionID x) sid); [contradiction|]. now left.
  - destruct (String.eqb (acc_sessionID x) sid); simpl; auto.
Qed.

Section Removal.
Context `{ObjectIdDriver}.

(** X2.  Whenever [removeObjectFromCollection] answers with something
    else than [{ status: 'ok' }], the accounts are as they were.  The
    objects repository is as it was too, but in one case: the store
    reported the deletion and did not report the update of the account;
    then the answer is [{ status: 'error' }] and the document is
    deleted. *)
Theorem remove_without_ok_keeps_accounts (st : store) (accs : list account)
  (req : request) (delete_ok update_ok : bool)
  (st' : store) (accs' : list account) (r : value) :
  removeObjectFromCollection st accs req delete_ok update_ok = (st', accs', Sent r) ->
  r <> VObj status_ok ->
  accs' = accs
  /\ (st' = st
      \/ (delete_ok = true /\ update_ok = false /\ r = VObj status_error
          /\ st' = set_docs (toLowerCase (params_collection req))
                    (deleteOne (parse_identifier (VStr (params_identifier req)))
                       (docs st (toLowerCase (params_collection req)))) st)).
Proof.
  unfold removeObjectFromCollection.
  destruct (getCurrentUserBySession accs (sessionID req)) as [u|].
  2:{ intros E _. inversion E. auto. }
  destruct (negb (truthy (acc_username u)) || negb (truthy (body_username req))
            || negb (strict_eq (body_username req) (acc_username u))).
  { intros E _. inversion E. auto. }
  destruct (Object_values (acc_data u)) as [values|]; [|discriminate].
  destruct (existsb nullish (fold_left js_concat values [])); [discriminate|].
  destruct (negb _).
  { intros E _. inversion E. auto. }
  destruct delete_ok; cbn [negb].
  2:{ intros E _. inversion E. auto. }
  destruct (field (own_fields (acc_data u)) (toLowerCase (params_collection req)));
    try discriminate.
  destruct update_ok; intros E Hr; inversion E; subst; [contradiction|].
  split; [reflexivity|]. right. auto.
Qed.

(** X3.  [removeObjectFromCollection] touches the objects repository
    only when the session has an account, the body names that account's
    username, and the identifier's string is among the flattened values
    of the account's [data]. *)
Theorem remove_only_for_listed_owner (st : store) (accs : list account) (req : request)
  (delete_ok update_ok : bool) (st' : store) (accs' : list account) (o : outcome) :
  removeObjectFromCollection st accs req delete_ok update_ok = (st', accs', o) ->
  st' <> st ->
  exists u values,
    getCurrentUserBySession accs (sessionID req) = Some u
    /\ truthy (body_username req) = true
    /\ strict_eq (body_username req) (acc_username u) = true
    /\ Object_values (acc_data u) = Some values
    /\ In (toString (parse_identifier (VStr (params_identifier req))))
          (map toString (fold_left js_concat values [])).
Proof.
  unfold removeObjectFromCollection.
  destruct (getCurrentUserBySession accs (sessionID req)) as [u|].
  2:{ intros E N. inversion E; subst. contradiction. }
  destruct (truthy (acc_username u)); simpl.
  2:{ intros E N. inversion E; subst. contradiction. }
  destruct (truthy (body_username req)) eqn:T; simpl.
  2:{ intros E N. inversion E; subst. contradiction. }
  destruct (strict_eq (body_username req) (acc_username u)) eqn:U; simpl.
  2:{ intros E N. inversion E; subst. contradiction. }
  destruct (Object_values (acc_data u)) as [values|] eqn:V.
  2:{ intros E N. inversion E; subst. contradiction. }
  destruct (existsb nullish (fold_left js_concat values [])).
  { intros E N. inversion E; subst. contradiction. }
  destruct (find _ _) as [s|] eqn:F.
  2:{ simpl. intros E N. inversion E; subst. contradiction. }
  destruct (negb _).
  { intros E N. inversion E; subst. contradiction. }
  intros _ _. exists u, values. repeat split; auto.
  apply find_some in F. destruct F as [Hin Heq].
  apply String.eqb_eq in Heq. now subst s.
Qed.

(** X4.  Whatever the outcome, [removeObjectFromCollection] leaves the
    other collections as they are, adds no document, removes at most one
    document, and only one whose [_id] is the identifier; it leaves the
    session, username and role of every account and the accounts of the
    other sessions as they are. *)
Theorem remove_frame (st : store) (accs : list account) (req : request)
  (delete_ok update_ok : bool) (st' : store) (accs' : list account) (o : outcome) :
  removeObjectFromCollection st accs req delete_ok update_ok = (st', accs', o) ->
  (forall c, c <> toLowerCase (params_collection req) -> docs st' c = docs st c)
  /\ (forall c d, In d (docs st' c) -> In d (docs st c))
  /\ (forall c d, In d (docs st c) ->
        In d (docs st' c)
        \/ (c = toLowerCase (params_collection req)
            /\ matches_id (parse_identifier (VStr (params_identifier req))) d = true))
  /\ (forall c, List.length (docs st c) <= S (List.length (docs st' c)))
  /\ map acc_sessionID accs' = map acc_sessionID accs
  /\ map acc_username accs' = map acc_username accs
  /\ map acc_role accs' = map acc_role accs
  /\ (forall a, In a accs -> acc_sessionID a <> sessionID req -> In a accs').
Proof.
  assert (Same : forall o0, (st, accs, o0) = (st', accs', o) ->
    (forall c, c <> toLowerCase (params_collection req) -> docs st' c = docs st c)
    /\ (forall c d, In d (docs st' c) -> In d (docs st c))
    /\ (forall c d, In d (docs st c) ->
          In d (docs st' c)
          \/ (c = toLowerCase (params_collection req)
              /\ matches_id (parse_identifier (VStr (params_identifier req))) d = true))
    /\ (forall c, List.length (docs st c) <= S (List.length (docs st' c)))
    /\ map acc_sessionID accs' = map acc_sessionID accs
    /\ map acc_username accs' = map acc_username accs
    /\ map acc_role accs' = map acc_role accs
    /\ (forall a, In a accs -> acc_sessionID a <> sessionID req -> In a accs')).
  { intros o0 E. inversion E; subst. repeat split; auto. }
  assert (Store : forall c,
    let st1 := set_docs (toLowerCase (params_collection req))
                 (deleteOne (parse_identifier (VStr (params_identifier req)))
                    (docs st (toLowerCase (params_collection req)))) st in
    (c <> toLowerCase (params_collection req) -> docs st1 c = docs st c)
    /\ (forall d, In d (docs st1 c) -> In d (docs st c))
    /\ (forall d, In d (docs st c) ->
          In d (docs st1 c)
          \/ (c = toLowerCase (params_collection req)
              /\ matches_id (parse_identifier (VStr (params_identifier req))) d = true))
    /\ List.length (docs st c) <= S (List.length (docs st1 c))).
  { intros c st1. unfold st1.
    destruct (String.eqb_spec c (toLowerCase (params_collection req))) as [->|N].
    - rewrite docs_set_docs_eq. repeat split.
      + intros N. contradiction.
      + apply deleteOne_incl.
      + intros d Hin.
        destruct (deleteOne_keeps (parse_identifier (VStr (params_identifier req))) _ _ Hin);
          auto.
      + apply deleteOne_length.
    - rewrite docs_set_docs_neq by exact N. repeat split; auto. }
  unfold removeObjectFromCollection.
  destruct (getCurrentUserBySession accs (sessionID req)) as [u|]; [|apply Same].
  destruct (negb (truthy (acc_username u)) || negb (truthy (body_username req))
            || negb (strict_eq (body_username req) (acc_username u))); [apply Same|].
  destruct (Object_values (acc_data u)) as [values|]; [|apply Same].
  destruct (existsb nullish (fold_left js_concat values [])); [apply Same|].
  destruct (negb _); [apply Same|].
  destruct delete_ok; cbn [negb]; [|apply Same].
  destruct (field (own_fields (acc_data u)) (toLowerCase (params_collection req))) eqn:F;
    try destruct update_ok;
    intros E; inversion E; subst; clear E;
    (split; [intros c; apply (Store c)|]);
    (split; [intros c; apply (Store c)|]);
    (split; [intros c; apply (Store c)|]);
    (split; [intros c; apply (Store c)|]);
    try (repeat split; auto; fail).
  pose proof (set_account_data_sessions (sessionID req)
    (VObj (assign (toLowerCase (params_collection req))
       (VArr (filter (fun id => negb (strict_eq id
          (VStr (toString (parse_identifier (VStr (params_identifier req))))))) l))
       (own_fields (acc_data u)))) accs) as (S1 & S2 & S3).
  repeat split; auto.
  intros a Hin Hne. now apply set_account_data_others.
Qed.

Lemma field_ownership (l : list (string * list string)) (c : string) :
  field (ownership l) c
  = match find (fun kv => String.eqb c (fst kv)) l with
    | Some kv => VArr (map VId (snd kv))
    | None => VUndef
    end.
Proof.
  unfold field. induction l as [|[k hs] t IH]; simpl; [reflexivity|].
  destruct (String.eqb c k); [reflexivity|exact IH].
Qed.

Lemma assign_same (k : string) (v : value) (o : fields) :
  lookup k o = Some v -> assign k v o = o.
Proof.
  induction o as [|[k' v'] t IH]; simpl; [discriminate|].
  destruct (String.eqb_spec k k') as [->|N].
  - intros E. now inversion E.
  - intros E. now rewrite IH.
Qed.

Lemma lookup_ownership (l : list (string * list string)) (c : string) :
  lookup c (ownership l)
  = match find (fun kv => String.eqb c (fst kv)) l with
    | Some kv => Some (VArr (map VId (snd kv)))
    | None => None
    end.
Proof.
  induction l as [|[k hs] t IH]; simpl; [reflexivity|].
  destruct (String.eqb c k); [reflexivity|exact IH].
Qed.

Lemma bson_ids (hs : list string) : map bson (map VId hs) = map VId hs.
Proof. induction hs as [|h t IH]; simpl; [reflexivity|now rewrite IH]. Qed.

Lemma bson_ownership (l : list (string * list string)) :
  bson (VObj (ownership l)) = VObj (ownership l).
Proof.
  rewrite bson_object. f_equal. unfold ownership. rewrite map_map.
  apply map_ext. intros [k hs]. cbn [fst snd]. now rewrite bson_array, bson_ids.
Qed.

Lemma set_account_data_same (sid : string) (data : value) (accs : list account)
  (u : account) :
  getCurrentUserBySession accs sid = Some u ->
  acc_data u = bson data ->
  set_account_data sid data accs = accs.
Proof.
  unfold getCurrentUserBySession.
  induction accs as [|a t IH]; simpl; [discriminate|].
  destruct (String.eqb (acc_sessionID a) sid).
  - intros E D. inversion E; subst. rewrite <- D. now destruct u.
  - intros E D. now rewrite IH.
Qed.

Lemma values_ownership (l : list (string * list string)) :
  fold_left js_concat (map snd (ownership l)) [] = map VId (concat (map snd l)).
Proof.
  replace (map snd (ownership l)) with (map VArr (map (fun kv => map VId (snd kv)) l)).
  - rewrite fold_js_concat. simpl.
    induction l as [|[k hs] t IH]; simpl; [reflexivity|].
    now rewrite map_app, IH.
  - unfold ownership. now rewrite !map_map.
Qed.

Lemma find_string_In (x : string) (l : list string) :
  In x l -> find (fun obj => String.eqb obj x) l = Some x.
Proof.
  induction l as [|y t IH]; simpl; [tauto|].
  destruct (String.eqb_spec y x) as [->|N]; [reflexivity|].
  intros [E|Hin]; [contradiction|auto].
Qed.

Lemma removal_by_listed_owner (st : store) (accs : list account) (req : request)
  (u : account) (l : list (string * list string)) (k : string) (hs : list string) :
  getCurrentUserBySession accs (sessionID req) = Some u ->
  truthy (body_username req) = true ->
  strict_eq (body_username req) (acc_username u) = true ->
  acc_data u = VObj (ownership l) ->
  In (k, hs) l ->
  In (toString (parse_identifier (VStr (params_identifier req)))) hs ->
  toString (parse_identifier (VStr (params_identifier req))) <> EmptyString ->
  forall delete_ok update_ok : bool,
  removeObjectFromCollection st accs req delete_ok update_ok
  = if delete_ok
    then (set_docs (toLowerCase (params_collection req))
            (deleteOne (parse_identifier (VStr (params_identifier req)))
               (docs st (toLowerCase (params_collection req)))) st,
          accs,
          if existsb (String.eqb (toLowerCase (params_collection req))) (map fst l)
          then Sent (VObj (if update_ok then status_ok else status_error))
          else Threw)
    else (st, accs, Sent (VObj status_error)).
Proof.
  intros S T U D Hk Hh Hne delete_ok update_ok.
  assert (Tu : truthy (acc_username u) = true).
  { destruct (body_username req), (acc_username u); simpl in *; try discriminate; auto.
    - now destruct b, b0.
    - apply Z.eqb_eq in U. now subst.
    - apply String.eqb_eq in U. now subst. }
  unfold removeObjectFromCollection. rewrite S, Tu, T, U, D. simpl.
  rewrite values_ownership.
  replace (existsb nullish (map VId (concat (map snd l)))) with false.
  2:{ symmetry. induction (concat (map snd l)); simpl; auto. }
  rewrite map_map. simpl. rewrite map_id.
  set (idstr := toString (parse_identifier (VStr (params_identifier req)))) in *.
  assert (Hin : In idstr (concat (map snd l))).
  { apply in_concat. exists hs. split; [|exact Hh].
    apply in_map_iff. now exists (k, hs). }
  rewrite (find_string_In _ _ Hin).
  destruct (String.eqb_spec idstr EmptyString) as [E|_]; [contradiction|]. simpl.
  destruct delete_ok; cbn [negb]; [|reflexivity].
  rewrite field_ownership.
  set (c := toLowerCase (params_collection req)) in *.
  destruct (find (fun kv => String.eqb c (fst kv)) l) as [[k' hs']|] eqn:F.
  - assert (Hex : existsb (String.eqb c) (map fst l) = true).
    { apply find_some in F. destruct F as [F1 F2]. simpl in F2.
      apply existsb_exists. exists k'. split; [|exact F2].
      apply in_map_iff. now exists (k', hs'). }
    rewrite Hex. simpl.
    rewrite prune_keeps_ObjectIds.
    2:{ apply Forall_forall. intros x Hx. apply in_map_iff in Hx.
        destruct Hx as (h & <- & _). now exists h. }
    rewrite assign_same.
    2:{ rewrite lookup_ownership, F. reflexivity. }
    destruct update_ok; [|reflexivity].
    rewrite (set_account_data_same _ _ _ u S).
    + reflexivity.
    + now rewrite bson_ownership.
  - assert (Hex : existsb (String.eqb c) (map fst l) = false).
    { rewrite existsb_map_comp.
      clear -F. induction l as [|[k' hs'] t IH]; simpl in *; [reflexivity|].
      destruct (String.eqb c k'); [discriminate|]. now apply IH. }
    now rewrite Hex.
Qed.

(** X5.  For an account whose [data] holds arrays of ObjectIds and lists
    the identifier under some collection, named in the body, and a store
    that reports the deletion and the update: the first document with
    the identifier is deleted from the requested collection, whichever
    collection lists it, and the accounts stay as they are, reference
    included.  The handler answers [{ status: 'ok' }] when [data] has
    the requested collection, and is left by a TypeError after the
    deletion when it has not.  Where the store reports the deletion and
    not the update, the document is deleted and the answer is [{ status:
    'error' }]; where it does not report the deletion, nothing is
    changed and the answer is [{ status: 'error' }]. *)
Theorem remove_by_listed_owner (st : store) (accs : list account) (req : request)
  (u : account) (l : list (string * list string)) (k : string) (hs : list string) :
  getCurrentUserBySession accs (sessionID req) = Some u ->
  truthy (body_username req) = true ->
  strict_eq (body_username req) (acc_username u) = true ->
  acc_data u = VObj (ownership l) ->
  In (k, hs) l ->
  In (toString (parse_identifier (VStr (params_identifier req)))) hs ->
  toString (parse_identifier (VStr (params_identifier req))) <> EmptyString ->
  let deleted :=
    set_docs (toLowerCase (params_collection req))
      (deleteOne (parse_identifier (VStr (params_identifier req)))
         (docs st (toLowerCase (params_collection req)))) st in
  (In (toLowerCase (params_collection req)) (map fst l) ->
   removeObjectFromCollection st accs req true true
   = (deleted, accs, Sent (VObj status_ok)))
  /\ (~ In (toLowerCase (params_collection req)) (map fst l) ->
      forall update_ok,
        removeObjectFromCollection st accs req true update_ok = (deleted, accs, Threw))
  /\ (In (toLowerCase (params_collection req)) (map fst l) ->
      removeObjectFromCollection st accs req true false
      = (deleted, accs, Sent (VObj status_error)))
  /\ (forall update_ok,
        removeObjectFromCollection st accs req false update_ok
        = (st, accs, Sent (VObj status_error))).
Proof.
  intros S T U D Hk Hh Hne deleted.
  pose proof (removal_by_listed_owner st accs req u l k hs S T U D Hk Hh Hne) as R.
  fold deleted in R.
  assert (Hyes : In (toLowerCase (params_collection req)) (map fst l) ->
            existsb (String.eqb (toLowerCase (params_collection req))) (map fst l) = true).
  { intros Hin. apply existsb_exists. exists (toLowerCase (params_collection req)).
    split; [exact Hin|apply String.eqb_refl]. }
  assert (Hno : ~ In (toLowerCase (params_collection req)) (map fst l) ->
            existsb (String.eqb (toLowerCase (params_collection req))) (map fst l) = false).
  { intros Hout. apply not_true_is_false. intros E. apply existsb_exists in E.
    destruct E as (c & Hc & Heq). apply String.eqb_eq in Heq. subst c. contradiction. }
  repeat split.
  - intros Hin. now rewrite R, (Hyes Hin).
  - intros Hout update_ok. now rewrite R, (Hno Hout).
  - intros Hin. now rewrite R, (Hyes Hin).
  - intros update_ok. now rewrite R.
Qed.

End Removal.

(* ================================================================== *)
(** * Attaching *)
(* ================================================================== *)

Lemma In_assign_cases (c : string) (w : value) (o : fields) (k : string) (v : value) :
  In (k, v) o -> In (k, v) (assign c w o) \/ (k = c /\ lookup c o = Some v).
Proof.
  induction o as [|[k' v'] t IH]; simpl; [tauto|].
  intros [E|Hin].
  - inversion E; subst. destruct (String.eqb_spec c k) as [->|N].
    + right. auto.
    + left. now left.
  - destruct (String.eqb_spec c k') as [->|N].
    + left. now right.
    + destruct (IH Hin) as [Hl|[-> Hr]].
      * left. now right.
      * right. auto.
Qed.

Lemma In_assign_new (c : string) (w : value) (o : fields) : In (c, w) (assign c w o).
Proof.
  induction o as [|[k' v'] t IH]; simpl; [now left|].
  destruct (String.eqb c k'); [now left|now right].
Qed.

Lemma listed_in_bson (data : fields) (h : string) :
  listed_in data h ->
  listed_in (map (fun kv => (fst kv, bson (snd kv))) data) h.
Proof.
  intros (c & l & Hc & Hl). exists c, (map bson l). split.
  - apply in_map_iff. exists (c, VArr l). split; [|exact Hc].
    cbn [fst snd]. now rewrite bson_array.
  - apply in_map_iff. now exists (VId h).
Qed.

Section AttachingMore.
Context `{ObjectIdDriver}.

(** X6.  [insertCurrentUserData] keeps the session's account findable,
    with its username and role, keeps every identifier its [data]
    listed, and leaves the accounts of the other sessions as they are. *)
Theorem attach_keeps_listing (accs accs' : list account) (sid : string)
  (identifier : value) (collection : string) (b : bool) (u : account) (data : fields) :
  insertCurrentUserData accs sid identifier collection = Some (b, accs') ->
  getCurrentUserBySession accs sid = Some u ->
  acc_data u = VObj data ->
  exists u' data',
    getCurrentUserBySession accs' sid = Some u'
    /\ acc_data u' = VObj data'
    /\ acc_username u' = acc_username u
    /\ acc_role u' = acc_role u
    /\ (forall h, listed_in data h -> listed_in data' h)
    /\ (forall a, In a accs -> acc_sessionID a <> sid -> In a accs').
Proof.
  unfold insertCurrentUserData. intros E S D. rewrite S, D in E.
  assert (Same : Some (b, accs') = Some (b, accs) ->
    exists u' data',
      getCurrentUserBySession accs' sid = Some u'
      /\ acc_data u' = VObj data'
      /\ acc_username u' = acc_username u
      /\ acc_role u' = acc_role u
      /\ (forall h, listed_in data h -> listed_in data' h)
      /\ (forall a, In a accs -> acc_sessionID a <> sid -> In a accs')).
  { intros X. inversion X; subst. exists u, data. repeat split; auto. }
  destruct (negb (ObjectId_isValid identifier)).
  { inversion E; subst. apply Same. reflexivity. }
  destruct (if truthy (field data collection) then field data collection else VArr [])
    as [| | | | | |l|] eqn:C; try discriminate.
  destruct (existsb _ _).
  { inversion E; subst. apply Same. reflexivity. }
  inversion E; subst; clear E.
  rewrite (account_after_set _ _ _ _ S). rewrite bson_object.
  eexists. eexists. split; [reflexivity|]. split; [reflexivity|].
  split; [reflexivity|]. split; [reflexivity|]. split.
  - intros h L. apply listed_in_bson.
    destruct L as (c & l0 & Hc & Hl).
    destruct (In_assign_cases collection (VArr (l ++ [ObjectId_new identifier])) _ _ _ Hc)
      as [Hin|[-> Hlook]].
    + now exists c, l0.
    + exists collection, (l ++ [ObjectId_new identifier]). split.
      * apply In_assign_new.
      * apply in_or_app. left.
        unfold field in C. rewrite Hlook in C. simpl in C. inversion C; subst. exact Hl.
  - intros a Hin Hne. now apply set_account_data_others.
Qed.

(** X7.  After [insertCurrentUserData] has attached a valid identifier
    to an account whose [data] holds arrays of ObjectIds,
    [isUserOwnerOfObject] answers true for it. *)
Theorem attach_then_owner (accs : list account) (sid : string) (identifier : value)
  (collection : string) (u : account) (l : list (string * list string)) :
  getCurrentUserBySession accs sid = Some u ->
  acc_data u = VObj (ownership l) ->
  ObjectId_isValid identifier = true ->
  toString identifier = ObjectId_hex identifier ->
  json_escape_string (ObjectId_hex identifier) = ObjectId_hex identifier ->
  exists accs',
    insertCurrentUserData accs sid identifier collection = Some (true, accs')
    /\ isUserOwnerOfObject accs' sid identifier = Some true.
Proof.
  intros S D V T J.
  assert (Own : forall accs' u' data',
    getCurrentUserBySession accs' sid = Some u' ->
    acc_data u' = VObj data' ->
    listed_in data' (ObjectId_hex identifier) ->
    isUserOwnerOfObject accs' sid identifier = Some true).
  { intros accs' u' data' S' D' L.
    rewrite (isUserOwnerOfObject_text _ _ _ (json_text (VObj data'))).
    - f_equal. unfold searched_for, parse_identifier. rewrite V. simpl.
      now apply listed_is_contained.
    - rewrite S'. unfold searched_text. rewrite D'. reflexivity. }
  unfold insertCurrentUserData. rewrite S, D, V. simpl.
  rewrite field_ownership.
  destruct (find (fun kv => String.eqb collection (fst kv)) l) as [[k hs]|] eqn:F; simpl.
  - destruct (existsb _ _) eqn:Ex.
    + exists accs. split; [reflexivity|].
      apply (Own accs u (ownership l) S D).
      apply existsb_exists in Ex. destruct Ex as (x & Hx & Heq).
      apply filter_In in Hx. destruct Hx as [Hx _].
      apply in_map_iff in Hx. destruct Hx as (h & <- & Hh).
      simpl in Heq. apply String.eqb_eq in Heq. rewrite T in Heq. subst h.
      apply find_some in F. destruct F as [F _].
      exists k, (map VId hs). split.
      * unfold ownership. apply in_map_iff. now exists (k, hs).
      * apply in_map_iff. now exists (ObjectId_hex identifier).
    + eexists. split; [reflexivity|].
      eapply Own.
      * apply (account_after_set _ _ _ _ S).
      * cbn [acc_data]. rewrite bson_object. reflexivity.
      * apply listed_in_bson. exists collection. eexists. split.
        -- apply In_assign_new.
        -- apply in_or_app. right. left. reflexivity.
  - eexists. split; [reflexivity|].
    eapply Own.
    + apply (account_after_set _ _ _ _ S).
    + cbn [acc_data]. rewrite bson_object. reflexivity.
    + apply listed_in_bson. exists collection. eexists. split.
      * apply In_assign_new.
      * left. reflexivity.
Qed.

Lemma assign_ownership (c : string) (hs : list string) (l : list (string * list string)) :
  exists l', assign c (VArr (map VId hs)) (ownership l) = ownership l' /\ In (c, hs) l'.
Proof.
  induction l as [|[k hs0] t (l' & E & Hin)]; simpl.
  - exists [(c, hs)]. split; [reflexivity|now left].
  - destruct (String.eqb c k).
    + exists ((c, hs) :: t). split; [reflexivity|now left].
    + exists ((k, hs0) :: l'). simpl. rewrite E. split; [reflexivity|now right].
Qed.

Lemma attach_gives_ownership (accs : list account) (sid : string) (identifier : value)
  (collection : string) (u : account) (l : list (string * list string)) :
  getCurrentUserBySession accs sid = Some u ->
  acc_data u = VObj (ownership l) ->
  ObjectId_isValid identifier = true ->
  toString identifier = ObjectId_hex identifier ->
  exists accs' u' l' k hs,
    insertCurrentUserData accs sid identifier collection = Some (true, accs')
    /\ getCurrentUserBySession accs' sid = Some u'
    /\ acc_username u' = acc_username u
    /\ acc_data u' = VObj (ownership l')
    /\ In (k, hs) l' /\ In (ObjectId_hex identifier) hs.
Proof.
  intros S D V T.
  unfold insertCurrentUserData. rewrite S, D, V. simpl.
  rewrite field_ownership.
  destruct (find (fun kv => String.eqb collection (fst kv)) l) as [[k hs]|] eqn:F; simpl.
  - destruct (existsb _ _) eqn:Ex.
    + exists accs, u, l, k, hs. repeat split; auto.
      * apply find_some in F. tauto.
      * apply existsb_exists in Ex. destruct Ex as (x & Hx & Heq).
        apply filter_In in Hx. destruct Hx as [Hx _].
        apply in_map_iff in Hx. destruct Hx as (h & <- & Hh).
        simpl in Heq. apply String.eqb_eq in Heq. rewrite T in Heq. now subst h.
    + destruct (assign_ownership collection (hs ++ [ObjectId_hex identifier]) l)
        as (l' & E & Hin).
      eexists. eexists. exists l', collection, (hs ++ [ObjectId_hex identifier]).
      split; [reflexivity|]. split; [apply (account_after_set _ _ _ _ S)|].
      split; [reflexivity|]. split.
      * cbn [acc_data]. unfold ObjectId_new.
        replace (map VId hs ++ [VId (ObjectId_hex identifier)])
          with (map VId (hs ++ [ObjectId_hex identifier])) by now rewrite map_app.
        rewrite E. apply bson_ownership.
      * split; [exact Hin|]. apply in_or_app. right. now left.
  - destruct (assign_ownership collection [ObjectId_hex identifier] l) as (l' & E & Hin).
    eexists. eexists. exists l', collection, [ObjectId_hex identifier].
    split; [reflexivity|]. split; [apply (account_after_set _ _ _ _ S)|].
    split; [reflexivity|]. split.
    + cbn [acc_data]. unfold ObjectId_new. simpl app.
      change [VId (ObjectId_hex identifier)] with (map VId [ObjectId_hex identifier]).
      rewrite E. apply bson_ownership.
    + split; [exact Hin|]. now left.
Qed.

(** X8.  An object that [insertCurrentUserData] attached to the
    session's account can be removed by that user: where the store
    reports the deletion and the update, [removeObjectFromCollection]
    deletes the document and answers [{ status: 'ok' }], and the account
    keeps the reference. *)
Theorem attach_then_remove (st : store) (accs : list account) (req : request)
  (identifier : value) (u : account) (l : list (string * list string)) :
  getCurrentUserBySession accs (sessionID req) = Some u ->
  acc_data u = VObj (ownership l) ->
  ObjectId_isValid identifier = true ->
  toString identifier = ObjectId_hex identifier ->
  toString (parse_identifier (VStr (params_identifier req))) = ObjectId_hex identifier ->
  ObjectId_hex identifier <> EmptyString ->
  truthy (body_username req) = true ->
  strict_eq (body_username req) (acc_username u) = true ->
  exists accs',
    insertCurrentUserData accs (sessionID req) identifier
      (toLowerCase (params_collection req)) = Some (true, accs')
    /\ removeObjectFromCollection st accs' req true true
       = (set_docs (toLowerCase (params_collection req))
            (deleteOne (parse_identifier (VStr (params_identifier req)))
               (docs st (toLowerCase (params_collection req)))) st,
          accs', Sent (VObj status_ok)).
Proof.
  intros S D V T P N Tb U.
  unfold insertCurrentUserData. rewrite S, D, V. simpl.
  rewrite field_ownership.
  set (c := toLowerCase (params_collection req)).
  assert (Done : forall accs' u' l' hs,
    getCurrentUserBySession accs' (sessionID req) = Some u' ->
    acc_username u' = acc_username u ->
    acc_data u' = VObj (ownership l') ->
    In (c, hs) l' -> In (ObjectId_hex identifier) hs ->
    removeObjectFromCollection st accs' req true true
    = (set_docs c (deleteOne (parse_identifier (VStr (params_identifier req)))
                     (docs st c)) st,
       accs', Sent (VObj status_ok))).
  { intros accs' u' l' hs S' Un D' Hin Hh.
    rewrite (removal_by_listed_owner st accs' req u' l' c hs); auto.
    - fold c. replace (existsb (String.eqb c) (map fst l')) with true; [reflexivity|].
      symmetry. apply existsb_exists. exists c. split.
      + apply in_map_iff. now exists (c, hs).
      + apply String.eqb_refl.
    - now rewrite Un.
    - now rewrite P.
    - now rewrite P. }
  destruct (find (fun kv => String.eqb c (fst kv)) l) as [[k hs]|] eqn:F; simpl.
  - assert (k = c) as ->.
    { apply find_some in F. destruct F as [_ F]. simpl in F.
      apply String.eqb_eq in F. now subst. }
    destruct (existsb _ _) eqn:Ex.
    + exists accs. split; [reflexivity|].
      apply (Done accs u l hs); auto.
      * apply find_some in F. tauto.
      * apply existsb_exists in Ex. destruct Ex as (x & Hx & Heq).
        apply filter_In in Hx. destruct Hx as [Hx _].
        apply in_map_iff in Hx. destruct Hx as (h & <- & Hh).
        simpl in Heq. apply String.eqb_eq in Heq. rewrite T in Heq. now subst h.
    + destruct (assign_ownership c (hs ++ [ObjectId_hex identifier]) l) as (l' & E & Hin).
      eexists. split; [reflexivity|].
      eapply (Done _ _ l' (hs ++ [ObjectId_hex identifier])).
      * apply (account_after_set _ _ _ _ S).
      * reflexivity.
      * cbn [acc_data]. unfold ObjectId_new.
        replace (map VId hs ++ [VId (ObjectId_hex identifier)])
          with (map VId (hs ++ [ObjectId_hex identifier])) by now rewrite map_app.
        rewrite E. apply bson_ownership.
      * exact Hin.
      * apply in_or_app. right. now left.
  - destruct (assign_ownership c [ObjectId_hex identifier] l) as (l' & E & Hin).
    eexists. split; [reflexivity|].
    eapply (Done _ _ l' [ObjectId_hex identifier]).
    + apply (account_after_set _ _ _ _ S).
    + reflexivity.
    + cbn [acc_data]. unfold ObjectId_new. simpl app.
      change [VId (ObjectId_hex identifier)] with (map VId [ObjectId_hex identifier]).
      rewrite E. apply bson_ownership.
    + exact Hin.
    + now left.
Qed.

End AttachingMore.

(* ================================================================== *)
(** * Searching *)
(* ================================================================== *)

Section SearchingMore.
Context `{ObjectIdDriver} `{Resolving}.

Lemma search_unfold (fuel : nat) (st : store) (req : request) :
  searchObjectWithFilter fuel st req
  = (filter_ <- read_filter (body_filter req) ;;
     objs <- searched_objects fuel st (toLowerCase (params_collection req)) ;;
     filterResults filter_ objs).
Proof.
  unfold searchObjectWithFilter, searched_objects.
  destruct (read_filter (body_filter req)) as [f|]; [|reflexivity]. simpl bind.
  destruct (String.eqb _ "digitalobject").
  - destruct (mapM _ _); reflexivity.
  - destruct (String.eqb _ "model"); [|reflexivity].
    destruct (mapM _ _); reflexivity.
Qed.

Lemma filterResults_matched (filter_ : list string) (objs : list value) (r : list value) :
  filterResults filter_ objs = Some r ->
  r = map doc_id (filter (matched filter_) objs)
  /\ Forall (fun d => getNestedValues d <> None) objs.
Proof.
  revert r. induction objs as [|d t IH]; intros r; simpl.
  - intros E. inversion E. auto.
  - unfold matched at 1. destruct (getNestedValues d) as [strings|] eqn:G; [|discriminate].
    simpl bind. destruct (filterResults filter_ t) as [r'|]; [|discriminate].
    simpl bind. destruct (IH r' eq_refl) as [-> W].
    intros E. inversion E; subst; clear E. split.
    + destruct (matches_filter _ _); reflexivity.
    + constructor; [congruence|exact W].
Qed.

Lemma filterResults_total (filter_ : list string) (objs : list value) :
  Forall (fun d => getNestedValues d <> None) objs ->
  filterResults filter_ objs = Some (map doc_id (filter (matched filter_) objs)).
Proof.
  induction 1 as [|d t Hd Hrest IH]; [reflexivity|].
  cbn [filterResults filter]. unfold matched at 1.
  destruct (getNestedValues d) as [strings|]; [|congruence].
  simpl bind. rewrite IH. simpl bind.
  destruct (matches_filter _ _); reflexivity.
Qed.


Lemma mapM_Forall2 {A B : Type} (f : A -> option B) (l : list A) (r : list B) :
  mapM f l = Some r -> Forall2 (fun x y => f x = Some y) l r.
Proof.
  revert r. induction l as [|x t IH]; intros r; simpl.
  - intros E. inversion E. constructor.
  - destruct (f x) as [y|] eqn:F; [|discriminate].
    destruct (mapM f t) as [ys|]; [|discriminate].
    intros E. inversion E; subst. constructor; auto.
Qed.

Lemma mapM_In {A B : Type} (f : A -> option B) (l : list A) (r : list B) (y : B) :
  mapM f l = Some r -> In y r -> exists x, In x l /\ f x = Some y.
Proof.
  revert r. induction l as [|x t IH]; intros r; simpl.
  - intros E. inversion E. intros [].
  - destruct (f x) as [y0|] eqn:F; [|discriminate].
    destruct (mapM f t) as [ys|]; [|discriminate].
    intros E. inversion E; subst. intros [<-|Hin].
    + exists x. auto.
    + destruct (IH ys eq_refl Hin) as (x0 & Hx & Hf). exists x0. auto.
Qed.



Lemma includes_empty (s : string) : includes s EmptyString = true.
Proof. apply includes_spec. exists EmptyString, s. reflexivity. Qed.

(** X10.  Without a filter (absent, or falsy) [searchObjectWithFilter]
    returns the identifier of every document it looks at, in order. *)
Theorem search_without_filter_lists_all (fuel : nat) (st : store) (req : request)
  (objs : list value) :
  truthy (body_filter req) = false ->
  searched_objects fuel st (toLowerCase (params_collection req)) = Some objs ->
  Forall (fun d => getNestedValues d <> None) objs ->
  searchObjectWithFilter fuel st req = Some (map doc_id objs).
Proof.
  intros T O W. rewrite search_unfold. unfold read_filter. rewrite T, O. simpl bind.
  rewrite (filterResults_total _ _ W). do 2 f_equal.
  clear O. induction W as [|d t Hd Hrest IH]; [reflexivity|].
  simpl. unfold matched at 1. destruct (getNestedValues d); [|congruence].
  simpl. rewrite includes_empty. simpl. now rewrite IH.
Qed.

Lemma matched_terms (terms : list string) (d : value) :
  terms <> [] ->
  matched terms d = true ->
  forall t, In t terms ->
    exists strings, getNestedValues d = Some strings
      /\ includes (toLowerCase (join EmptyString strings)) t = true.
Proof.
  intros Ht. unfold matched. destruct (getNestedValues d) as [strings|]; [|discriminate].
  rewrite matches_filter_all by exact Ht. intros F t Hin.
  exists strings. split; [reflexivity|].
  rewrite forallb_forall in F. now apply F.
Qed.

Lemma matched_incl (terms1 terms2 : list string) (d : value) :
  terms1 <> [] -> incl terms1 terms2 ->
  matched terms2 d = true -> matched terms1 d = true.
Proof.
  intros N I M.
  assert (N2 : terms2 <> []).
  { destruct terms1 as [|t r]; [congruence|]. intros ->. apply (I t). now left. }
  unfold matched in *. destruct (getNestedValues d) as [strings|]; [|discriminate].
  rewrite matches_filter_all in * by assumption.
  rewrite forallb_forall in *. intros t Hin. apply M. now apply I.
Qed.

(** X11.  A search with a non-empty list of terms returns, and a search
    for these terms and more returns as well, and only identifiers of
    the first search; the order, the repetition and the case of the
    terms do not matter. *)
Theorem search_narrows_with_terms (fuel : nat) (st : store) (req1 req2 : request)
  (terms1 terms2 : list string) (ids1 : list value) :
  params_collection req2 = params_collection req1 ->
  body_filter req1 = VArr (map VStr terms1) ->
  body_filter req2 = VArr (map VStr terms2) ->
  terms1 <> [] ->
  incl (map toLowerCase terms1) (map toLowerCase terms2) ->
  searchObjectWithFilter fuel st req1 = Some ids1 ->
  exists ids2,
    searchObjectWithFilter fuel st req2 = Some ids2
    /\ incl ids2 ids1
    /\ (incl (map toLowerCase terms2) (map toLowerCase terms1) -> ids2 = ids1).
Proof.
  intros C F1 F2 N I. rewrite !search_unfold, C, F1, F2, !read_filter_terms. simpl bind.
  destruct (searched_objects fuel st _) as [objs|]; [|discriminate]. simpl bind.
  intros E1.
  apply filterResults_matched in E1. destruct E1 as [-> W].
  rewrite (filterResults_total _ _ W). eexists. split; [reflexivity|].
  assert (N1 : map toLowerCase terms1 <> []) by (destruct terms1; [congruence|discriminate]).
  split.
  - intros i Hin. apply in_map_iff in Hin. destruct Hin as (d & <- & Hd).
    apply filter_In in Hd. destruct Hd as [Hd M].
    apply in_map_iff. exists d. split; [reflexivity|].
    apply filter_In. split; [exact Hd|]. now apply (matched_incl _ _ d N1 I).
  - intros I'. f_equal. apply filter_ext. intros d.
    assert (N2 : map toLowerCase terms2 <> []).
    { destruct (map toLowerCase terms1) as [|t r]; [congruence|].
      intros E. rewrite E in I. apply (I t). now left. }
    destruct (matched (map toLowerCase terms2) d) eqn:M2.
    + symmetry. now apply (matched_incl _ _ d N1 I).
    + destruct (matched (map toLowerCase terms1) d) eqn:M1; [|reflexivity].
      rewrite (matched_incl _ _ d N2 I' M1) in M2. discriminate.
Qed.

End SearchingMore.

(* ================================================================== *)
(** * Driver laws *)
(* ================================================================== *)

Lemma first_occurrences_NoDup (l seen : list string) :
  NoDup l -> (forall x, In x l -> ~ In x seen) -> first_occurrences seen l = l.
Proof.
  revert seen. induction l as [|x t IH]; intros seen N D; simpl; [reflexivity|].
  inversion N as [|? ? Hx Ht]; subst.
  replace (existsb (String.eqb x) seen) with false.
  - f_equal. apply IH; [exact Ht|].
    intros y Hy [<-|Hs]; [contradiction|]. apply (D y); [now right|exact Hs].
  - symmetry. apply not_true_is_false. intros E. apply existsb_exists in E.
    destruct E as (y & Hy & Heq). apply String.eqb_eq in Heq. subst y.
    apply (D x); [now left|exact Hy].
Qed.

Lemma assign_assign (k : string) (v w : value) (o : fields) :
  assign k v (assign k w o) = assign k v o.
Proof.
  induction o as [|[k' v'] t IH]; cbn [assign].
  - now rewrite String.eqb_refl.
  - destruct (String.eqb_spec k k') as [->|N]; cbn [assign].
    + now rewrite String.eqb_refl.
    + destruct (String.eqb_spec k k'); [contradiction|]. now rewrite IH.
Qed.

Section DriverLaws.
Context `{ObjectIdDriver}.
Hypothesis isValid_ObjectId : forall h, ObjectId_isValid (VId h) = true.
Hypothesis hex_ObjectId : forall h, ObjectId_hex (VId h) = h.

Lemma valid_references (hs : list string) :
  filter (fun e => ObjectId_isValid (doc_id e)) (map reference hs) = map reference hs.
Proof.
  induction hs as [|h t IH]; simpl; [reflexivity|].
  unfold doc_id at 1, reference at 1. cbn [own_fields]. rewrite field_singleton.
  rewrite isValid_ObjectId. now rewrite IH.
Qed.

Lemma hex_references (hs : list string) :
  map (fun e => ObjectId_hex (doc_id e)) (map reference hs) = hs.
Proof.
  induction hs as [|h t IH]; simpl; [reflexivity|].
  unfold doc_id at 1, reference at 1. cbn [own_fields]. rewrite field_singleton.
  rewrite hex_ObjectId. now rewrite IH.
Qed.

Lemma reconciled_references (hs : list string) :
  NoDup hs -> reconciled [map reference hs] = map reference hs.
Proof.
  intros N. unfold reconciled. simpl concat. rewrite app_nil_r.
  rewrite valid_references, hex_references. f_equal.
  apply first_occurrences_NoDup; [exact N|]. intros x _ [].
Qed.

(** X12.  For a driver that takes an ObjectId for valid and gives it
    back unchanged: [concatFix] returns, whatever the identifiers of the
    entries are, numbers included, and applied to its own result it
    returns that result and generates no identifier. *)
Theorem concatFix_idempotent (first : list value) (others : list (list value))
  (generated : nat) :
  Forall (fun e => nullish e = false) (concat (first :: others)) ->
  exists r generated',
    concatFix (map VArr (first :: others)) generated = Some (r, generated')
    /\ forall again, concatFix [VArr r] again = Some (r, again).
Proof.
  intros Hn.
  destruct (concatFix_references first others generated Hn)
    as (hs & generated' & E & Hd).
  exists (map reference hs), generated'. split; [exact E|]. intros again.
  change [VArr (map reference hs)] with (map VArr (map reference hs :: [])).
  rewrite concatFix_arrays.
  - now rewrite reconciled_references.
  - simpl. rewrite app_nil_r. apply Forall_forall.
    intros x Hx. apply in_map_iff in Hx. now destruct Hx as (h & <- & _).
  - simpl. rewrite app_nil_r. apply Forall_forall.
    intros x Hx. apply in_map_iff in Hx. destruct Hx as (h & <- & _).
    unfold doc_id, reference. cbn [own_fields]. now rewrite field_singleton.
Qed.

(** X13.  For such a driver the [fixObjectId] middleware is idempotent,
    changes no property but [_id], and turns a truthy valid [_id] into
    the ObjectId of its hexadecimal string. *)
Theorem fixObjectId_idempotent (body : value) :
  fixObjectId (fixObjectId body) = fixObjectId body
  /\ (forall k, k <> "_id" ->
        lookup k (own_fields (fixObjectId body)) = lookup k (own_fields body))
  /\ (ObjectId_isValid (doc_id body) = true -> truthy (doc_id body) = true ->
      doc_id (fixObjectId body) = VId (ObjectId_hex (doc_id body))).
Proof.
  unfold fixObjectId, doc_id. destruct body as [| | | | | | |o]; cbn [own_fields];
    try (repeat split; auto; unfold field; simpl; intros; discriminate).
  destruct (truthy (field o "_id") && ObjectId_isValid (field o "_id")) eqn:E.
  - repeat split.
    + rewrite field_assign_eq. unfold ObjectId_new. cbn [truthy andb].
      rewrite isValid_ObjectId, hex_ObjectId. now rewrite assign_assign.
    + intros k Hk. now apply lookup_assign_neq.
    + intros _ _. apply field_assign_eq.
  - rewrite E. repeat split; auto.
    intros V T. rewrite V, T in E. discriminate.
Qed.

End DriverLaws.

(* ================================================================== *)
(** * Normalizer: frame and round trip *)
(* ================================================================== *)

Lemma update_first_ids (p : value -> bool) (f : value -> value) (l : list value) :
  (forall d, doc_id (f d) = doc_id d) ->
  map doc_id (update_first p f l) = map doc_id l.
Proof.
  intros Hf. induction l as [|x t IH]; simpl; [reflexivity|].
  destruct (p x); simpl; [now rewrite Hf|now rewrite IH].
Qed.

Lemma upsert_ids (q : value) (upd : fields) (l : list value) :
  ~ In "_id" (map fst upd) ->
  exists extra, map doc_id (upsert q upd l) = map doc_id l ++ extra.
Proof.
  intros N. unfold upsert. destruct (existsb (matches_id q) l).
  - exists []. rewrite app_nil_r. apply update_first_ids.
    intros d. now apply doc_id_apply_set.
  - eexists. rewrite map_app. reflexivity.
Qed.

Lemma bson_id_eq_spec (a q : value) :
  bson_id_eq a q = true ->
  (exists h, a = VId h /\ q = VId h) \/ (exists s, a = VStr s /\ q = VStr s).
Proof.
  destruct a, q; simpl; try discriminate; intros E; apply String.eqb_eq in E; subst; eauto.
Qed.

Lemma find_weaken {A : Type} (p p' : A -> bool) (l : list A) (x : A) :
  (forall a, p a = true -> p' a = true) ->
  find p l = Some x -> exists y, find p' l = Some y.
Proof.
  intros W. induction l as [|a t IH]; simpl; [discriminate|].
  destruct (p' a) eqn:P'; [eauto|].
  destruct (p a) eqn:P; [rewrite (W a P) in P'; discriminate|]. exact IH.
Qed.

Section NormalizerFrame.
Context `{ObjectIdDriver}.
Variable _digId : string.

Lemma addAndGetId_entity_ids (add_to_coll : string) (nr : value) (v : value)
  (d d' : db) (ref : value) :
  addAndGetId_entity _digId add_to_coll nr v d = Some (ref, d') ->
  forall c, exists extra,
    map doc_id (docs (objects d') c) = map doc_id (docs (objects d) c) ++ extra.
Proof.
  intros E c. destruct v as [| | | | | | |p]; try discriminate.
  apply addAndGetId_entity_steps in E. cbv zeta in E.
  destruct E as (f2 & f3 & _ & _ & _ & ->). cbn [objects].
  destruct (String.eqb_spec c add_to_coll) as [->|N].
  - rewrite docs_set_docs_eq. apply upsert_ids. apply not_in_remove_key.
  - rewrite docs_set_docs_neq by exact N. exists []. now rewrite app_nil_r.
Qed.

Lemma nested_loop_ids (insts : list value) :
  forall (i : nat) (p p1 : fields) (d d1 : db),
    nested_loop _digId insts i p d = Some (p1, d1) ->
    forall c, exists extra,
      map doc_id (docs (objects d1) c) = map doc_id (docs (objects d) c) ++ extra.
Proof.
  induction insts as [|inst rest IH]; intros i p p1 d d1; simpl.
  - intros E c. inversion E; subst. exists []. now rewrite app_nil_r.
  - destruct (prop inst "value") as [v|]; [|discriminate]. simpl bind.
    destruct (negb (strict_eq v (VStr "add_new_institution"))); [apply IH|].
    destruct (index_get _ i) as [institution|]; [|discriminate]. simpl bind.
    destruct (addAndGetId_entity _ _ _ institution d) as [[r0 d0]|] eqn:A; [|discriminate].
    simpl bind. intros E c.
    destruct (addAndGetId_entity_ids _ _ _ _ _ _ A c) as (x1 & E1).
    destruct (IH _ _ _ _ _ E c) as (x2 & E2).
    exists (x1 ++ x2). cbn [snd] in E2. now rewrite E2, E1, app_assoc.
Qed.

Lemma addAndGetId_keeps_documents (in_field : value) (add_to_coll : string)
  (new_roles : value) (d d' : db) (ref : value) :
  addAndGetId _digId in_field add_to_coll new_roles d = Some (ref, d') ->
  (forall c, exists extra,
      map doc_id (docs (objects d') c) = map doc_id (docs (objects d) c) ++ extra)
  /\ (forall c, c <> add_to_coll -> c <> "institution" ->
        docs (objects d') c = docs (objects d) c)
  /\ (add_to_coll <> "person" ->
      forall c, c <> add_to_coll -> docs (objects d') c = docs (objects d) c)
  /\ next_id d <= next_id d'.
Proof.
  unfold addAndGetId. destruct (String.eqb_spec add_to_coll "person") as [->|N].
  - unfold addNestedInstitution.
    assert (Direct : forall d0 p,
      addAndGetId_entity _digId "person" new_roles p d0 = Some (ref, d') ->
      ((forall c, exists extra,
          map doc_id (docs (objects d0) c) = map doc_id (docs (objects d) c) ++ extra)
       /\ (forall c, c <> "institution" -> docs (objects d0) c = docs (objects d) c)
       /\ next_id d <= next_id d0) ->
      (forall c, exists extra,
          map doc_id (docs (objects d') c) = map doc_id (docs (objects d) c) ++ extra)
      /\ (forall c, c <> "person" -> c <> "institution" ->
            docs (objects d') c = docs (objects d) c)
      /\ ("person" <> "person" ->
          forall c, c <> "person" -> docs (objects d') c = docs (objects d) c)
      /\ next_id d <= next_id d').
    { intros d0 p E (I0 & F0 & X0).
      destruct (addAndGetId_entity_frame _ _ _ _ _ _ _ E) as [F1 X1].
      split; [|split; [|split]].
      - intros c. destruct (I0 c) as (x0 & E0).
        destruct (addAndGetId_entity_ids _ _ _ _ _ _ E c) as (x1 & E1).
        exists (x0 ++ x1). now rewrite E1, E0, app_assoc.
      - intros c N1 N2. rewrite F1 by exact N1. now apply F0.
      - intros C. contradiction.
      - lia. }
    assert (Refl : (forall c, exists extra,
          map doc_id (docs (objects d) c) = map doc_id (docs (objects d) c) ++ extra)
       /\ (forall c, c <> "institution" -> docs (objects d) c = docs (objects d) c)
       /\ next_id d <= next_id d).
    { repeat split; auto. intros c. exists []. now rewrite app_nil_r. }
    destruct in_field as [| | | | | | |p]; cbn [bind fst snd]; try discriminate;
      try (intros E; apply (Direct _ _ E Refl)).
    destruct (field p "person_institution") as [| | | | | |insts|];
      cbn [bind fst snd]; try (intros E; apply (Direct _ _ E Refl)).
    destruct (nested_loop _digId insts 0 p d) as [[p1 d1]|] eqn:L; [|discriminate].
    cbn [bind fst snd]. intros E. apply (Direct _ _ E).
    destruct (nested_loop_frame _ _ _ _ _ _ _ L) as (_ & _ & F & X).
    split; [|split]; auto.
    apply (nested_loop_ids _ _ _ _ _ _ L).
  - intros E. destruct (addAndGetId_entity_frame _ _ _ _ _ _ _ E) as [F X].
    split; [|split; [|split]]; auto.
    apply (addAndGetId_entity_ids _ _ _ _ _ _ E).
Qed.

(** X14.  [addAndGetId] never removes or re-keys a document: in every
    collection the identifiers stored before are a prefix of those
    stored after.  It changes the target collection only, and
    [institution] for a person; the identifier counter does not go
    back. *)
Theorem normalizer_never_deletes (in_field : value) (add_to_coll : string)
  (new_roles : value) (d d' : db) (ref : value) :
  addAndGetId _digId in_field add_to_coll new_roles d = Some (ref, d') ->
  (forall c, exists extra,
      map doc_id (docs (objects d') c) = map doc_id (docs (objects d) c) ++ extra)
  /\ (forall c, List.length (docs (objects d) c) <= List.length (docs (objects d') c))
  /\ (forall c, c <> add_to_coll -> c <> "institution" ->
        docs (objects d') c = docs (objects d) c)
  /\ (add_to_coll <> "person" ->
      forall c, c <> add_to_coll -> docs (objects d') c = docs (objects d) c)
  /\ next_id d <= next_id d'.
Proof.
  intros E.
  destruct (addAndGetId_keeps_documents _ _ _ _ _ _ E) as (I & F1 & F2 & X).
  split; [exact I|]. split; [|auto].
  intros c. destruct (I c) as (extra & Hex).
  apply (f_equal (@List.length value)) in Hex.
  rewrite length_app, !length_map in Hex. lia.
Qed.

End NormalizerFrame.

Section NormalizerRoundTrip.
Context `{ObjectIdDriver} `{Resolving}.
Variable _digId : string.
Hypothesis isValid_ObjectId : forall h, ObjectId_isValid (VId h) = true.
Hypothesis hex_ObjectId : forall h, ObjectId_hex (VId h) = h.

Lemma addAndGetId_entity_stored (add_to_coll : string) (nr : value) (v : value)
  (d d' : db) (ref : value) :
  addAndGetId_entity _digId add_to_coll nr v d = Some (ref, d') ->
  exists h e, ref = reference h
    /\ findOne (VId h) (docs (objects d') add_to_coll) = Some e.
Proof.
  intros E. destruct v as [| | | | | | |p]; try discriminate.
  apply addAndGetId_entity_steps in E. cbv zeta in E.
  destruct E as (f2 & f3 & _ & _ & -> & ->). cbn [objects].
  assert (exists h, (if ObjectId_isValid (field p "_id")
                     then ObjectId_new (field p "_id")
                     else VId (ObjectId_fresh (next_id d))) = VId h) as (h & ->)
    by (destruct (ObjectId_isValid _); unfold ObjectId_new; eauto).
  destruct (upsert_stores h (remove_key "_id" f3) (docs (objects d) add_to_coll)
              (not_in_remove_key _ _)) as (base & Hfind).
  exists h, (apply_set (remove_key "_id" f3) base). split; [reflexivity|].
  now rewrite docs_set_docs_eq.
Qed.

(** X15.  The reference [addAndGetId] returns does not dangle: the
    target collection holds a document under that identifier, and
    [Mongo.resolve] returns it for the reference at any depth when it is
    none of the kinds that are expanded. *)
Theorem normalizer_reference_resolves (in_field : value) (add_to_coll : string)
  (new_roles : value) (d d' : db) (ref : value) :
  addAndGetId _digId in_field add_to_coll new_roles d = Some (ref, d') ->
  exists h e,
    ref = reference h
    /\ In e (docs (objects d') add_to_coll)
    /\ (doc_id e = VId h \/ doc_id e = VStr h)
    /\ (isDigitalObject e = false -> isModel e = false -> isCompilation e = false ->
        forall fuel depth,
          resolve (S fuel) (objects d') ref add_to_coll depth = Some e).
Proof.
  intros E.
  assert (exists v d0, addAndGetId_entity _digId add_to_coll new_roles v d0 = Some (ref, d'))
    as (v & d0 & E0).
  { unfold addAndGetId in E. destruct (String.eqb add_to_coll "person"); [|eauto].
    destruct (addNestedInstitution _digId in_field d) as [[v d0]|]; [|discriminate].
    cbn [bind fst snd] in E. eauto. }
  destruct (addAndGetId_entity_stored _ _ _ _ _ _ E0) as (h & e0 & -> & F).
  destruct (find_weaken (matches_id (VId h))
              (fun x => matches_id (VId h) x || matches_id (VStr h) x)
              (docs (objects d') add_to_coll) e0) as (e & Fe).
  { intros a ->. reflexivity. }
  { exact F. }
  exists h, e. split; [reflexivity|].
  pose proof (find_some _ _ Fe) as [Hin Hm].
  split; [exact Hin|]. split.
  - apply orb_true_iff in Hm. unfold matches_id in Hm.
    destruct Hm as [Hm|Hm]; apply bson_id_eq_spec in Hm;
      destruct Hm as [(x & A & B)|(x & A & B)]; inversion B; subst; auto.
  - intros G1 G2 G3 fuel depth. cbn [resolve]. unfold reference.
    cbn [truthy negb own_fields]. rewrite field_singleton. cbn [truthy].
    rewrite isValid_ObjectId, hex_ObjectId. cbn [negb].
    rewrite depth_guard_never. unfold findOne_or. rewrite Fe.
    now rewrite G1, G2, G3.
Qed.

End NormalizerRoundTrip.

(* ================================================================== *)
(** * Submission helpers *)
(* ================================================================== *)

Section PipelineProofs.
Context `{ObjectIdDriver}.
Variable _digId : string.



End PipelineProofs.

Section PipelineLaws.
Context `{ObjectIdDriver}.
Variable _digId : string.
Hypothesis isValid_ObjectId : forall h, ObjectId_isValid (VId h) = true.
Hypothesis hex_ObjectId : forall h, ObjectId_hex (VId h) = h.


End PipelineLaws.

(* ================================================================== *)
(** * Sessions *)
(* ================================================================== *)

Lemma invalidate_lookup (accs : list account) (sid sid' : string) :
  sid' <> EmptyString ->
  getCurrentUserBySession (invalidateSession accs sid) sid'
  = if String.eqb sid' sid then None else getCurrentUserBySession accs sid'.
Proof.
  intros Hne. unfold getCurrentUserBySession, invalidateSession.
  induction accs as [|a t IH]; cbn [map find].
  - now destruct (String.eqb sid' sid).
  - destruct (String.eqb_spec (acc_sessionID a) sid) as [E|N]; cbn [acc_sessionID].
    + replace (String.eqb EmptyString sid') with false
        by (destruct sid'; [congruence|reflexivity]).
      rewrite IH. destruct (String.eqb_spec sid' sid) as [E2|N2]; [reflexivity|].
      destruct (String.eqb_spec (acc_sessionID a) sid'); [congruence|reflexivity].
    + destruct (String.eqb_spec (acc_sessionID a) sid') as [E'|N'].
      * destruct (String.eqb_spec sid' sid); [congruence|reflexivity].
      * exact IH.
Qed.

Section Sessions.
Context `{ObjectIdDriver}.

(** X18.  After [invalidateSession] the session has no account any more:
    [validateLoginSession] and [isUserAdmin] refuse it,
    [insertCurrentUserData] returns false and changes nothing.  The
    other sessions find their accounts as before, and no account loses
    its username, role or data. *)
Theorem logout_ends_session (accs : list account) (sid : string) :
  sid <> EmptyString ->
  getCurrentUserBySession (invalidateSession accs sid) sid = None
  /\ snd (validateLoginSession (invalidateSession accs sid) None sid) = false
  /\ isUserAdmin (invalidateSession accs sid) sid = false
  /\ (forall identifier collection,
        insertCurrentUserData (invalidateSession accs sid) sid identifier collection
        = Some (false, invalidateSession accs sid))
  /\ (forall sid', sid' <> EmptyString -> sid' <> sid ->
        getCurrentUserBySession (invalidateSession accs sid) sid'
        = getCurrentUserBySession accs sid')
  /\ map acc_username (invalidateSession accs sid) = map acc_username accs
  /\ map acc_role (invalidateSession accs sid) = map acc_role accs
  /\ map acc_data (invalidateSession accs sid) = map acc_data accs.
Proof.
  intros Hne.
  assert (L : getCurrentUserBySession (invalidateSession accs sid) sid = None).
  { rewrite invalidate_lookup by exact Hne. now rewrite String.eqb_refl. }
  split; [exact L|]. split.
  { unfold validateLoginSession. simpl. now rewrite L. }
  split.
  { unfold isUserAdmin. now rewrite L. }
  split.
  { intros identifier collection. unfold insertCurrentUserData. rewrite L.
    now destruct (negb (ObjectId_isValid identifier)). }
  split.
  { intros sid' N1 N2. rewrite invalidate_lookup by exact N1.
    destruct (String.eqb_spec sid' sid); [contradiction|reflexivity]. }
  unfold invalidateSession. rewrite !map_map.
  repeat split; apply map_ext; intros a; now destruct (String.eqb _ _).
Qed.

End Sessions.

Lemma update_login_length (username sid : string) (b : bool) (status : value)
  (accs : list account) :
  List.length (update_login username sid b status accs) = List.length accs.
Proof.
  induction accs as [|a t IH]; simpl; [reflexivity|].
  destruct (mongo_eq_string _ _); simpl; auto.
Qed.

Lemma update_login_found (username sid : string) (status : value) (accs : list account)
  (u : account) :
  getUserByUsername accs username = Some u ->
  getUserByUsername (update_login username sid false status accs) username
  = Some (mkAccount sid (acc_username u) (bson (login_role (acc_role u) status)) (acc_data u)).
Proof.
  unfold getUserByUsername. induction accs as [|a t IH]; simpl; [discriminate|].
  destruct (mongo_eq_string (acc_username a) username) eqn:M; simpl.
  - intros E. inversion E; subst. simpl. now rewrite M.
  - rewrite M. exact IH.
Qed.

Lemma update_login_others (username sid : string) (b : bool) (status : value)
  (accs : list account) (x : account) :
  In x accs -> mongo_eq_string (acc_username x) username = false ->
  In x (update_login username sid b status accs).
Proof.
  induction accs as [|a t IH]; simpl; [tauto|].
  intros [<-|Hin] M.
  - rewrite M. now left.
  - destruct (mongo_eq_string (acc_username a) username); simpl; auto.
Qed.

(** X19.  [addToAccounts] looks the user up by the lower-cased name.  A
    known user keeps username and data and gets the new session; a
    truthy stored role is kept, a falsy one is replaced by the
    directory's status; the number of accounts stays.  An unknown user
    gets a new account with empty data.  Accounts of other names are
    kept.  [updateSessionId] changes nothing for an unknown user. *)
Theorem login_keeps_account (accs : list account) (sid name : string) (status : value) :
  (forall u, getUserByUsername accs (toLowerCase name) = Some u ->
     exists a,
       getUserByUsername (addToAccounts accs sid name status) (toLowerCase name) = Some a
       /\ acc_sessionID a = sid
       /\ acc_username a = acc_username u
       /\ acc_data a = acc_data u
       /\ (truthy (acc_role u) = true -> acc_role a = bson (acc_role u))
       /\ (truthy (acc_role u) = false -> acc_role a = bson status)
       /\ List.length (addToAccounts accs sid name status) = List.length accs)
  /\ (getUserByUsername accs (toLowerCase name) = None ->
      getUserByUsername (addToAccounts accs sid name status) (toLowerCase name)
      = Some (mkAccount sid (VStr (toLowerCase name)) (bson status) (VObj []))
      /\ List.length (addToAccounts accs sid name status) = S (List.length accs))
  /\ (forall x, In x accs -> mongo_eq_string (acc_username x) (toLowerCase name) = false ->
        In x (addToAccounts accs sid name status))
  /\ addToAccounts accs sid (toLowerCase name) status = addToAccounts accs sid name status
  /\ (getUserByUsername accs (toLowerCase name) = None ->
      updateSessionId accs sid name status = accs).
Proof.
  unfold addToAccounts. rewrite toLowerCase_idempotent.
  split; [|split; [|split; [|split]]].
  - intros u U. rewrite U. eexists. split; [apply (update_login_found _ _ _ _ _ U)|].
    cbn [acc_sessionID acc_username acc_data acc_role].
    repeat split.
    + unfold login_role. intros T. rewrite T.
      replace (strict_eq (acc_role u) (VStr EmptyString)) with false; [reflexivity|].
      destruct (acc_role u); try reflexivity. simpl in *.
      destruct s; [discriminate|reflexivity].
    + unfold login_role. intros T. now rewrite T.
    + apply update_login_length.
  - intros U. rewrite U. split.
    + unfold getUserByUsername in *. apply find_app_new; [exact U|].
      simpl. apply String.eqb_refl.
    + rewrite length_app. simpl. lia.
  - intros x Hin M. destruct (getUserByUsername accs (toLowerCase name)).
    + now apply update_login_others.
    + apply in_or_app. now left.
  - reflexivity.
  - unfold updateSessionId, getUserByUsername. generalize (toLowerCase name) as n.
    intros n. induction accs as [|a t IH]; simpl; [reflexivity|].
    destruct (mongo_eq_string (acc_username a) n); [discriminate|].
    intros E. now rewrite IH.
Qed.

(* ================================================================== *)
(** * Owned data *)
(* ================================================================== *)

Lemma mapM_length {A B : Type} (f : A -> option B) (l : list A) (r : list B) :
  mapM f l = Some r -> List.length r = List.length l.
Proof.
  revert r. induction l as [|x t IH]; intros r; simpl.
  - intros E. now inversion E.
  - destruct (f x); [|discriminate]. destruct (mapM f t) as [ys|]; [|discriminate].
    intros E. inversion E; subst. simpl. now rewrite (IH ys).
Qed.

Lemma filter_length_le {A : Type} (p : A -> bool) (l : list A) :
  List.length (filter p l) <= List.length l.
Proof. induction l as [|x t IH]; simpl; [lia|]. destruct (p x); simpl; lia. Qed.

Lemma Forall2_assign (R : string * value -> string * value -> Prop) (k : string)
  (w : value) (a b : fields) :
  Forall2 R a b ->
  (forall kv v, In kv a -> lookup k b = Some v -> R kv (k, v) -> R kv (k, w)) ->
  lookup k b <> None ->
  Forall2 R a (assign k w b).
Proof.
  induction 1 as [|x [k' v'] ta tb Hxy Hrest IH]; intros Hw Hl; simpl in *.
  - congruence.
  - destruct (String.eqb_spec k k') as [->|N].
    + constructor; [|exact Hrest]. apply (Hw x v'); auto.
    + constructor; [exact Hxy|]. apply IH; [|exact Hl].
      intros kv v Hin Hlook. apply Hw; auto.
Qed.

Section OwnedDataProofs.
Context `{ObjectIdDriver} `{Resolving}.
Variable findAllModelOwners : value -> value.

Lemma resolve_all_owned_spec (fuel : nat) (st : store) (data data1 : fields) :
  resolve_all_owned fuel st data = Some data1 ->
  Forall2 (fun kv kv' =>
             fst kv' = fst kv
             /\ exists refs resolved,
                  snd kv = VArr refs
                  /\ mapM (fun obj => resolve fuel st obj (fst kv) VUndef) refs = Some resolved
                  /\ snd kv' = VArr (filter truthy resolved))
          data data1.
Proof.
  revert data1. induction data as [|[k v] t IH]; intros data1; simpl.
  - intros E. inversion E. constructor.
  - unfold resolve_owned. destruct v as [| | | | | |refs|]; try discriminate.
    destruct (mapM _ refs) as [resolved|] eqn:M; [|discriminate]. cbn [bind].
    destruct (resolve_all_owned fuel st t) as [t'|]; [|discriminate]. cbn [bind].
    intros E. inversion E; subst. constructor; [|now apply IH].
    split; [reflexivity|]. exists refs, resolved. auto.
Qed.

Lemma add_model_owners_truthy (models models' : list value) :
  mapM (add_model_owners findAllModelOwners) models = Some models' ->
  Forall (fun x => truthy x = true) models ->
  Forall (fun x => truthy x = true) models'.
Proof.
  revert models'. induction models as [|m t IH]; intros models'; simpl.
  - intros E _. inversion E. constructor.
  - destruct (add_model_owners findAllModelOwners m) as [m'|] eqn:A; [|discriminate].
    destruct (mapM _ t) as [t'|]; [|discriminate].
    intros E F. inversion E; subst. inversion F as [|? ? Tm Tt]; subst.
    constructor; [|now apply IH].
    unfold add_model_owners in A. rewrite Tm in A. simpl in A.
    destruct m; try discriminate. now inversion A.
Qed.

(** X20.  The [data] that [getCurrentUserData] sends has the collections
    of the account's [data], in order; every list holds truthy entries
    only and is no longer than the stored list; outside [model] every
    entry is what [Mongo.resolve] gives for one of the stored
    references. *)
Theorem owned_data_is_resolved (fuel : nat) (st : store) (accs : list account)
  (sid : string) (u : account) (data : fields) (r : value) :
  getCurrentUserBySession accs sid = Some u ->
  acc_data u = VObj data ->
  getCurrentUserData findAllModelOwners fuel st accs sid = Some r ->
  exists data',
    field (own_fields r) "status" = VStr "ok"
    /\ field (own_fields r) "data" = VObj data'
    /\ Forall2 (fun kv kv' =>
                  fst kv' = fst kv
                  /\ exists refs l,
                       snd kv = VArr refs /\ snd kv' = VArr l
                       /\ Forall (fun x => truthy x = true) l
                       /\ List.length l <= List.length refs
                       /\ (fst kv <> "model" ->
                           forall x, In x l ->
                             exists ref, In ref refs
                               /\ resolve fuel st ref (fst kv) VUndef = Some x))
               data data'.
Proof.
  intros S D. unfold getCurrentUserData. rewrite S, D. cbn [truthy negb].
  destruct (resolve_all_owned fuel st data) as [data1|] eqn:R; [|discriminate].
  cbn [bind]. apply resolve_all_owned_spec in R.
  assert (Base : Forall2 (fun kv kv' =>
                  fst kv' = fst kv
                  /\ exists refs l,
                       snd kv = VArr refs /\ snd kv' = VArr l
                       /\ Forall (fun x => truthy x = true) l
                       /\ List.length l <= List.length refs
                       /\ (fst kv <> "model" ->
                           forall x, In x l ->
                             exists ref, In ref refs
                               /\ resolve fuel st ref (fst kv) VUndef = Some x))
               data data1).
  { eapply Forall2_impl; [|exact R]. intros kv kv' (Hk & refs & resolved & Hr & M & Hv).
    split; [exact Hk|]. exists refs, (filter truthy resolved).
    split; [exact Hr|]. split; [exact Hv|]. split; [apply filter_truthy_all|]. split.
    - rewrite <- (mapM_length _ _ _ M). apply filter_length_le.
    - intros _ x Hx. apply filter_In in Hx. destruct Hx as [Hx _].
      destruct (mapM_In _ _ _ _ M Hx) as (ref & Hin & Hres). eauto. }
  destruct (truthy (field data1 "model") && _) eqn:C.
  2:{ cbn [bind]. intros E. inversion E; subst. exists data1.
      split; [reflexivity|]. split; [reflexivity|]. exact Base. }
  destruct (field data1 "model") as [| | | | | |models|] eqn:Fm; try discriminate.
  destruct (mapM (add_model_owners findAllModelOwners) models) as [models'|] eqn:M;
    [|discriminate].
  cbn [bind]. intros E. inversion E; subst. eexists.
  split; [reflexivity|]. split; [reflexivity|].
  apply Forall2_assign; [exact Base| |].
  - intros kv v Hin Hl (Hk & refs & l & Hr & Hv & Ht & Hlen & Hres).
    unfold field in Fm. rewrite Hl in Fm. subst v. cbn [snd fst] in *.
    inversion Hv; subst l.
    split; [exact Hk|]. exists refs, models'.
    split; [exact Hr|]. split; [reflexivity|].
    split; [now apply (add_model_owners_truthy models)|]. split.
    + rewrite (mapM_length _ _ _ M). exact Hlen.
    + intros N. symmetry in Hk. contradiction.
  - unfold field in Fm. destruct (lookup "model" data1); [discriminate|discriminate].
Qed.

End OwnedDataProofs.

(* ================================================================== *)
(** * Model settings *)
(* ================================================================== *)

Lemma update_first_Forall2 (p : value -> bool) (f : value -> value)
  (R : value -> value -> Prop) (l : list value) :
  (forall d, R d d) -> (forall d, p d = true -> R d (f d)) ->
  Forall2 R l (update_first p f l).
Proof.
  intros Rr Rf. induction l as [|x t IH]; simpl; [constructor|].
  destruct (p x) eqn:P; constructor; auto.
  clear IH. induction t; constructor; auto.
Qed.

Lemma update_first_none (p : value -> bool) (f : value -> value) (l : list value) :
  find p l = None -> update_first p f l = l.
Proof.
  induction l as [|x t IH]; simpl; [reflexivity|].
  destruct (p x); [discriminate|]. intros E. now rewrite IH.
Qed.

Lemma update_first_others (p : value -> bool) (f : value -> value) (l : list value)
  (d : value) :
  In d l -> p d = false -> In d (update_first p f l).
Proof.
  induction l as [|x t IH]; simpl; [tauto|].
  intros [<-|Hin] P.
  - rewrite P. now left.
  - destruct (p x); simpl; auto.
Qed.

Section ModelSettingsProofs.
Context `{ObjectIdDriver}.
Variable saveBase64toImage : value -> string -> string -> string.

(** X21.  [updateModelSettings] changes nothing outside [model]; in
    [model] it keeps every document's [_id] and every property but
    [settings], and the documents under another identifier.  No model
    under the identifier or no saved image: the store is unchanged.
    Else the first model under the identifier gets the settings of the
    response, whose [preview] is the address of the saved image. *)
Theorem settings_update_is_local (st st' : store) (identifier_ : string) (body : fields)
  (r : value) :
  updateModelSettings saveBase64toImage st identifier_ body = (st', r) ->
  let q := parse_identifier (VStr identifier_) in
  (forall c, c <> "model" -> docs st' c = docs st c)
  /\ Forall2 (fun d d' =>
                doc_id d' = doc_id d
                /\ forall k, k <> "settings" ->
                     lookup k (own_fields d') = lookup k (own_fields d))
             (docs st "model") (docs st' "model")
  /\ (forall d, In d (docs st "model") -> matches_id q d = false -> In d (docs st' "model"))
  /\ (findOne q (docs st "model") = None -> docs st' "model" = docs st "model")
  /\ (field (own_fields r) "status" <> VStr "ok" -> st' = st)
  /\ (field (own_fields r) "status" = VStr "ok" ->
      forall e, findOne q (docs st "model") = Some e ->
        exists e' path,
          findOne q (docs st' "model") = Some e'
          /\ field (own_fields e') "settings" = bson (field (own_fields r) "settings")
          /\ field (own_fields (field (own_fields r) "settings")) "preview" = VStr path
          /\ path <> EmptyString).
Proof.
  unfold updateModelSettings.
  set (preview := field body "preview").
  set (q := parse_identifier (VStr identifier_)).
  destruct (String.eqb_spec (saveBase64toImage preview "model" (toString q)) EmptyString)
    as [E0|N0].
  { intros E. inversion E; subst. cbv zeta.
    split; [auto|]. split.
    { clear. induction (docs st' "model"); constructor; auto. }
    split; [auto|]. split; [auto|]. split; [auto|].
    intros X. unfold error_message, field in X. simpl in X. discriminate. }
  intros E. inversion E; subst; clear E. cbv zeta.
  set (settings := VObj (assign "preview"
                           (VStr (saveBase64toImage preview "model" (toString q))) body)).
  split.
  { intros c N. now apply docs_set_docs_neq. }
  rewrite docs_set_docs_eq. split.
  { apply update_first_Forall2.
    - intros d. auto.
    - intros d _. split.
      + apply doc_id_apply_set. simpl. intuition discriminate.
      + intros k N. rewrite lookup_apply_set by (repeat constructor; simpl; tauto).
        simpl. destruct (String.eqb_spec k "settings"); [contradiction|reflexivity]. }
  split.
  { intros d Hin M. now apply update_first_others. }
  split.
  { intros F. now apply update_first_none. }
  split.
  { intros X. exfalso. apply X. reflexivity. }
  intros _ e F. unfold findOne in *.
  destruct (find_update_first (matches_id q) (apply_set [("settings", settings)])
              (docs st "model") e F) as [F' _].
  { unfold matches_id. rewrite doc_id_apply_set by (simpl; intuition discriminate).
    apply find_some in F. tauto. }
  exists (apply_set [("settings", settings)] e),
    (saveBase64toImage preview "model" (toString q)).
  split; [exact F'|]. split.
  { unfold field at 1. rewrite lookup_apply_set by (repeat constructor; simpl; tauto).
    reflexivity. }
  split; [|exact N0].
  unfold field at 2. simpl lookup. cbn [own_fields]. unfold settings. cbn [own_fields].
  apply field_assign_eq.
Qed.

End ModelSettingsProofs.

(* ================================================================== *)
(** * Cookie *)
(* ================================================================== *)

Lemma substring_prefix (a b : string) :
  String.substring 0 (String.length a) (a ++ b) = a.
Proof.
  induction a as [|c a IH]; simpl.
  - now destruct b.
  - now rewrite IH.
Qed.

Lemma substring_length_le (n m : nat) (s : string) :
  String.length (String.substring n m s) <= m.
Proof.
  revert n m. induction s as [|c s IH]; intros n m.
  - destruct n, m; simpl; lia.
  - destruct n as [|n].
    + destruct m as [|m]; simpl; [lia|]. specialize (IH 0 m). lia.
    + simpl. apply IH.
Qed.

(** X22.  [validateLoginSession] reads the session identifier as the 36
    characters after the first two of the cookie: a session identifier
    of 36 characters is looked up as it is, a longer one never. *)
Theorem session_cookie_is_cut_to_36 (accs : list account) (sid rest other : string) :
  let cookie := ("s:" ++ sid ++ rest)%string in
  (String.length sid = 36 ->
   validateLoginSession accs (Some cookie) other
   = (sid, match getCurrentUserBySession accs sid with Some _ => true | None => false end))
  /\ (36 < String.length sid ->
      fst (validateLoginSession accs (Some cookie) other) <> sid)
  /\ String.length (fst (validateLoginSession accs (Some cookie) other)) <= 36.
Proof.
  cbv zeta. unfold validateLoginSession. cbn [truthy].
  change (String.eqb ("s:" ++ sid ++ rest) EmptyString) with false.
  cbn [negb fst].
  change (String.substring 2 36 ("s:" ++ sid ++ rest))
    with (String.substring 0 36 (sid ++ rest)).
  split; [|split].
  - intros L. rewrite <- L. now rewrite !substring_prefix.
  - intros L E. pose proof (substring_length_le 0 36 (sid ++ rest)) as X.
    rewrite E in X. lia.
  - apply substring_length_le.
Qed.

(* ================================================================== *)
(** * Mailer *)
(* ================================================================== *)

Lemma filterM_app (p : value -> option bool) (l : list value) (x : value) :
  filterM p (l ++ [x])
  = (r <- filterM p l ;; b <- p x ;; Some (if b then r ++ [x] else r)).
Proof.
  induction l as [|y t IH]; simpl.
  - destruct (p x) as [[]|]; reflexivity.
  - destruct (p y) as [b|]; [|reflexivity]. cbn [bind]. rewrite IH.
    destruct (filterM p t) as [r|]; [|reflexivity]. cbn [bind].
    destruct (p x) as [bx|]; [|reflexivity]. cbn [bind].
    destruct b, bx; reflexivity.
Qed.

Lemma find_app_keep {A : Type} (p : A -> bool) (l : list A) (x : A) :
  p x = false -> find p (l ++ [x]) = find p l.
Proof.
  intros P. induction l as [|y t IH]; simpl; [now rewrite P|].
  destruct (p y); auto.
Qed.

Section MailerProofs.
Context `{ObjectIdDriver}.
Variable Target : fields.

Lemma configured_target (t : string) :
  truthy (field Target t) = true -> existsb (String.eqb t) (map fst Target) = true.
Proof.
  unfold field. induction Target as [|[k v] rest IH]; simpl; [discriminate|].
  destruct (String.eqb t k); [reflexivity|exact IH].
Qed.

Lemma recorded_mail (AccDb : db) (sid : string) (m : mail) (mailSent : bool) (now : string) :
  existsb (String.eqb (mail_target m)) (map fst Target) = true ->
  exists doc,
    objects (addUserToDatabase Target AccDb sid m mailSent now)
    = set_docs (mail_target m) (docs (objects AccDb) (mail_target m) ++ [VObj doc])
        (objects AccDb)
    /\ field doc "user" = bson (ldap_findOne (objects AccDb) sid)
    /\ field doc "sessionID" = VUndef
    /\ field doc "mailSent" = VBool mailSent.
Proof.
  intros K. unfold addUserToDatabase. rewrite K. cbn [negb objects].
  rewrite bson_object. eexists. split; [reflexivity|].
  rewrite !field_bson_fields. simpl. auto.
Qed.

Lemma ldap_findOne_after (AccDb : store) (c : string) (doc : fields) (sid : string) :
  field doc "sessionID" = VUndef ->
  ldap_findOne (set_docs c (docs AccDb c ++ [VObj doc]) AccDb) sid = ldap_findOne AccDb sid.
Proof.
  intros F. unfold ldap_findOne.
  destruct (String.eqb_spec "ldap" c) as [<-|N].
  - rewrite docs_set_docs_eq. rewrite find_app_keep; [reflexivity|].
    cbn [own_fields]. now rewrite F.
  - now rewrite docs_set_docs_neq by exact N.
Qed.

Lemma same_user_recorded (user : value) (doc : fields) (uid : value) :
  prop user "_id" = Some uid -> nullish uid = false ->
  field doc "user" = bson user ->
  same_user user (VObj doc) = Some true.
Proof.
  intros P N F. unfold same_user. cbn [prop bind]. rewrite F.
  assert (prop (bson user) "_id" = Some (bson uid)) as ->.
  { destruct user as [| | | | | | |o]; simpl in P; try discriminate;
      try (inversion P; subst; discriminate).
    rewrite bson_object. cbn [prop]. rewrite field_bson_fields.
    inversion P as [P']. unfold field in *.
    destruct (lookup "_id" o); [reflexivity|]. subst uid. discriminate. }
  cbn [bind]. unfold call_toString. rewrite nullish_bson, N, P. cbn [bind].
  rewrite N. cbn [bind]. rewrite toString_bson by (intros ->; discriminate).
  now rewrite String.eqb_refl.
Qed.

Lemma count_after_record (AccDb : db) (sid : string) (m : mail) (mailSent : bool)
  (now : string) (n : nat) (uid : value) :
  existsb (String.eqb (mail_target m)) (map fst Target) = true ->
  prop (ldap_findOne (objects AccDb) sid) "_id" = Some uid -> nullish uid = false ->
  countUserMails (objects AccDb) sid (mail_target m) = Some n ->
  countUserMails (objects (addUserToDatabase Target AccDb sid m mailSent now)) sid
    (mail_target m) = Some (S n).
Proof.
  intros K P N C.
  destruct (recorded_mail AccDb sid m mailSent now K) as (doc & -> & Fu & Fs & _).
  unfold countUserMails in *. rewrite ldap_findOne_after by exact Fs.
  rewrite docs_set_docs_eq, filterM_app.
  destruct (filterM _ (docs (objects AccDb) (mail_target m))) as [r|]; [|discriminate].
  cbn [bind] in *. rewrite (same_user_recorded _ _ _ P N Fu). cbn [bind].
  inversion C; subst. rewrite length_app. simpl. f_equal. lia.
Qed.

(** X23.  For a logged-in user, a configured target and fewer than three
    recorded mails (or the target [bugreport]): [sendMail] hands the
    mail to the transporter, and the user's count for the target is one
    higher afterwards whether the mail went out or not; the other
    collections are unchanged. *)
Theorem mail_attempts_are_counted (AccDb : db) (sid : string) (m : mail) (delivered : bool)
  (now : string) (n : nat) (uid : value) :
  truthy (field Target (mail_target m)) = true ->
  prop (ldap_findOne (objects AccDb) sid) "_id" = Some uid -> nullish uid = false ->
  countUserMails (objects AccDb) sid (mail_target m) = Some n ->
  mail_target m = "bugreport" \/ n < 3 ->
  exists AccDb',
    sendMail Target AccDb sid (Some m) delivered now
    = (AccDb',
       Sent (if delivered
             then VObj [("status", VStr "ok"); ("message", VStr "Mail has been sent")]
             else error_message "Failed sending mail"))
    /\ countUserMails (objects AccDb') sid (mail_target m) = Some (S n)
    /\ (forall c, c <> mail_target m -> docs (objects AccDb') c = docs (objects AccDb) c).
Proof.
  intros T P N C L. unfold sendMail. rewrite T, C. cbn [negb].
  pose proof (configured_target _ T) as K.
  replace (negb (String.eqb (mail_target m) "bugreport") && negb (n <? 3)%nat)
    with false.
  2:{ symmetry. destruct L as [->|L]; [reflexivity|].
      apply Nat.ltb_lt in L. rewrite L. apply andb_false_r. }
  exists (addUserToDatabase Target AccDb sid m delivered now).
  split; [now destruct delivered|].
  split; [now apply (count_after_record _ _ _ _ _ _ uid)|].
  intros c Nc. destruct (recorded_mail AccDb sid m delivered now K) as (doc & -> & _).
  now apply docs_set_docs_neq.
Qed.

(** X24.  After the third recorded mail of a user to a target other than
    [bugreport], the next [sendMail] of that user to that target is
    refused with 'Limit for this category reached' and records
    nothing. *)
Theorem mail_limit_is_three (AccDb : db) (sid : string) (m m' : mail)
  (delivered delivered' : bool) (now now' : string) (uid : value) :
  truthy (field Target (mail_target m)) = true ->
  prop (ldap_findOne (objects AccDb) sid) "_id" = Some uid -> nullish uid = false ->
  countUserMails (objects AccDb) sid (mail_target m) = Some 2 ->
  mail_target m <> "bugreport" ->
  mail_target m' = mail_target m ->
  let AccDb' := fst (sendMail Target AccDb sid (Some m) delivered now) in
  AccDb' <> AccDb
  /\ sendMail Target AccDb' sid (Some m') delivered' now'
     = (AccDb', Sent (error_message "Limit for this category reached")).
Proof.
  intros T P N C B E. cbv zeta.
  pose proof (configured_target _ T) as K.
  assert (S1 : fst (sendMail Target AccDb sid (Some m) delivered now)
               = addUserToDatabase Target AccDb sid m delivered now).
  { unfold sendMail. rewrite T, C. cbn [negb]. simpl Nat.ltb. rewrite andb_false_r.
    now destruct delivered. }
  rewrite S1. split.
  - unfold addUserToDatabase. rewrite K. cbn [negb]. intros X.
    apply (f_equal next_id) in X. simpl in X. lia.
  - unfold sendMail. rewrite E, T.
    rewrite (count_after_record _ _ _ _ _ _ uid K P N C). cbn [negb].
    apply String.eqb_neq in B. rewrite B. reflexivity.
Qed.

(** X25.  A mail to a configured target from a session without account
    is handed to the transporter and recorded with the user [null];
    from then on [sendMail] to that target is left by a TypeError for
    every session. *)
Theorem mail_without_session_blocks_target (AccDb : db) (sid : string) (m : mail)
  (delivered : bool) (now : string) :
  truthy (field Target (mail_target m)) = true ->
  ldap_findOne (objects AccDb) sid = VNull ->
  docs (objects AccDb) (mail_target m) = [] ->
  exists AccDb' r,
    sendMail Target AccDb sid (Some m) delivered now = (AccDb', Sent r)
    /\ r <> VObj [("status", VStr "error")]
    /\ forall sid' m' delivered' now',
         mail_target m' = mail_target m ->
         sendMail Target AccDb' sid' (Some m') delivered' now' = (AccDb', Threw).
Proof.
  intros T U D.
  pose proof (configured_target _ T) as K.
  assert (C : countUserMails (objects AccDb) sid (mail_target m) = Some 0).
  { unfold countUserMails. now rewrite D. }
  exists (addUserToDatabase Target AccDb sid m delivered now).
  exists (if delivered
          then VObj [("status", VStr "ok"); ("message", VStr "Mail has been sent")]
          else error_message "Failed sending mail").
  split; [|split].
  - unfold sendMail. rewrite T, C. cbn [negb]. simpl Nat.ltb. rewrite andb_false_r.
    now destruct delivered.
  - destruct delivered; discriminate.
  - intros sid' m' delivered' now' E. unfold sendMail. rewrite E, T. cbn [negb].
    replace (countUserMails (objects (addUserToDatabase Target AccDb sid m delivered now))
               sid' (mail_target m)) with (@None nat); [reflexivity|].
    destruct (recorded_mail AccDb sid m delivered now K) as (doc & -> & Fu & _).
    unfold countUserMails. rewrite docs_set_docs_eq, D. simpl app.
    cbn [filterM]. unfold same_user at 1. cbn [prop bind]. rewrite Fu, U. reflexivity.
Qed.

End MailerProofs.

(* ================================================================== *)
(** * Registration *)
(* ================================================================== *)

Lemma lookup_app (k : string) (a b : fields) :
  lookup k (a ++ b) = match lookup k a with Some v => Some v | None => lookup k b end.
Proof.
  induction a as [|[k' v'] t IH]; simpl; [reflexivity|].
  destruct (String.eqb k k'); [reflexivity|exact IH].
Qed.

Lemma existsb_find_none {A : Type} (p : A -> bool) (l : list A) :
  existsb p l = false -> find p l = None.
Proof.
  induction l as [|x t IH]; simpl; [reflexivity|].
  destruct (p x); [discriminate|exact IH].
Qed.

Section RegistrationProofs.
Context `{ObjectIdDriver}.
Variable EUserRank_admin EUserRank_user : value.
Variable hmac_sha512 : string -> string -> string.

Lemma lookup_with_id (doc : fields) (generated : nat) (k : string) :
  k <> "_id" -> lookup k (fst (with_id doc generated)) = lookup k doc.
Proof.
  intros N. unfold with_id. destruct (nullish (field doc "_id")); cbn [fst]; [|reflexivity].
  now rewrite lookup_assign_neq.
Qed.

Lemma lookup_bson_fields (k : string) (o : fields) :
  lookup k (map (fun kv => (fst kv, bson (snd kv))) o)
  = match lookup k o with
    | Some v => Some (bson v)
    | None => None
    end.
Proof.
  induction o as [|[k' v'] t IH]; simpl; [reflexivity|].
  destruct (String.eqb k k'); [reflexivity|exact IH].
Qed.

(** The ways [registerUser] ends, with what each has written. *)
Lemma registration_cases (AccDb AccDb' : db) (body : fields) (salt : string)
  (insert_ok : bool) (r : value) :
  registerUser EUserRank_admin EUserRank_user hmac_sha512 AccDb body salt insert_ok
  = Some (AccDb', r) ->
  (r = error_message "User already exists" /\ AccDb' = AccDb)
  \/ (r = error_message "Incomplete user data" /\ AccDb' = AccDb)
  \/ exists username password passwords' n,
       field body "username" = VStr username
       /\ field body "password" = VStr password
       /\ existsb (fun d => mongo_eq_string (field (own_fields d) "username") username)
                  (docs (objects AccDb) "users") = false
       /\ find (fun d => mongo_eq_string (field (own_fields d) "username") username)
               passwords'
          = Some (apply_set [("username", VStr username);
                             ("password", sha512 hmac_sha512 password salt)]
                    (match find (fun d => mongo_eq_string
                                            (field (own_fields d) "username") username)
                                  (docs (objects AccDb) "passwords") with
                     | Some e => e
                     | None => VObj [("_id", VId (ObjectId_fresh (next_id AccDb)));
                                     ("username", VStr username)]
                     end))
       /\ ((r = VObj [("status", VStr "ok"); ("message", VStr "Registered")]
            /\ insert_ok = true
            /\ objects AccDb'
               = set_docs "users"
                   (docs (objects AccDb) "users"
                    ++ [bson (VObj (fst (with_id
                          (remove_key "password"
                             (assign "data" (VObj [])
                                (assign "role"
                                   (match docs (objects AccDb) "users" with
                                    | [] => EUserRank_admin
                                    | _ => EUserRank_user
                                    end) body))) n)))])
                   (set_docs "passwords" passwords' (objects AccDb)))
           \/ (r = error_message "Failed inserting user"
               /\ objects AccDb' = set_docs "passwords" passwords' (objects AccDb))).
Proof.
  unfold registerUser.
  destruct (username_query (field body "username")) as [q|] eqn:Q; [|discriminate].
  cbn [bind].
  destruct (existsb q (docs (objects AccDb) "users")) eqn:Ex.
  { intros E. inversion E; subst. now left. }
  destruct (isUser _).
  2:{ intros E. inversion E; subst. right. now left. }
  destruct (field body "username") as [| | | |username| | |] eqn:U; try discriminate.
  destruct (field body "password") as [| | | |password| | |] eqn:P; try discriminate.
  simpl in Q. inversion Q; subst q; clear Q.
  intros E. right. right.
  set (by_name := fun d => mongo_eq_string (field (own_fields d) "username") username) in *.
  set (upd := [("username", VStr username); ("password", sha512 hmac_sha512 password salt)])
    in *.
  assert (Hby : forall e, by_name (apply_set upd e) = true).
  { intros e. unfold by_name, field. rewrite lookup_apply_set
      by (repeat constructor; simpl; intuition discriminate).
    simpl. apply String.eqb_refl. }
  exists username, password.
  exists (if existsb by_name (docs (objects AccDb) "passwords")
          then update_first by_name (apply_set upd) (docs (objects AccDb) "passwords")
          else docs (objects AccDb) "passwords"
               ++ [apply_set upd (VObj [("_id", VId (ObjectId_fresh (next_id AccDb)));
                                        ("username", VStr username)])]).
  exists (if existsb by_name (docs (objects AccDb) "passwords")
          then next_id AccDb else S (next_id AccDb)).
  split; [reflexivity|]. split; [reflexivity|].
  split; [exact Ex|]. split.
  - subst by_name upd. cbv beta in *. rewrite find_existsb.
    destruct (find _ (docs (objects AccDb) "passwords")) as [e|] eqn:F.
    + apply (proj1 (find_update_first _ _ _ _ F (Hby e))).
    + apply find_app_new; [exact F|apply Hby].
  - rewrite docs_set_docs_neq in E by discriminate.
    destruct insert_ok; cbn [andb] in E.
    + destruct (negb _) in E; inversion E; subst; clear E; cbn [objects].
      * left. split; [reflexivity|]. split; [reflexivity|].
        destruct (docs (objects AccDb) "users"); reflexivity.
      * right. now split.
    + inversion E; subst; clear E. right. now split.
Qed.

Lemma registered (AccDb AccDb' : db) (body : fields) (salt : string)
  (insert_ok : bool) (r : value) :
  registerUser EUserRank_admin EUserRank_user hmac_sha512 AccDb body salt insert_ok
  = Some (AccDb', r) ->
  field (own_fields r) "status" = VStr "ok" ->
  exists username password passwords' n,
    field body "username" = VStr username
    /\ field body "password" = VStr password
    /\ existsb (fun d => mongo_eq_string (field (own_fields d) "username") username)
               (docs (objects AccDb) "users") = false
    /\ find (fun d => mongo_eq_string (field (own_fields d) "username") username) passwords'
       = Some (apply_set [("username", VStr username);
                          ("password", sha512 hmac_sha512 password salt)]
                 (match find (fun d => mongo_eq_string (field (own_fields d) "username")
                                         username)
                               (docs (objects AccDb) "passwords") with
                  | Some e => e
                  | None => VObj [("_id", VId (ObjectId_fresh (next_id AccDb)));
                                  ("username", VStr username)]
                  end))
    /\ objects AccDb'
       = set_docs "users"
           (docs (objects AccDb) "users"
            ++ [bson (VObj (fst (with_id
                  (remove_key "password"
                     (assign "data" (VObj [])
                        (assign "role"
                           (match docs (objects AccDb) "users" with
                            | [] => EUserRank_admin
                            | _ => EUserRank_user
                            end) body))) n)))])
           (set_docs "passwords" passwords' (objects AccDb)).
Proof.
  intros E Ok.
  destruct (registration_cases _ _ _ _ _ _ E)
    as [[-> _]|[[-> _]|(username & password & passwords' & n & U & P & Ex & Fp & C)]];
    try discriminate.
  exists username, password, passwords', n.
  destruct C as [(_ & _ & Ob)|[-> _]]; [|discriminate].
  repeat split; assumption.
Qed.

Lemma registered_username (body : fields) (n : nat) (role : value) (username : string) :
  field body "username" = VStr username ->
  mongo_eq_string
    (field (own_fields (bson (VObj (fst (with_id
              (remove_key "password"
                 (assign "data" (VObj []) (assign "role" role body))) n)))))
           "username") username = true.
Proof.
  intros U. rewrite bson_object. cbn [own_fields]. rewrite field_bson_fields.
  rewrite lookup_with_id by discriminate.
  rewrite lookup_remove_key_neq by discriminate.
  rewrite !lookup_assign_neq by discriminate.
  unfold field in U. destruct (lookup "username" body); [|discriminate].
  subst v. simpl. apply String.eqb_refl.
Qed.

(** X26.  After a registration that answers 'Registered', [verifyUser]
    accepts the registered username with the registered password, and
    accepts another password exactly when its salted hash is the
    same. *)
Theorem register_then_verify (AccDb AccDb' : db) (body : fields) (salt : string)
  (insert_ok : bool) (r : value) :
  registerUser EUserRank_admin EUserRank_user hmac_sha512 AccDb body salt insert_ok
  = Some (AccDb', r) ->
  field (own_fields r) "status" = VStr "ok" ->
  exists username password,
    field body "username" = VStr username
    /\ field body "password" = VStr password
    /\ verifyUser hmac_sha512 (objects AccDb') username password = Some true
    /\ forall guess,
         verifyUser hmac_sha512 (objects AccDb') username guess
         = Some (String.eqb (hmac_sha512 salt guess) (hmac_sha512 salt password)).
Proof.
  intros E Ok.
  destruct (registered _ _ _ _ _ _ E Ok)
    as (username & password & passwords' & n & U & P & Ex & Fp & ->).
  exists username, password. split; [exact U|]. split; [exact P|].
  assert (V : forall guess,
    verifyUser hmac_sha512
      (set_docs "users"
         (docs (objects AccDb) "users"
          ++ [bson (VObj (fst (with_id
                (remove_key "password"
                   (assign "data" (VObj [])
                      (assign "role"
                         (match docs (objects AccDb) "users" with
                          | [] => EUserRank_admin
                          | _ => EUserRank_user
                          end) body))) n)))])
         (set_docs "passwords" passwords' (objects AccDb))) username guess
    = Some (String.eqb (hmac_sha512 salt guess) (hmac_sha512 salt password))).
  { intros guess. unfold verifyUser.
    rewrite docs_set_docs_eq.
    rewrite docs_set_docs_neq by discriminate. rewrite docs_set_docs_eq.
    rewrite find_app_new.
    - rewrite Fp. unfold apply_set at 1. cbn [prop].
      rewrite field_fold_assign by (repeat constructor; simpl; intuition discriminate).
      simpl lookup. cbn [bind]. unfold sha512. rewrite bson_object. simpl map.
      cbn [prop bind]. unfold field. simpl. reflexivity.
    - now apply existsb_find_none.
    - now apply registered_username. }
  split; [|exact V].
  rewrite V. now rewrite String.eqb_refl.
Qed.

(** X27.  After a registration that answers 'Registered', a registration
    under the same username is refused with 'User already exists' and
    changes nothing. *)
Theorem register_twice_is_refused (AccDb AccDb' : db) (body body' : fields)
  (salt salt' : string) (insert_ok insert_ok' : bool) (r : value) :
  registerUser EUserRank_admin EUserRank_user hmac_sha512 AccDb body salt insert_ok
  = Some (AccDb', r) ->
  field (own_fields r) "status" = VStr "ok" ->
  field body' "username" = field body "username" ->
  registerUser EUserRank_admin EUserRank_user hmac_sha512 AccDb' body' salt' insert_ok'
  = Some (AccDb', error_message "User already exists").
Proof.
  intros E Ok Same.
  destruct (registered _ _ _ _ _ _ E Ok)
    as (username & password & passwords' & n & U & P & Ex & Fp & Ob).
  unfold registerUser. rewrite Same, U. cbn [username_query bind].
  rewrite Ob, docs_set_docs_eq. rewrite existsb_app. cbn [existsb].
  now rewrite (registered_username _ _ _ _ U), orb_true_r.
Qed.

(** X28.  [registerUser] gives one of four answers.  With 'User already
    exists' and 'Incomplete user data' it has changed nothing.  With
    'Failed inserting user' it has written the password entry of the
    username, and nothing else: [users] and every collection but
    [passwords] are as they were.  With 'Registered' it has appended one
    document to [users]: without [password], with empty [data], with
    the role admin when there was no user before and user otherwise,
    whatever role the body asked for, and with the other properties of
    the body; only [users] and [passwords] are written. *)
Theorem registration_stores_no_password (AccDb AccDb' : db) (body : fields)
  (salt : string) (insert_ok : bool) (r : value) :
  registerUser EUserRank_admin EUserRank_user hmac_sha512 AccDb body salt insert_ok
  = Some (AccDb', r) ->
  (r = error_message "User already exists" \/ r = error_message "Incomplete user data"
   \/ r = error_message "Failed inserting user"
   \/ r = VObj [("status", VStr "ok"); ("message", VStr "Registered")])
  /\ (r = error_message "User already exists" \/ r = error_message "Incomplete user data" ->
      AccDb' = AccDb)
  /\ (r = error_message "Failed inserting user" ->
      (forall c, c <> "passwords" -> docs (objects AccDb') c = docs (objects AccDb) c)
      /\ exists username password entry,
           field body "username" = VStr username
           /\ field body "password" = VStr password
           /\ find (fun d => mongo_eq_string (field (own_fields d) "username") username)
                   (docs (objects AccDb') "passwords") = Some entry
           /\ field (own_fields entry) "password" = sha512 hmac_sha512 password salt)
  /\ (field (own_fields r) "status" = VStr "ok" ->
      (exists doc,
         docs (objects AccDb') "users" = docs (objects AccDb) "users" ++ [VObj doc]
         /\ lookup "password" doc = None
         /\ field doc "role"
            = bson (match docs (objects AccDb) "users" with
                    | [] => EUserRank_admin
                    | _ => EUserRank_user
                    end)
         /\ field doc "data" = VObj []
         /\ forall k, ~ In k ["role"; "data"; "password"; "_id"] ->
              field doc k = written (lookup k body))
      /\ forall c, c <> "users" -> c <> "passwords" ->
           docs (objects AccDb') c = docs (objects AccDb) c).
Proof.
  intros E.
  pose proof (registration_cases _ _ _ _ _ _ E) as C.
  split; [|split; [|split]].
  - destruct C as [[-> _]|[[-> _]|(? & ? & ? & ? & _ & _ & _ & _ & [(-> & _)|(-> & _)])]];
      tauto.
  - destruct C as [[_ ->]|[[_ ->]|(? & ? & ? & ? & _ & _ & _ & _ & [(-> & _)|(-> & _)])]];
      try reflexivity; intros [X|X]; discriminate.
  - intros ->.
    destruct C as [[X _]|[[X _]|(username & password & passwords' & n & U & P & Ex & Fp & C)]];
      try discriminate.
    destruct C as [(X & _)|(_ & Ob)]; [discriminate|].
    rewrite Ob. split.
    + intros c N. now rewrite docs_set_docs_neq.
    + exists username, password. eexists.
      split; [exact U|]. split; [exact P|].
      rewrite docs_set_docs_eq. split; [exact Fp|].
      unfold apply_set. cbn [own_fields].
      rewrite field_fold_assign by (repeat constructor; simpl; intuition discriminate).
      simpl lookup. unfold sha512. now rewrite bson_object.
  - intros Ok.
    destruct (registered _ _ _ _ _ _ E Ok)
      as (username & password & passwords' & n & U & P & Ex & Fp & Ob).
    rewrite Ob. split.
    + rewrite docs_set_docs_eq, bson_object. eexists. split; [reflexivity|].
      set (role := match docs (objects AccDb) "users" with
                   | [] => EUserRank_admin
                   | _ => EUserRank_user
                   end).
      split; [|split; [|split]].
      * rewrite lookup_bson_fields, lookup_with_id by discriminate.
        replace (lookup "password" (remove_key "password"
                   (assign "data" (VObj []) (assign "role" role body)))) with (@None value).
        -- reflexivity.
        -- symmetry. apply lookup_None. apply not_in_remove_key.
      * unfold field. rewrite lookup_bson_fields, lookup_with_id by discriminate.
        rewrite lookup_remove_key_neq by discriminate.
        rewrite lookup_assign_neq by discriminate. now rewrite lookup_assign_eq.
      * unfold field. rewrite lookup_bson_fields, lookup_with_id by discriminate.
        rewrite lookup_remove_key_neq by discriminate. now rewrite lookup_assign_eq.
      * intros k Hk. unfold field.
        assert (k <> "role" /\ k <> "data" /\ k <> "password" /\ k <> "_id")
          as (N1 & N2 & N3 & N4) by (simpl in Hk; intuition).
        rewrite lookup_bson_fields, lookup_with_id by exact N4.
        rewrite lookup_remove_key_neq by exact N3.
        rewrite !lookup_assign_neq by assumption.
        unfold written. now destruct (lookup k body).
    + intros c N1 N2. now rewrite !docs_set_docs_neq by assumption.
Qed.

End RegistrationProofs.

(* ================================================================== *)
(** * Roles are additive *)
(* ================================================================== *)

Lemma flatten_array (l : list value) :
  flatten (VArr l) = concat (map flatten l).
Proof.
  induction l as [|x t IH]; [reflexivity|].
  change (flatten (VArr (x :: t))) with (flatten x ++ flatten (VArr t)).
  now rewrite IH.
Qed.

Lemma In_flatten_string (s : string) (l : list value) :
  In (VStr s) l -> In (VStr s) (flatten (VArr l)).
Proof.
  intros Hin. rewrite flatten_array. apply in_concat.
  exists [VStr s]. split; [|now left].
  apply in_map_iff. now exists (VStr s).
Qed.

Lemma In_Set_from (s : string) (l seen : list value) :
  In (VStr s) l -> ~ In (VStr s) seen -> In (VStr s) (Set_from seen l).
Proof.
  revert seen. induction l as [|x t IH]; intros seen; simpl; [tauto|].
  intros [->|Hin] Hs.
  - replace (existsb (same_value_zero (VStr s)) seen) with false; [now left|].
    symmetry. apply not_true_is_false. intros E. apply existsb_exists in E.
    destruct E as (y & Hy & Heq). unfold same_value_zero in Heq.
    destruct y; simpl in Heq; try discriminate. apply String.eqb_eq in Heq. now subst.
  - destruct (existsb (same_value_zero x) seen) eqn:E; [now apply IH|].
    destruct (strict_eq x (VStr s)) eqn:Q.
    + left. destruct x; simpl in Q; try discriminate.
      apply String.eqb_eq in Q. now subst.
    + right. apply IH; [exact Hin|]. intros [->|Hs']; [|contradiction].
      simpl in Q. now rewrite String.eqb_refl in Q.
Qed.

Section RolesAdditive.
Context `{ObjectIdDriver}.
Variable _digId : string.

Lemma add_roles_additive (nr : value) (f g : fields) (p : string) (roles : fields) :
  p <> "roles" ->
  add_roles _digId true nr f p = Some g ->
  lookup "roles" f = Some (VObj roles) ->
  exists roles_g, lookup "roles" g = Some (VObj roles_g) /\ keeps_roles _digId roles roles_g.
Proof.
  intros Np E L. unfold add_roles in E. rewrite (lookup_field _ _ _ L) in E.
  destruct (negb (truthy (field f p))).
  - inversion E; subst. exists roles. split; [exact L|]. split; [auto|].
    intros l Hl. exists l. auto.
  - inversion E; subst; clear E. eexists. split.
    + rewrite lookup_assign_neq by congruence. apply lookup_assign_eq.
    + split.
      * intros o No. now apply lookup_assign_neq.
      * intros l Hl. eexists. split; [apply field_assign_eq|].
        intros s Hin. unfold Set_dedup. apply In_Set_from; [|intros []].
        rewrite Hl.
        change (flatten (VArr [VArr l;
                  if truthy nr then nr else field f p]))
          with (flatten (VArr l) ++ flatten (VArr [if truthy nr then nr else field f p])).
        apply in_or_app. left. now apply In_flatten_string.
Qed.

Lemma merge_roles_additive (nr : value) (f g : fields) (roles : fields) :
  merge_roles _digId nr f = Some g ->
  lookup "roles" f = Some (VObj roles) ->
  exists roles_g, lookup "roles" g = Some (VObj roles_g) /\ keeps_roles _digId roles roles_g.
Proof.
  intros E L. unfold merge_roles in E. rewrite (lookup_field _ _ _ L) in E.
  cbn [is_undefined negb] in E.
  set (entry := if truthy (field roles _digId) then field roles _digId else VArr []) in E.
  set (f1 := assign "roles" (VObj (assign _digId entry roles)) f) in E.
  destruct (add_roles _digId true nr f1 "institution_role") as [g1|] eqn:E1; [|discriminate].
  cbn [bind] in E.
  assert (L1 : lookup "roles" f1 = Some (VObj (assign _digId entry roles)))
    by apply lookup_assign_eq.
  assert (Ni : "institution_role" <> "roles") by discriminate.
  assert (Npr : "person_role" <> "roles") by discriminate.
  destruct (add_roles_additive _ _ _ _ _ Ni E1 L1) as (r1 & Lr1 & K1 & K1').
  destruct (add_roles_additive _ _ _ _ _ Npr E Lr1) as (r2 & Lr2 & K2 & K2').
  exists r2. split; [exact Lr2|]. split.
  - intros o No. rewrite K2, K1 by exact No. now apply lookup_assign_neq.
  - intros l Hl.
    assert (He : field (assign _digId entry roles) _digId = VArr l).
    { rewrite field_assign_eq. unfold entry. now rewrite Hl. }
    destruct (K1' l He) as (l1 & Hl1 & I1).
    destruct (K2' l1 Hl1) as (l2 & Hl2 & I2).
    exists l2. split; [exact Hl2|]. auto.
Qed.

(** X29.  When a stored person or institution is normalized from a
    payload without a role map, the stored entries of the other owners
    stay as they are, and every non-empty role tag stored for the owner
    is still stored afterwards. *)
Theorem stored_roles_survive (payload : fields) (add_to_coll : string) (new_roles : value)
  (d d' : db) (ref e : value) (roles0 : fields) :
  add_to_coll = "person" \/ add_to_coll = "institution" ->
  NoDup (map fst payload) ->
  wf_store (objects d) ->
  ObjectId_isValid (field payload "_id") = true ->
  findOne (ObjectId_new (field payload "_id")) (docs (objects d) add_to_coll) = Some e ->
  lookup "roles" payload = None ->
  lookup "roles" (own_fields e) = Some (VObj roles0) ->
  addAndGetId _digId (VObj payload) add_to_coll new_roles d = Some (ref, d') ->
  exists e' roles',
    findOne (ObjectId_new (field payload "_id")) (docs (objects d') add_to_coll) = Some e'
    /\ field (own_fields e') "roles" = VObj roles'
    /\ (forall o, o <> _digId -> field roles' o = written (lookup o roles0))
    /\ (forall l s, field roles0 _digId = VArr l -> In (VStr s) l -> s <> EmptyString ->
          exists l', field roles' _digId = VArr l' /\ In (VStr s) l').
Proof.
  intros Hc Np W V F Lp Le E.
  apply addAndGetId_after_nesting in E.
  destruct E as (p1 & d1 & E & L & N & D & X).
  specialize (N Np).
  assert (Fid : field p1 "_id" = field payload "_id").
  { unfold field. now rewrite L by discriminate. }
  assert (We : NoDup (map fst (own_fields e))).
  { apply (W add_to_coll). unfold findOne in F. now apply find_some in F. }
  assert (Mp : merged_payload d1 add_to_coll p1 = spread (own_fields e) p1).
  { unfold merged_payload. now rewrite Fid, V, D, F. }
  assert (Nm : NoDup (map fst (merged_payload d1 add_to_coll p1))).
  { rewrite Mp. now apply NoDup_spread. }
  assert (Lm : lookup "roles" (merged_payload d1 add_to_coll p1) = Some (VObj roles0)).
  { rewrite Mp, lookup_spread by exact N. unfold merged.
    rewrite L by discriminate. now rewrite Lp. }
  apply addAndGetId_entity_steps in E. cbv zeta in E.
  destruct E as (f2 & f3 & E2 & E3 & _ & ->).
  destruct (addAndGetId_entity_payload _ _ _ _ _ _ _ E2 E3) as [_ Nu].
  specialize (Nu Nm).
  replace (existsb (String.eqb add_to_coll) ["person"; "institution"]) with true in E2
    by (destruct Hc as [-> | ->]; reflexivity).
  destruct (merge_roles_additive _ _ _ _ E2 Lm) as (r2 & Lr2 & K & K').
  apply merge_roles_entry in E2. destruct E2 as [T2 _].
  destruct (drop_null_roles_entry _ _ _ E3 T2) as (roles & l & Hr & Hl & Hr3).
  rewrite Lr2 in Hr. inversion Hr; subst roles; clear Hr.
  rewrite Fid, V. cbn [objects]. rewrite docs_set_docs_eq, D.
  destruct (upsert_found _ (remove_key "_id" f3) _ _ F (not_in_remove_key _ _)) as [Fu _].
  exists (apply_set (remove_key "_id" f3) e).
  exists (map (fun kv => (fst kv, bson (snd kv))) (assign _digId (VArr (filter truthy l)) r2)).
  split; [exact Fu|]. split.
  { unfold field. rewrite lookup_apply_set by exact Nu.
    rewrite lookup_remove_key_neq by discriminate. rewrite Hr3. apply bson_object. }
  split.
  { intros o No. rewrite field_bson_fields.
    rewrite lookup_assign_neq by exact No. rewrite K by exact No.
    unfold written. now destruct (lookup o roles0). }
  intros l0 s Hl0 Hin Hs.
  destruct (K' l0 Hl0) as (l' & Hl' & I).
  rewrite Hl in Hl'. inversion Hl'; subst l'.
  exists (map bson (filter truthy l)). split.
  { rewrite field_bson_fields, lookup_assign_eq. apply bson_array. }
  apply in_map_iff. exists (VStr s). split; [reflexivity|].
  apply filter_In. split; [now apply I|].
  now apply nonempty_truthy.
Qed.

End RolesAdditive.

(* ================================================================== *)
(** * Roles per owner *)
(* ================================================================== *)

Lemma In_accumulated (owner : string) (stored : option fields) (given : value)
  (s : string) :
  s <> EmptyString -> In (VStr s) (flatten given) ->
  In (VStr s) (accumulated owner stored given).
Proof.
  intros Ns Hin. unfold accumulated. apply filter_In.
  split; [|now apply nonempty_truthy].
  unfold Set_dedup. apply In_Set_from; [|intros []].
  destruct stored as [roles|]; rewrite flatten_array; cbn [map concat].
  - apply in_or_app. right. apply in_or_app. now left.
  - apply in_or_app. now left.
Qed.

Lemma accumulated_first (owner a : string) :
  a <> EmptyString -> accumulated owner None (VArr [VStr a]) = [VStr a].
Proof.
  intros Na. unfold accumulated, Set_dedup. cbn [flatten app Set_from existsb filter].
  now rewrite nonempty_truthy.
Qed.

Lemma accumulated_other (owner other a b : string) :
  owner <> other -> b <> EmptyString ->
  accumulated owner (Some [(other, VArr [VStr a])]) (VArr [VStr b]) = [VStr b].
Proof.
  intros No Nb. unfold accumulated, Set_dedup, field. cbn [lookup].
  apply String.eqb_neq in No. rewrite No. cbn [truthy flatten app Set_from existsb filter].
  apply String.eqb_neq in Nb. now rewrite Nb.
Qed.

Lemma accumulated_again (owner other a b : string) :
  a <> EmptyString ->
  accumulated owner (Some [(owner, VArr [VStr a]); (other, VArr [VStr b])]) (VArr [VStr a])
  = [VStr a].
Proof.
  intros Na. unfold accumulated, Set_dedup, field. cbn [lookup].
  rewrite String.eqb_refl. cbn [truthy flatten app Set_from existsb filter].
  unfold same_value_zero. cbn [strict_eq]. rewrite String.eqb_refl.
  cbn [orb Set_from filter truthy]. apply String.eqb_neq in Na. now rewrite Na.
Qed.

Section RolesPerOwner.
Context `{ObjectIdDriver}.
Variable _digId : string.

Lemma add_roles_skip (b : bool) (nr : value) (f : fields) (p : string) :
  truthy (field f p) = false -> add_roles _digId b nr f p = Some f.
Proof. unfold add_roles. now intros ->. Qed.

Lemma add_roles_appends (b : bool) (nr : value) (f : fields) (p : string)
  (roles : fields) :
  truthy (field f p) = true -> field f "roles" = VObj roles ->
  add_roles _digId b nr f p
  = Some (assign p (VArr [])
            (assign "roles"
               (VObj (assign _digId
                        (VArr (Set_dedup
                                 (if b
                                  then flatten (VArr [field roles _digId;
                                                      if truthy nr then nr else field f p])
                                  else flatten (VArr [if truthy nr then nr
                                                      else field f p]))))
                        roles))
               (assign p (if truthy nr then nr else field f p) f))).
Proof. unfold add_roles. now intros -> ->. Qed.

Lemma drop_null_roles_array (f roles : fields) (l : list value) :
  lookup "roles" f = Some (VObj roles) -> field roles _digId = VArr l ->
  drop_null_roles _digId f
  = Some (assign "roles" (VObj (assign _digId (VArr (filter truthy l)) roles)) f).
Proof.
  intros L E. unfold drop_null_roles. now rewrite (lookup_field _ _ _ L), E.
Qed.

(** The role block on a payload with one truthy role field. *)
Lemma merge_roles_one (nr : value) (f : fields) (p q : string) (stored : option fields) :
  (p = "person_role" /\ q = "institution_role")
  \/ (p = "institution_role" /\ q = "person_role") ->
  truthy (field f p) = true -> truthy (field f q) = false ->
  field f "roles" = match stored with Some roles => VObj roles | None => VUndef end ->
  exists g,
    merge_roles _digId nr f = Some g
    /\ lookup "roles" g
       = Some (VObj
                 (assign _digId
                    (VArr (Set_dedup
                             (match stored with
                              | Some roles =>
                                  flatten (VArr [if truthy (field roles _digId)
                                                 then field roles _digId else VArr [];
                                                 if truthy nr then nr else field f p])
                              | None => flatten (VArr [if truthy nr then nr else field f p])
                              end)))
                    (match stored with Some roles => roles | None => [] end)))
    /\ (forall k, k <> "roles" -> k <> p -> lookup k g = lookup k f)
    /\ (NoDup (map fst f) -> NoDup (map fst g)).
Proof.
  intros Hpq Tp Tq Hr.
  set (roles := match stored with Some roles => roles | None => [] end).
  set (entry := if truthy (field roles _digId) then field roles _digId else VArr []).
  set (f1 := assign "roles" (VObj (assign _digId entry roles)) f).
  set (b := match stored with Some _ => true | None => false end).
  set (given := if truthy nr then nr else field f p).
  assert (E0 : merge_roles _digId nr f
               = (g1 <- add_roles _digId b nr f1 "institution_role" ;;
                  add_roles _digId b nr g1 "person_role")).
  { unfold merge_roles. rewrite Hr. unfold f1, entry, roles, b.
    destruct stored; reflexivity. }
  assert (Np : p <> "roles") by (destruct Hpq as [[-> _]|[-> _]]; discriminate).
  assert (Nq : q <> "roles") by (destruct Hpq as [[_ ->]|[_ ->]]; discriminate).
  assert (Npq : q <> p) by (destruct Hpq as [[-> ->]|[-> ->]]; discriminate).
  assert (Tp1 : truthy (field f1 p) = true)
    by (unfold f1; now rewrite field_assign_neq).
  assert (Tq1 : truthy (field f1 q) = false)
    by (unfold f1; now rewrite field_assign_neq).
  assert (R1 : field f1 "roles" = VObj (assign _digId entry roles))
    by apply field_assign_eq.
  set (g := assign p (VArr [])
              (assign "roles"
                 (VObj (assign _digId
                          (VArr (Set_dedup
                                   (if b
                                    then flatten (VArr [field (assign _digId entry roles)
                                                          _digId;
                                                        if truthy nr then nr
                                                        else field f1 p])
                                    else flatten (VArr [if truthy nr then nr
                                                        else field f1 p]))))
                          (assign _digId entry roles)))
                 (assign p (if truthy nr then nr else field f1 p) f1))).
  assert (Eg : merge_roles _digId nr f = Some g).
  { rewrite E0. destruct Hpq as [[-> ->]|[-> ->]].
    - rewrite (add_roles_skip _ _ _ _ Tq1). cbn [bind].
      apply (add_roles_appends _ _ _ _ _ Tp1 R1).
    - rewrite (add_roles_appends _ _ _ _ _ Tp1 R1). cbn [bind].
      apply add_roles_skip. fold g. unfold g.
      rewrite !field_assign_neq by discriminate. exact Tq1. }
  exists g. split; [exact Eg|]. split; [|split].
  - unfold g. rewrite lookup_assign_neq by congruence. rewrite lookup_assign_eq.
    rewrite assign_assign, field_assign_eq.
    unfold f1. rewrite field_assign_neq by exact Np.
    unfold b, entry, roles, given. destruct stored; reflexivity.
  - intros k Nk Nkp. unfold g, f1.
    rewrite lookup_assign_neq by exact Nkp. rewrite lookup_assign_neq by exact Nk.
    rewrite lookup_assign_neq by exact Nkp. now rewrite lookup_assign_neq by exact Nk.
  - intros N. unfold g, f1. now repeat apply NoDup_assign.
Qed.

Lemma addAndGetId_entity_compose (add_to_coll : string) (nr : value) (p : fields)
  (d : db) (field2 field3 : fields) :
  (if existsb (String.eqb add_to_coll) ["person"; "institution"]
   then merge_roles _digId nr (merged_payload d add_to_coll p)
   else Some (merged_payload d add_to_coll p)) = Some field2 ->
  drop_null_roles _digId field2 = Some field3 ->
  addAndGetId_entity _digId add_to_coll nr (VObj p) d
  = Some (VObj [("_id", if ObjectId_isValid (field p "_id")
                        then ObjectId_new (field p "_id")
                        else VId (ObjectId_fresh (next_id d)))],
          mkDb (set_docs add_to_coll
                  (upsert (if ObjectId_isValid (field p "_id")
                           then ObjectId_new (field p "_id")
                           else VId (ObjectId_fresh (next_id d)))
                     (remove_key "_id" field3) (docs (objects d) add_to_coll))
                  (objects d))
               (if ObjectId_isValid (field p "_id") then next_id d else S (next_id d))).
Proof.
  unfold addAndGetId_entity, merged_payload.
  destruct (ObjectId_isValid (field p "_id")); cbv zeta; intros -> E3;
    simpl bind; rewrite E3; reflexivity.
Qed.

Lemma merged_payload_found (d : db) (c : string) (p : fields) (e : value) (k : string) :
  NoDup (map fst p) ->
  ObjectId_isValid (field p "_id") = true ->
  findOne (ObjectId_new (field p "_id")) (docs (objects d) c) = Some e ->
  lookup k (merged_payload d c p) = merged (own_fields e) p k.
Proof.
  intros Np V F. unfold merged_payload. rewrite V, F. now apply lookup_spread.
Qed.

(** Roles submitted for a stored person or institution, in one role
    field: the entity is stored with the owner's entry accumulated and
    the rest of its role map as it was. *)
Lemma addAndGetId_entity_accumulates (c : string) (nr : value) (payload : fields)
  (d : db) (e : value) (p q : string) (stored : option fields) :
  c = "person" \/ c = "institution" ->
  (p = "person_role" /\ q = "institution_role")
  \/ (p = "institution_role" /\ q = "person_role") ->
  NoDup (map fst payload) -> wf_object e ->
  ObjectId_isValid (field payload "_id") = true ->
  findOne (ObjectId_new (field payload "_id")) (docs (objects d) c) = Some e ->
  truthy (field (merged_payload d c payload) p) = true ->
  truthy (field (merged_payload d c payload) q) = false ->
  field (merged_payload d c payload) "roles"
  = match stored with Some roles => VObj roles | None => VUndef end ->
  exists d' e',
    addAndGetId_entity _digId c nr (VObj payload) d
    = Some (VObj [("_id", ObjectId_new (field payload "_id"))], d')
    /\ findOne (ObjectId_new (field payload "_id")) (docs (objects d') c) = Some e'
    /\ wf_object e'
    /\ field (own_fields e') "roles"
       = bson (VObj (assign _digId
                       (VArr (accumulated _digId stored
                                (if truthy nr then nr
                                 else field (merged_payload d c payload) p)))
                       (match stored with Some roles => roles | None => [] end)))
    /\ truthy (field (own_fields e') q) = false.
Proof.
  intros Hc Hpq Np We V F Tp Tq Hr.
  set (mp := merged_payload d c payload) in *.
  assert (Nm : NoDup (map fst mp)).
  { unfold mp, merged_payload. rewrite V, F. now apply NoDup_spread. }
  destruct (merge_roles_one nr mp p q stored Hpq Tp Tq Hr) as (f2 & E2 & L2 & K2 & N2).
  pose proof (drop_null_roles_array f2 _ _ L2 (field_assign_eq _ _ _)) as E3.
  match type of E3 with _ = Some ?x => set (f3 := x) in E3 end.
  assert (E2' : (if existsb (String.eqb c) ["person"; "institution"]
                 then merge_roles _digId nr (merged_payload d c payload)
                 else Some (merged_payload d c payload)) = Some f2)
    by (destruct Hc as [-> | ->]; exact E2).
  pose proof (addAndGetId_entity_compose c nr payload d f2 f3 E2' E3) as E.
  rewrite V in E.
  assert (Nq : q <> "roles") by (destruct Hpq as [[_ ->]|[_ ->]]; discriminate).
  assert (Nqi : q <> "_id") by (destruct Hpq as [[_ ->]|[_ ->]]; discriminate).
  assert (Nqp : q <> p) by (destruct Hpq as [[-> ->]|[-> ->]]; discriminate).
  assert (N3 : NoDup (map fst (remove_key "_id" f3))).
  { apply NoDup_remove_key. unfold f3. apply NoDup_assign. auto. }
  destruct (upsert_found _ (remove_key "_id" f3) _ _ F (not_in_remove_key _ _)) as [Fu _].
  eexists. exists (apply_set (remove_key "_id" f3) e).
  split; [exact E|]. split; [cbn [objects]; now rewrite docs_set_docs_eq|].
  split; [|split].
  - unfold wf_object, apply_set. cbn [own_fields]. now apply NoDup_fold_assign.
  - unfold field at 1. rewrite lookup_apply_set by exact N3.
    rewrite lookup_remove_key_neq by discriminate.
    unfold f3. rewrite lookup_assign_eq. rewrite assign_assign.
    unfold accumulated. now destruct stored.
  - unfold field. rewrite lookup_apply_set by exact N3.
    rewrite lookup_remove_key_neq by exact Nqi.
    unfold f3. rewrite lookup_assign_neq by exact Nq.
    rewrite K2 by assumption.
    unfold field in Tq. destruct (lookup q mp) as [v|] eqn:Lq.
    + now rewrite truthy_bson.
    + unfold mp in Lq. rewrite (merged_payload_found d c payload e q Np V F) in Lq.
      unfold merged in Lq. destruct (lookup q payload); [discriminate|].
      now rewrite Lq.
Qed.

Lemma addAndGetId_plain (p : fields) (c : string) (nr : value) (d : db) :
  is_array (field p "person_institution") = false ->
  addAndGetId _digId (VObj p) c nr d = addAndGetId_entity _digId c nr (VObj p) d.
Proof.
  intros Ha. unfold addAndGetId, addNestedInstitution.
  destruct (String.eqb c "person"); [|reflexivity].
  destruct (field p "person_institution"); try reflexivity. discriminate.
Qed.

End RolesPerOwner.

Section RolesScenario.
Context `{ObjectIdDriver}.
Hypothesis isValid_ObjectId : forall h, ObjectId_isValid (VId h) = true.
Hypothesis hex_ObjectId : forall h, ObjectId_hex (VId h) = h.

(** One submission of the scenario: a stored person, referred to by
    identifier, with one role for one owner. *)
Lemma submit_role (owner role h : string) (d : db) (e : value) (stored : option fields) :
  wf_object e ->
  findOne (VId h) (docs (objects d) "person") = Some e ->
  field (own_fields e) "roles"
  = match stored with Some roles => VObj roles | None => VUndef end ->
  truthy (field (own_fields e) "institution_role") = false ->
  exists d' e',
    addAndGetId owner (VObj [("_id", VId h); ("person_role", VArr [VStr role])])
      "person" VUndef d
    = Some (reference h, d')
    /\ findOne (VId h) (docs (objects d') "person") = Some e'
    /\ wf_object e'
    /\ field (own_fields e') "roles"
       = bson (VObj (assign owner
                       (VArr (accumulated owner stored (VArr [VStr role])))
                       (match stored with Some roles => roles | None => [] end)))
    /\ truthy (field (own_fields e') "institution_role") = false.
Proof.
  intros We F Hr Ti.
  set (payload := [("_id", VId h); ("person_role", VArr [VStr role])]).
  assert (Np : NoDup (map fst payload))
    by (repeat constructor; simpl; intuition discriminate).
  assert (Hid : ObjectId_new (field payload "_id") = VId h)
    by (unfold ObjectId_new; change (field payload "_id") with (VId h);
        now rewrite hex_ObjectId).
  assert (V : ObjectId_isValid (field payload "_id") = true)
    by apply isValid_ObjectId.
  assert (F' : findOne (ObjectId_new (field payload "_id")) (docs (objects d) "person")
               = Some e) by now rewrite Hid.
  assert (Lk : forall k, field (merged_payload d "person" payload) k
                         = match lookup k payload with
                           | Some v => v
                           | None => field (own_fields e) k
                           end).
  { intros k. unfold field at 1. rewrite (merged_payload_found d "person" payload e k Np V F').
    unfold merged, field. now destruct (lookup k payload). }
  destruct (addAndGetId_entity_accumulates owner "person" VUndef payload d e
              "person_role" "institution_role" stored)
    as (d' & e' & E & Fe & We' & Re & Te); auto.
  - now rewrite Lk.
  - now rewrite Lk.
  - now rewrite Lk.
  - exists d', e'. rewrite Hid in E, Fe.
    rewrite addAndGetId_plain by reflexivity.
    split; [exact E|]. split; [exact Fe|]. split; [exact We'|]. split; [|exact Te].
    rewrite Re. now rewrite Lk.
Qed.

End RolesScenario.

(** C2, as the code has it.  After a person or institution
    normalization the stored entity's [roles[ownerId]] is a list without
    falsy entries, and it has no duplicates whenever the normalization
    appended roles, that is whenever the merged payload carried a truthy
    role field.  When roles are submitted in one role field for a stored
    entity whose payload brings no role map, the entity is stored with
    the owner's entry accumulated, the stored roles and the submitted
    ones with every role once, and with the entries of the other owners
    as they were; every non-empty role tag submitted is in the entry.
    So for every stored person and any owners O1 and O2 and non-empty
    roles A and B: submitting the person with role A for O1, then with
    role B for O2, yields the roles [{O1: [A], O2: [B]}], and submitting
    role A for O1 again leaves them so.  Ada, submitted as a new person,
    is an instance. *)
Theorem roles_accumulate_per_owner :
  (forall (D : ObjectIdDriver) (_digId : string) (payload : fields)
          (add_to_coll : string) (new_roles : value) (d d' : db) (ref : value),
      add_to_coll = "person" \/ add_to_coll = "institution" ->
      NoDup (map fst payload) ->
      wf_store (objects d) ->
      addAndGetId _digId (VObj payload) add_to_coll new_roles d = Some (ref, d') ->
      exists h e' roles l,
        ref = reference h
        /\ findOne (VId h) (docs (objects d') add_to_coll) = Some e'
        /\ field (own_fields e') "roles" = VObj roles
        /\ field roles _digId = VArr l
        /\ Forall (fun x => truthy x = true) l
        /\ (appends_roles (merged_payload d add_to_coll payload) = true ->
            dup_free l = true
            /\ (Forall (fun x => is_primitive x = true) l -> NoDup l)))
  /\ (forall (D : ObjectIdDriver) (_digId : string) (payload : fields)
             (add_to_coll : string) (new_roles : value) (d d' : db) (ref e : value)
             (p q : string) (stored : option fields),
        add_to_coll = "person" \/ add_to_coll = "institution" ->
        (p = "person_role" /\ q = "institution_role")
        \/ (p = "institution_role" /\ q = "person_role") ->
        NoDup (map fst payload) ->
        wf_object e ->
        ObjectId_isValid (field payload "_id") = true ->
        findOne (ObjectId_new (field payload "_id")) (docs (objects d) add_to_coll)
        = Some e ->
        lookup "roles" payload = None ->
        field (own_fields e) "roles"
        = match stored with Some roles => VObj roles | None => VUndef end ->
        truthy (field (merged_payload d add_to_coll payload) p) = true ->
        truthy (field (merged_payload d add_to_coll payload) q) = false ->
        addAndGetId _digId (VObj payload) add_to_coll new_roles d = Some (ref, d') ->
        let given := if truthy new_roles then new_roles
                     else field (merged_payload d add_to_coll payload) p in
        exists e' roles',
          findOne (ObjectId_new (field payload "_id")) (docs (objects d') add_to_coll)
          = Some e'
          /\ field (own_fields e') "roles" = VObj roles'
          /\ field roles' _digId = VArr (map bson (accumulated _digId stored given))
          /\ (forall o, o <> _digId ->
                field roles' o
                = written (lookup o (match stored with Some roles => roles | None => [] end)))
          /\ (forall s, s <> EmptyString -> In (VStr s) (flatten given) ->
                In (VStr s) (map bson (accumulated _digId stored given))))
  /\ (forall (D : ObjectIdDriver),
        (forall h, ObjectId_isValid (VId h) = true) ->
        (forall h, ObjectId_hex (VId h) = h) ->
        forall (O1 O2 A B h : string) (d : db) (e : value),
          O1 <> O2 -> A <> EmptyString -> B <> EmptyString ->
          wf_object e ->
          findOne (VId h) (docs (objects d) "person") = Some e ->
          field (own_fields e) "roles" = VUndef ->
          truthy (field (own_fields e) "institution_role") = false ->
          let submit := fun owner role =>
            addAndGetId owner (VObj [("_id", VId h); ("person_role", VArr [VStr role])])
              "person" VUndef in
          exists d1 d2 d3 e1 e2 e3,
            submit O1 A d = Some (reference h, d1)
            /\ submit O2 B d1 = Some (reference h, d2)
            /\ submit O1 A d2 = Some (reference h, d3)
            /\ findOne (VId h) (docs (objects d1) "person") = Some e1
            /\ field (own_fields e1) "roles" = VObj [(O1, VArr [VStr A])]
            /\ findOne (VId h) (docs (objects d2) "person") = Some e2
            /\ field (own_fields e2) "roles"
               = VObj [(O1, VArr [VStr A]); (O2, VArr [VStr B])]
            /\ findOne (VId h) (docs (objects d3) "person") = Some e3
            /\ field (own_fields e3) "roles"
               = VObj [(O1, VArr [VStr A]); (O2, VArr [VStr B])])
  /\ addAndGetId Example.owner1 (VObj Example.ada_new) "person" VUndef Example.empty_db
     = Some (reference Example.ada, Example.ada_after_first)
  /\ addAndGetId Example.owner2 (VObj (Example.ada_with_role "B")) "person" VUndef
       Example.ada_after_first
     = Some (reference Example.ada, Example.ada_after_second)
  /\ (exists e, findOne (VId Example.ada) (docs (objects Example.ada_after_second) "person")
                = Some e
                /\ field (own_fields e) "roles"
                   = VObj [(Example.owner1, VArr [VStr "A"]);
                           (Example.owner2, VArr [VStr "B"])])
  /\ addAndGetId Example.owner1 (VObj (Example.ada_with_role "A")) "person" VUndef
       Example.ada_after_second
     = Some (reference Example.ada, Example.ada_after_second).
Proof.
  split; [intros; eapply roles_entry_after_normalization; eauto|].
  split; [|split].
  - intros D _digId payload c nr d d' ref e p q stored Hc Hpq Np We V F Lp Hr Tp Tq E given.
    apply addAndGetId_after_nesting in E.
    destruct E as (p1 & d1 & E & L & N & Dc & X).
    specialize (N Np).
    assert (Fid : field p1 "_id" = field payload "_id")
      by (unfold field; now rewrite L by discriminate).
    assert (Hp : forall k, k <> "person_institution_data" ->
                   field (merged_payload d1 c p1) k = field (merged_payload d c payload) k)
      by (intros k Hk; now apply merged_payload_after_nesting).
    assert (Hroles : field (merged_payload d c payload) "roles"
                     = match stored with Some roles => VObj roles | None => VUndef end).
    { unfold field at 1. rewrite (merged_payload_found d c payload e "roles" Np V F).
      unfold merged. rewrite Lp. exact Hr. }
    assert (Npd : p <> "person_institution_data")
      by (destruct Hpq as [[-> _]|[-> _]]; discriminate).
    assert (Nqd : q <> "person_institution_data")
      by (destruct Hpq as [[_ ->]|[_ ->]]; discriminate).
    destruct (addAndGetId_entity_accumulates _digId c nr p1 d1 e p q stored)
      as (d'' & e' & E' & Fe & We' & Re & Te); auto;
      try (rewrite ?Fid, ?Dc, ?Hp by (assumption || discriminate); assumption).
    rewrite E in E'. injection E' as _ <-.
    rewrite Fid in Fe. rewrite Hp in Re by exact Npd. fold given in Re.
    rewrite bson_object in Re.
    eexists e', _. split; [exact Fe|]. split; [exact Re|]. split; [|split].
    + rewrite field_bson_fields, lookup_assign_eq. apply bson_array.
    + intros o No. rewrite field_bson_fields. now rewrite lookup_assign_neq.
    + intros s Ns Hin. apply in_map_iff. exists (VStr s).
      split; [reflexivity|]. now apply In_accumulated.
  - intros D Vl Hl O1 O2 A B h d e N12 NA NB We F Hr Ti submit.
    destruct (@submit_role D Vl Hl O1 A h d e None We F Hr Ti)
      as (d1 & e1 & E1 & F1 & W1 & R1 & T1).
    rewrite accumulated_first in R1 by exact NA.
    change (bson (VObj (assign O1 (VArr [VStr A]) [])))
      with (VObj [(O1, VArr [VStr A])]) in R1.
    destruct (@submit_role D Vl Hl O2 B h d1 e1 (Some [(O1, VArr [VStr A])]) W1 F1 R1 T1)
      as (d2 & e2 & E2 & F2 & W2 & R2 & T2).
    rewrite accumulated_other in R2 by assumption || congruence.
    assert (A2 : assign O2 (VArr [VStr B]) [(O1, VArr [VStr A])]
                 = [(O1, VArr [VStr A]); (O2, VArr [VStr B])]).
    { cbn [assign]. destruct (String.eqb_spec O2 O1); [congruence | reflexivity]. }
    rewrite A2 in R2.
    change (bson (VObj [(O1, VArr [VStr A]); (O2, VArr [VStr B])]))
      with (VObj [(O1, VArr [VStr A]); (O2, VArr [VStr B])]) in R2.
    destruct (@submit_role D Vl Hl O1 A h d2 e2
                (Some [(O1, VArr [VStr A]); (O2, VArr [VStr B])]) W2 F2 R2 T2)
      as (d3 & e3 & E3 & F3 & W3 & R3 & T3).
    rewrite accumulated_again in R3 by exact NA.
    assert (A3 : assign O1 (VArr [VStr A]) [(O1, VArr [VStr A]); (O2, VArr [VStr B])]
                 = [(O1, VArr [VStr A]); (O2, VArr [VStr B])]).
    { cbn [assign]. now rewrite String.eqb_refl. }
    rewrite A3 in R3.
    change (bson (VObj [(O1, VArr [VStr A]); (O2, VArr [VStr B])]))
      with (VObj [(O1, VArr [VStr A]); (O2, VArr [VStr B])]) in R3.
    exists d1, d2, d3, e1, e2, e3. repeat split; assumption.
  - split; [reflexivity|]. split; [reflexivity|]. split; [|reflexivity].
    eexists. split; reflexivity.
Qed.

Lemma roles_accumulate_per_owner_witness :
  exists d1 d2 d3 e1 e2 e3,
    addAndGetId Example.owner1 (VObj (Example.ada_with_role "A")) "person" VUndef
      Example.ada_stored = Some (reference Example.ada, d1)
    /\ addAndGetId Example.owner2 (VObj (Example.ada_with_role "B")) "person" VUndef d1
       = Some (reference Example.ada, d2)
    /\ addAndGetId Example.owner1 (VObj (Example.ada_with_role "A")) "person" VUndef d2
       = Some (reference Example.ada, d3)
    /\ findOne (VId Example.ada) (docs (objects d1) "person") = Some e1
    /\ field (own_fields e1) "roles" = VObj [(Example.owner1, VArr [VStr "A"])]
    /\ findOne (VId Example.ada) (docs (objects d2) "person") = Some e2
    /\ field (own_fields e2) "roles"
       = VObj [(Example.owner1, VArr [VStr "A"]); (Example.owner2, VArr [VStr "B"])]
    /\ findOne (VId Example.ada) (docs (objects d3) "person") = Some e3
    /\ field (own_fields e3) "roles"
       = VObj [(Example.owner1, VArr [VStr "A"]); (Example.owner2, VArr [VStr "B"])].
Proof.
  refine (proj1 (proj2 (proj2 roles_accumulate_per_owner)) canonical_driver
            (fun h => eq_refl) (fun h => eq_refl)
            Example.owner1 Example.owner2 "A" "B" Example.ada Example.ada_stored
            Example.ada_plain _ _ _ _ eq_refl eq_refl eq_refl);
    try discriminate.
  unfold wf_object. repeat constructor; simpl; intuition discriminate.
Defined.


(* ================================================================== *)
(** * Reading *)
(* ================================================================== *)

Section ReadingPlain.
Context `{ObjectIdDriver} `{Resolving}.
Hypothesis isValid_ObjectId : forall h, ObjectId_isValid (VId h) = true.
Hypothesis hex_ObjectId : forall h, ObjectId_hex (VId h) = h.

(** X30.  For a valid identifier and a document that is none of the
    kinds that are expanded: [getObjectFromCollection] answers with the
    properties of the first document stored under the identifier, as an
    ObjectId or as its string, and with [status] 'ok', unless the
    document has a [status] of its own, which it then answers; when no
    document is stored under it the answer is the error that names the
    lower-cased collection. *)
Theorem read_returns_stored_document (fuel : nat) (st : store) (accs : list account)
  (req : request) :
  ObjectId_isValid (VStr (params_identifier req)) = true ->
  let e := findOne_or (ObjectId_hex (VStr (params_identifier req)))
             (docs st (toLowerCase (params_collection req))) in
  isDigitalObject e = false -> isModel e = false -> isCompilation e = false ->
  (truthy e = true ->
   getObjectFromCollection (S fuel) st accs req = Some (full_body e)
   /\ (NoDup (map fst (own_fields e)) ->
       (forall k, k <> "status" ->
          lookup k (own_fields (full_body e)) = lookup k (own_fields e))
       /\ field (own_fields (full_body e)) "status"
          = match lookup "status" (own_fields e) with Some s => s | None => VStr "ok" end))
  /\ (truthy e = false ->
      getObjectFromCollection (S fuel) st accs req
      = Some (error_message ("No " ++ toLowerCase (params_collection req)
                             ++ " found with given identifier"))).
Proof.
  intros V e G1 G2 G3.
  assert (R : resolve (S fuel) st (parse_identifier (VStr (params_identifier req)))
                (toLowerCase (params_collection req)) VUndef = Some e).
  { unfold parse_identifier. rewrite V. unfold ObjectId_new. cbn [resolve].
    cbn [truthy negb own_fields]. unfold field. cbn [lookup truthy].
    rewrite isValid_ObjectId, hex_ObjectId. cbn [negb andb].
    fold e. now rewrite G1, G2, G3. }
  unfold getObjectFromCollection. rewrite R. cbn [bind]. split.
  - intros T. rewrite T, G3. cbn [negb]. split; [reflexivity|].
    intros N. unfold full_body. cbn [own_fields]. split.
    + intros k Nk. rewrite lookup_spread by exact N. unfold merged.
      destruct (lookup k (own_fields e)); [reflexivity|].
      unfold status_ok. simpl. destruct (String.eqb_spec k "status"); [contradiction|].
      reflexivity.
    + unfold field. rewrite lookup_spread by exact N. unfold merged.
      now destruct (lookup "status" (own_fields e)).
  - intros T. now rewrite T.
Qed.

End ReadingPlain.

(* ================================================================== *)
(** * The further statements on the examples *)
(* ================================================================== *)

Lemma remove_without_ok_keeps_accounts_witness :
  [Example.alice_owning] = [Example.alice_owning]
  /\ (Example.repository_after_delete = Example.repository
      \/ (true = true /\ false = false /\ VObj status_error = VObj status_error
          /\ Example.repository_after_delete
             = set_docs "model"
                 (deleteOne (VId Example.idA) (docs Example.repository "model"))
                 Example.repository)).
Proof.
  refine (remove_without_ok_keeps_accounts Example.repository [Example.alice_owning]
           Example.delete_model true false Example.repository_after_delete
           [Example.alice_owning] (VObj status_error) _ _);
    [reflexivity | discriminate].
Defined.

Lemma remove_only_for_listed_owner_witness :
  exists u values,
    getCurrentUserBySession [Example.alice_owning] "session-1" = Some u
    /\ truthy (VStr "alice") = true
    /\ strict_eq (VStr "alice") (acc_username u) = true
    /\ Object_values (acc_data u) = Some values
    /\ In Example.idA (map toString (fold_left js_concat values [])).
Proof.
  refine (remove_only_for_listed_owner Example.repository [Example.alice_owning]
           Example.delete_model true false Example.repository_after_delete
           [Example.alice_owning] (Sent (VObj status_error)) _ _);
    [reflexivity | discriminate].
Defined.

Lemma remove_frame_witness :
  docs Example.repository_after_delete "digitalobject"
  = docs Example.repository "digitalobject".
Proof.
  refine (proj1 (remove_frame Example.repository [Example.alice_owning]
                   Example.delete_model true true Example.repository_after_delete
                   [Example.alice_owning] (Sent (VObj status_ok)) eq_refl)
            "digitalobject" _).
  discriminate.
Defined.

Lemma remove_by_listed_owner_witness :
  removeObjectFromCollection Example.repository [Example.alice_owning] Example.delete_model
    true true
  = (Example.repository_after_delete, [Example.alice_owning], Sent (VObj status_ok)).
Proof.
  refine (proj1 (remove_by_listed_owner Example.repository [Example.alice_owning]
                   Example.delete_model Example.alice_owning [("model", [Example.idA])]
                   "model" [Example.idA] _ _ _ _ _ _ _) _);
    [reflexivity | reflexivity | reflexivity | reflexivity
     | left; reflexivity | left; reflexivity | discriminate | left; reflexivity].
Defined.

Lemma attach_keeps_listing_witness :
  exists u' data',
    getCurrentUserBySession [Sample.alice_owning_two] "session-1" = Some u'
    /\ acc_data u' = VObj data'
    /\ acc_username u' = acc_username Example.alice_owning
    /\ acc_role u' = acc_role Example.alice_owning
    /\ (forall h, listed_in [("model", VArr [VId Example.idA])] h -> listed_in data' h)
    /\ (forall a, In a [Example.alice_owning] -> acc_sessionID a <> "session-1" ->
          In a [Sample.alice_owning_two]).
Proof.
  refine (attach_keeps_listing [Example.alice_owning] [Sample.alice_owning_two] "session-1"
           (VId Example.idB) "model" true Example.alice_owning
           [("model", VArr [VId Example.idA])] _ _ _);
    reflexivity.
Defined.

Lemma attach_then_owner_witness :
  exists accs',
    insertCurrentUserData [Example.alice] "session-1" (VId Example.idA) "model"
    = Some (true, accs')
    /\ isUserOwnerOfObject accs' "session-1" (VId Example.idA) = Some true.
Proof.
  refine (attach_then_owner [Example.alice] "session-1" (VId Example.idA) "model"
           Example.alice [] _ _ _ _ _);
    reflexivity.
Defined.

Lemma attach_then_remove_witness :
  exists accs',
    insertCurrentUserData [Example.alice] "session-1" (VId Example.idA) "model"
    = Some (true, accs')
    /\ removeObjectFromCollection Example.repository accs' Example.delete_model true true
       = (Example.repository_after_delete, accs', Sent (VObj status_ok)).
Proof.
  refine (attach_then_remove Example.repository [Example.alice] Example.delete_model
           (VId Example.idA) Example.alice [] _ _ _ _ _ _ _ _);
    try reflexivity; discriminate.
Defined.


Lemma search_without_filter_lists_all_witness :
  searchObjectWithFilter 2 Example.repository (Sample.search_for "DigitalObject" VUndef)
  = Some [VId Example.idB].
Proof.
  refine (search_without_filter_lists_all 2 Example.repository
           (Sample.search_for "DigitalObject" VUndef) [Example.digobj] _ _ _);
    [reflexivity | reflexivity | repeat constructor; discriminate].
Defined.

Lemma search_narrows_with_terms_witness :
  exists ids2,
    searchObjectWithFilter 2 Example.repository
      (Sample.search_for "DigitalObject" (VArr (map VStr ["AMPHORA"; "attic"]))) = Some ids2
    /\ incl ids2 [VId Example.idB]
    /\ (incl (map toLowerCase ["AMPHORA"; "attic"]) (map toLowerCase ["amphora"]) ->
        ids2 = [VId Example.idB]).
Proof.
  refine (search_narrows_with_terms 2 Example.repository
           (Sample.search_for "DigitalObject" (VArr (map VStr ["amphora"])))
           (Sample.search_for "DigitalObject" (VArr (map VStr ["AMPHORA"; "attic"])))
           ["amphora"] ["AMPHORA"; "attic"] [VId Example.idB] _ _ _ _ _ _);
    [reflexivity | reflexivity | reflexivity | discriminate
     | intros x [<-|[]]; left; reflexivity | reflexivity].
Defined.

Lemma concatFix_idempotent_witness :
  exists r generated',
    @concatFix number_driver
      (map VArr [[reference Example.idA; VObj [("_id", VNum 2)]];
                 [VObj [("_id", VNum 2)]; reference Example.idA]]) 0
    = Some (r, generated')
    /\ forall again, @concatFix number_driver [VArr r] again = Some (r, again).
Proof.
  refine (@concatFix_idempotent number_driver (fun h => eq_refl) (fun h => eq_refl)
           [reference Example.idA; VObj [("_id", VNum 2)]]
           [[VObj [("_id", VNum 2)]; reference Example.idA]] 0 _).
  repeat constructor.
Defined.

Lemma fixObjectId_idempotent_witness :
  fixObjectId (fixObjectId (VObj Example.tag_payload)) = fixObjectId (VObj Example.tag_payload).
Proof.
  exact (proj1 (fixObjectId_idempotent (fun h => eq_refl) (fun h => eq_refl)
                  (VObj Example.tag_payload))).
Defined.

Lemma normalizer_never_deletes_witness :
  exists extra,
    map doc_id (docs (objects Example.tag_db_after) "tag")
    = map doc_id (docs (objects Example.tag_db) "tag") ++ extra.
Proof.
  exact (proj1 (normalizer_never_deletes Example.owner1 (VObj Example.tag_payload) "tag"
                  VUndef Example.tag_db Example.tag_db_after (reference Example.idA)
                  eq_refl) "tag").
Defined.

Lemma normalizer_reference_resolves_witness :
  exists h e,
    reference Example.idA = reference h
    /\ In e (docs (objects Example.tag_db_after) "tag")
    /\ (doc_id e = VId h \/ doc_id e = VStr h)
    /\ (isDigitalObject e = false -> isModel e = false -> isCompilation e = false ->
        forall fuel depth,
          resolve (S fuel) (objects Example.tag_db_after) (reference Example.idA) "tag" depth
          = Some e).
Proof.
  refine (normalizer_reference_resolves Example.owner1 (fun h => eq_refl) (fun h => eq_refl)
           (VObj Example.tag_payload) "tag" VUndef Example.tag_db Example.tag_db_after
           (reference Example.idA) _).
  reflexivity.
Defined.



Lemma logout_ends_session_witness :
  getCurrentUserBySession (invalidateSession [Example.alice_owning] "session-1") "session-1"
  = None.
Proof.
  exact (proj1 (logout_ends_session [Example.alice_owning] "session-1"
                  ltac:(discriminate))).
Defined.

Lemma login_keeps_account_witness :
  exists a,
    getUserByUsername (addToAccounts [Example.alice_owning] "session-2" "Alice" (VStr "U"))
      (toLowerCase "Alice") = Some a
    /\ acc_sessionID a = "session-2"
    /\ acc_username a = acc_username Example.alice_owning
    /\ acc_data a = acc_data Example.alice_owning
    /\ (truthy (acc_role Example.alice_owning) = true ->
        acc_role a = bson (acc_role Example.alice_owning))
    /\ (truthy (acc_role Example.alice_owning) = false -> acc_role a = bson (VStr "U"))
    /\ List.length (addToAccounts [Example.alice_owning] "session-2" "Alice" (VStr "U"))
       = List.length [Example.alice_owning].
Proof.
  exact (proj1 (login_keeps_account [Example.alice_owning] "session-2" "Alice" (VStr "U"))
           Example.alice_owning eq_refl).
Defined.

Lemma owned_data_is_resolved_witness :
  exists data',
    field (own_fields Sample.alice_data_response) "status" = VStr "ok"
    /\ field (own_fields Sample.alice_data_response) "data" = VObj data'
    /\ Forall2 (fun kv kv' =>
                  fst kv' = fst kv
                  /\ exists refs l,
                       snd kv = VArr refs /\ snd kv' = VArr l
                       /\ Forall (fun x => truthy x = true) l
                       /\ List.length l <= List.length refs
                       /\ (fst kv <> "model" ->
                           forall x, In x l ->
                             exists ref, In ref refs
                               /\ resolve 3 Example.repository ref (fst kv) VUndef = Some x))
               [("model", VArr [VId Example.idA])] data'.
Proof.
  refine (owned_data_is_resolved (fun _ => VArr []) 3 Example.repository
            [Example.alice_owning] "session-1" Example.alice_owning
            [("model", VArr [VId Example.idA])] Sample.alice_data_response _ _ _);
    reflexivity.
Defined.

Lemma session_cookie_is_cut_to_36_witness :
  validateLoginSession [mkAccount Sample.session36 (VStr "alice") (VStr "S") (VObj [])]
    (Some ("s:" ++ Sample.session36 ++ ".c2lnbmF0dXJl")%string) "other"
  = (Sample.session36, true).
Proof.
  exact (proj1 (session_cookie_is_cut_to_36
                  [mkAccount Sample.session36 (VStr "alice") (VStr "S") (VObj [])]
                  Sample.session36 ".c2lnbmF0dXJl" "other") eq_refl).
Defined.

Lemma settings_update_is_local_witness :
  docs (fst (updateModelSettings Sample.save_preview Example.repository Example.idA
               Sample.settings_body)) "digitalobject"
  = docs Example.repository "digitalobject".
Proof.
  refine (proj1 (settings_update_is_local Sample.save_preview Example.repository _
                   Example.idA Sample.settings_body _ eq_refl) "digitalobject" _).
  discriminate.
Defined.

Lemma mail_attempts_are_counted_witness :
  exists AccDb',
    sendMail Sample.Target
      (Sample.accounts_db [Sample.mail_from_alice 0; Sample.mail_from_alice 1] 2)
      "session-1" (Some Sample.question) false "2019-04-02T09:00:00.000Z"
    = (AccDb', Sent (error_message "Failed sending mail"))
    /\ countUserMails (objects AccDb') "session-1" "contact" = Some 3
    /\ (forall c, c <> "contact" ->
          docs (objects AccDb') c
          = docs (objects (Sample.accounts_db
                             [Sample.mail_from_alice 0; Sample.mail_from_alice 1] 2)) c).
Proof.
  refine (mail_attempts_are_counted Sample.Target
           (Sample.accounts_db [Sample.mail_from_alice 0; Sample.mail_from_alice 1] 2)
           "session-1" Sample.question false "2019-04-02T09:00:00.000Z" 2
           (VId Example.owner1) _ _ _ _ _);
    [reflexivity | reflexivity | reflexivity | reflexivity | right; lia].
Defined.

Lemma mail_limit_is_three_witness :
  let AccDb' :=
    fst (sendMail Sample.Target
           (Sample.accounts_db [Sample.mail_from_alice 0; Sample.mail_from_alice 1] 2)
           "session-1" (Some Sample.question) true "2019-04-02T09:00:00.000Z") in
  AccDb' <> Sample.accounts_db [Sample.mail_from_alice 0; Sample.mail_from_alice 1] 2
  /\ sendMail Sample.Target AccDb' "session-1" (Some Sample.question) true
       "2019-04-02T09:05:00.000Z"
     = (AccDb', Sent (error_message "Limit for this category reached")).
Proof.
  refine (mail_limit_is_three Sample.Target
           (Sample.accounts_db [Sample.mail_from_alice 0; Sample.mail_from_alice 1] 2)
           "session-1" Sample.question Sample.question true true
           "2019-04-02T09:00:00.000Z" "2019-04-02T09:05:00.000Z" (VId Example.owner1) _ _ _ _ _ _);
    [reflexivity | reflexivity | reflexivity | reflexivity | discriminate | reflexivity].
Defined.

Lemma mail_without_session_blocks_target_witness :
  exists AccDb' r,
    sendMail Sample.Target (Sample.accounts_db [] 0) "nobody" (Some Sample.question) true
      "2019-04-02T09:00:00.000Z" = (AccDb', Sent r)
    /\ r <> VObj [("status", VStr "error")]
    /\ forall sid' m' delivered' now',
         mail_target m' = mail_target Sample.question ->
         sendMail Sample.Target AccDb' sid' (Some m') delivered' now' = (AccDb', Threw).
Proof.
  refine (mail_without_session_blocks_target Sample.Target (Sample.accounts_db [] 0)
           "nobody" Sample.question true "2019-04-02T09:00:00.000Z" _ _ _);
    reflexivity.
Defined.

Lemma register_then_verify_witness :
  exists username password,
    field Sample.bob_body "username" = VStr username
    /\ field Sample.bob_body "password" = VStr password
    /\ verifyUser Sample.toy_hmac (objects Sample.users_db_after) username password
       = Some true
    /\ forall guess,
         verifyUser Sample.toy_hmac (objects Sample.users_db_after) username guess
         = Some (String.eqb (Sample.toy_hmac "0123456789abcdef" guess)
                            (Sample.toy_hmac "0123456789abcdef" password)).
Proof.
  refine (register_then_verify Sample.rank_admin Sample.rank_user Sample.toy_hmac
           Sample.users_db Sample.users_db_after Sample.bob_body "0123456789abcdef"
           true Sample.registered_response _ _);
    reflexivity.
Defined.

Lemma register_twice_is_refused_witness :
  registerUser Sample.rank_admin Sample.rank_user Sample.toy_hmac Sample.users_db_after
    Sample.bob_body "fedcba9876543210" true
  = Some (Sample.users_db_after, error_message "User already exists").
Proof.
  refine (register_twice_is_refused Sample.rank_admin Sample.rank_user Sample.toy_hmac
           Sample.users_db Sample.users_db_after Sample.bob_body Sample.bob_body
           "0123456789abcdef" "fedcba9876543210" true true
           Sample.registered_response _ _ _);
    reflexivity.
Defined.

Lemma registration_stores_no_password_witness :
  (forall c, c <> "passwords" ->
     docs (objects Sample.users_db_failed) c = docs (objects Sample.users_db) c)
  /\ exists username password entry,
       field Sample.carol_body "username" = VStr username
       /\ field Sample.carol_body "password" = VStr password
       /\ find (fun d => mongo_eq_string (field (own_fields d) "username") username)
               (docs (objects Sample.users_db_failed) "passwords") = Some entry
       /\ field (own_fields entry) "password"
          = sha512 Sample.toy_hmac password "0123456789abcdef".
Proof.
  exact (proj1 (proj2 (proj2
           (registration_stores_no_password Sample.rank_admin Sample.rank_user
              Sample.toy_hmac Sample.users_db Sample.users_db_failed Sample.carol_body
              "0123456789abcdef" true (error_message "Failed inserting user") eq_refl)))
           eq_refl).
Defined.

Lemma stored_roles_survive_witness :
  exists e' roles',
    findOne (ObjectId_new (field (Example.ada_with_role "B") "_id"))
      (docs (objects Example.ada_after_second) "person") = Some e'
    /\ field (own_fields e') "roles" = VObj roles'
    /\ (forall o, o <> Example.owner2 ->
          field roles' o = written (lookup o [(Example.owner1, VArr [VStr "A"])]))
    /\ (forall l s,
          field [(Example.owner1, VArr [VStr "A"])] Example.owner2 = VArr l ->
          In (VStr s) l -> s <> EmptyString ->
          exists l', field roles' Example.owner2 = VArr l' /\ In (VStr s) l').
Proof.
  refine (stored_roles_survive Example.owner2 (Example.ada_with_role "B") "person" VUndef
           Example.ada_after_first Example.ada_after_second (reference Example.ada)
           (VObj [("_id", VId Example.ada); ("name", VStr "Ada"); ("person_role", VArr []);
                  ("roles", VObj [(Example.owner1, VArr [VStr "A"])])])
           [(Example.owner1, VArr [VStr "A"])] _ _ _ _ _ _ _ _).
  - left. reflexivity.
  - repeat constructor; simpl; intuition discriminate.
  - intros c d0 Hin. unfold wf_object.
    simpl in Hin. destruct (String.eqb c "person"); [|contradiction].
    destruct Hin as [<-|[]].
    repeat constructor; simpl; intuition discriminate.
  - reflexivity.
  - reflexivity.
  - reflexivity.
  - reflexivity.
  - reflexivity.
Defined.

Lemma read_returns_stored_document_witness :
  getObjectFromCollection 1 Example.compilations []
    (Example.request_for "session-1" "Compilation" Example.idA None VUndef VUndef)
  = Some (full_body Example.draft).
Proof.
  exact (proj1 (proj1 (read_returns_stored_document (fun h => eq_refl) (fun h => eq_refl)
                         0 Example.compilations []
                         (Example.request_for "session-1" "Compilation" Example.idA None
                            VUndef VUndef)
                         eq_refl eq_refl eq_refl eq_refl) eq_refl)).
Defined.
